(** * fMRIPrep workflow assembly: a shallow embedding

    This development embeds the graph-construction code of
    [fmriprep/workflows/base.py] (fieldmap-estimator resolution,
    [map_fieldmap_estimation]) and of [fmriprep/workflows/bold/fit.py]
    (the fit and native BOLD workflows, [init_bold_fit_wf],
    [init_bold_native_wf], [_select_ref], [get_sbrefs]) and proves the
    properties the specification states about them.

    Layout:
    - [Py]     : the little of Python the two files rely on (truthiness,
                 insertion-ordered dicts, exceptions, the stable [sorted]);
    - [Base]   : [base.py];
    - [Nipype] : workflows as the code builds them, a store of node objects
                 plus the nodes and edges added by [connect]/[add_nodes];
    - [Fit]    : [bold/fit.py]. *)

From Stdlib Require Import String Ascii List Bool Arith Lia QArith DecimalString.
From Stdlib Require Import Sorted Permutation.
Import ListNotations.
Close Scope Q_scope.
Local Open Scope list_scope.
Local Open Scope string_scope.

(* ================================================================== *)
(** * Python prelude *)
(* ================================================================== *)

Module Py.

(** Exceptions the two source files raise themselves, or let Python raise. *)
Inductive exception :=
| IndexError
| TypeError
| ValueError (msg : string)
| RuntimeError (msg : string)
| NotImplementedError (msg : string).

Inductive outcome (A : Type) :=
| Returned (a : A)
| Raised (e : exception).
Arguments Returned {A} a.
Arguments Raised {A} e.

Definition bind {A B} (m : outcome A) (k : A -> outcome B) : outcome B :=
  match m with
  | Returned a => k a
  | Raised e => Raised e
  end.

Notation "x <- m ;; k" := (bind m (fun x => k))
  (at level 61, m at next level, right associativity).

(** Values stored in the derivatives dictionary and on node inputs: [None],
    a path, a list of paths, or an object that is passed along unread
    (metadata, configuration values); the latter is always true. *)
Inductive pyval :=
| PNone
| PStr (s : string)
| PList (l : list string)
| POpaque (tag : string).

Definition is_nil {A} (l : list A) : bool :=
  match l with [] => true | _ => false end.

(** [bool(v)], the test behind [if v:] and [a or b]. *)
Definition truthy (v : pyval) : bool :=
  match v with
  | PNone => false
  | PStr s => negb (s =? EmptyString)
  | PList l => negb (is_nil l)
  | POpaque _ => true
  end.

(** [bool(x)] for [x : Optional[str]]. *)
Definition truthy_opt (x : option string) : bool :=
  match x with
  | None => false
  | Some s => negb (s =? EmptyString)
  end.

(** Dictionaries keep insertion order; keys are strings. *)
Definition dict (V : Type) := list (string * V).

Fixpoint dict_get {V} (k : string) (d : dict V) : option V :=
  match d with
  | [] => None
  | (k', v) :: d' => if k' =? k then Some v else dict_get k d'
  end.

(** [k in d] *)
Definition dict_mem {V} (k : string) (d : dict V) : bool :=
  match dict_get k d with Some _ => true | None => false end.

(** [d.get(k)], whose default is [None]. *)
Definition dict_get_none (k : string) (d : dict pyval) : pyval :=
  match dict_get k d with Some v => v | None => PNone end.

(** [d[k] = v]: an existing key keeps its position. *)
Fixpoint dict_set {V} (k : string) (v : V) (d : dict V) : dict V :=
  match d with
  | [] => [(k, v)]
  | (k', v') :: d' =>
      if k' =? k then (k, v) :: d' else (k', v') :: dict_set k v d'
  end.

(** [{key(x): val(x) for x in xs}] *)
Definition dict_comprehension {A V} (key : A -> string) (val : A -> V)
    (xs : list A) : dict V :=
  fold_left (fun d x => dict_set (key x) (val x) d) xs [].

Definition keys {V} (d : dict V) : list string := map fst d.
Definition values {V} (d : dict V) : list V := map snd d.

(** [x in xs] for strings. *)
Definition str_in (x : string) (xs : list string) : bool :=
  existsb (String.eqb x) xs.

(** [niworkflows.utils.connections.listify] on what the code hands it:
    a single path becomes a one-element list, a list is kept. *)
Inductive path_or_list :=
| OnePath (f : string)
| PathList (fs : list string).

Definition listify (x : path_or_list) : list string :=
  match x with
  | OnePath f => [f]
  | PathList fs => fs
  end.

(** [xs[0]] *)
Definition first {A} (xs : list A) : outcome A :=
  match xs with
  | x :: _ => Returned x
  | [] => Raised IndexError
  end.

Fixpoint map_outcome {A B} (f : A -> outcome B) (xs : list A)
    : outcome (list B) :=
  match xs with
  | [] => Returned []
  | x :: xs' =>
      y <- f x ;;
      ys <- map_outcome f xs' ;;
      Returned (y :: ys)
  end.

(** [s] occurs in [msg]. *)
Definition mentions (msg s : string) : Prop :=
  exists pre post, msg = pre ++ s ++ post.

(** ** [sorted(xs, key=...)] with keys that may be [None]

    [sorted] is stable and compares keys with [<]; comparing [None] raises
    [TypeError], which happens as soon as two items are sorted and one of
    the keys is [None].  Keys that are numbers are rationals here. *)
Section Sorted.
Context {A : Type}.
Variable key : A -> option Q.

Definition key_le (x y : A) : bool :=
  match key x, key y with
  | Some a, Some b => Qle_bool a b
  | _, _ => false
  end.

Fixpoint insert (x : A) (l : list A) : list A :=
  match l with
  | [] => [x]
  | y :: l' => if key_le x y then x :: y :: l' else y :: insert x l'
  end.

Fixpoint isort (l : list A) : list A :=
  match l with
  | [] => []
  | x :: l' => insert x (isort l')
  end.

Definition has_key (x : A) : bool :=
  match key x with Some _ => true | None => false end.

Definition sorted (l : list A) : outcome (list A) :=
  match l with
  | [] | [_] => Returned l
  | _ => if forallb has_key l then Returned (isort l) else Raised TypeError
  end.
End Sorted.

End Py.
Import Py.

(* ================================================================== *)
(** * [fmriprep/workflows/base.py] *)
(* ================================================================== *)

Module Base.

(** [sdcflows.fieldmaps.EstimatorType], the methods the code tests for. *)
Inductive EstimatorType := MAPPED | PHASEDIFF | PEPOLAR | ANAT.

Definition method_eqb (a b : EstimatorType) : bool :=
  match a, b with
  | MAPPED, MAPPED | PHASEDIFF, PHASEDIFF | PEPOLAR, PEPOLAR | ANAT, ANAT => true
  | _, _ => false
  end.

Record FieldmapFile := {
  path : string;
  suffix : string;
  metadata : string
}.

(** [sdcflows.fieldmaps.FieldmapEstimation] *)
Record FieldmapEstimation := {
  bids_id : string;
  method : EstimatorType;
  sources : list FieldmapFile
}.

(** [use_syn: bool | str] *)
Inductive use_syn_t :=
| SynBool (b : bool)
| SynStr (s : string).

Definition syn_truthy (u : use_syn_t) : bool :=
  match u with
  | SynBool b => b
  | SynStr s => negb (s =? EmptyString)
  end.

(** [use_syn == "error"] *)
Definition syn_is_error (u : use_syn_t) : bool :=
  match u with
  | SynBool _ => false
  | SynStr s => s =? "error"
  end.

(** Records written to [config.loggers.workflow]. *)
Inductive level := INFO | WARNING | ERROR.
Definition log_record : Type := level * string.

Definition is_warning (r : log_record) : bool :=
  match fst r with WARNING => true | _ => false end.

Definition syn_absent_message : string :=
  "Fieldmap-less (SyN) estimation was requested, but PhaseEncodingDirection "
  ++ "information appears to be absent.".

(** The double-quote character of the messages. *)
Definition dq : string := String "034"%char EmptyString.

Definition ignore_fieldmaps_message : string :=
  "Option " ++ dq ++ "--ignore fieldmaps" ++ dq ++ " was set, but either "
  ++ dq ++ "--use-syn-sdc" ++ dq ++ " or " ++ dq ++ "--force-syn" ++ dq
  ++ " were given, so fieldmap-less estimation will be executed.".

(** The warning of lines 950-953. *)
Definition several_message (estimator_key : list string) (bold_file : string)
    : string :=
  "Several fieldmaps <" ++ String.concat ", " estimator_key ++ "> are "
  ++ "'IntendedFor' <" ++ bold_file ++ ">, using " ++ hd EmptyString estimator_key.

(** The loop of lines 948-954 over [all_estimators.items()]: a list of
    several candidates is cut down to its first element in place
    ([estimator_key[1:] = []]), with one warning. *)
Fixpoint keep_first_loop (items : dict (list string))
    : list log_record * dict (list string) :=
  match items with
  | [] => ([], [])
  | (bold_file, estimator_key) :: rest =>
      let '(log, rest') := keep_first_loop rest in
      if (1 <? List.length estimator_key)%nat
      then ((WARNING, several_message estimator_key bold_file) :: log,
            (bold_file, firstn 1 estimator_key) :: rest')
      else (log, (bold_file, estimator_key) :: rest')
  end.

(** Lines 957-961: [{bold_file: estimator_key[0] for ... if estimator_key}] *)
Fixpoint one_to_one (items : dict (list string)) : dict string :=
  match items with
  | [] => []
  | (bold_file, estimator_key) :: rest =>
      match estimator_key with
      | [] => one_to_one rest
      | fmap_id :: _ => (bold_file, fmap_id) :: one_to_one rest
      end
  end.

Definition is_anat (f : FieldmapEstimation) : bool := method_eqb (method f) ANAT.

(** The items of [all_estimators] that get a warning, and the record
    written for one of them. *)
Definition has_several (kv : string * list string) : bool :=
  (1 <? List.length (snd kv))%nat.

Definition several (kv : string * list string) : log_record :=
  (WARNING, several_message (snd kv) (fst kv)).

Section MapFieldmapEstimation.
(** [sdcflows.utils.wrangler.find_estimators] for the layout, subject and
    filters at hand, as a function of [fmapless] and [force_fmapless]. *)
Variable find_estimators : bool -> bool -> list FieldmapEstimation.
(** [fmriprep.workflows.bold.base.get_estimator] for the layout at hand:
    the identifiers declared for a BOLD file, in declaration order. *)
Variable get_estimator : string -> list string.

Variable bold_data : list path_or_list.
Variable ignore_fieldmaps : bool.
Variable use_syn : use_syn_t.
Variable force_syn : bool.

(** The call of lines 912-918. *)
Definition discovered : list FieldmapEstimation :=
  find_estimators
    (syn_truthy use_syn || ignore_fieldmaps && force_syn)
    (force_syn || ignore_fieldmaps && syn_truthy use_syn).

(** Lines 931-936. *)
Definition anat_only_applies (fmap_estimators : list FieldmapEstimation) : bool :=
  ignore_fieldmaps && existsb is_anat fmap_estimators.

Definition restrict_to_anat (fmap_estimators : list FieldmapEstimation)
    : list FieldmapEstimation :=
  if anat_only_applies fmap_estimators
  then filter is_anat fmap_estimators
  else fmap_estimators.

(** Lines 941-946, for the BOLD files [bold_files]. *)
Definition all_estimators_of (all_ids bold_files : list string)
    : dict (list string) :=
  dict_comprehension (fun bold_file => bold_file)
    (fun bold_file =>
       filter (fun fmap_id => str_in fmap_id all_ids) (get_estimator bold_file))
    bold_files.

Definition map_fieldmap_estimation
    : list log_record * outcome (list FieldmapEstimation * dict string) :=
  if negb (negb ignore_fieldmaps || syn_truthy use_syn || force_syn)
  then ([], Returned ([], []))
  else
    let fmap_estimators := discovered in
    if is_nil fmap_estimators then
      if syn_truthy use_syn then
        ([(ERROR, syn_absent_message)],
         if syn_is_error use_syn
         then Raised (ValueError syn_absent_message)
         else Returned ([], []))
      else ([], Returned ([], []))
    else
      let log1 :=
        if anat_only_applies fmap_estimators
        then [(INFO, ignore_fieldmaps_message)] else [] in
      let fmap_estimators := restrict_to_anat fmap_estimators in
      let all_ids := map bids_id fmap_estimators in
      match map_outcome (fun bold_file => first (listify bold_file)) bold_data with
      | Raised e => (log1, Raised e)
      | Returned bold_files =>
          let all_estimators := all_estimators_of all_ids bold_files in
          let '(log2, all_estimators) := keep_first_loop all_estimators in
          let estimator_map := one_to_one all_estimators in
          let fmap_estimators :=
            filter (fun f => str_in (bids_id f) (values estimator_map))
                   fmap_estimators in
          ((log1 ++ log2)%list, Returned (fmap_estimators, estimator_map))
      end.

(** ** Vocabulary of the specification, read off the code *)

(** The series of a subject: the first file of each entry of [bold_data]. *)
Definition series : outcome (list string) :=
  map_outcome (fun bold_file => first (listify bold_file)) bold_data.

(** The estimator identifiers known when candidates are intersected:
    none when estimation is switched off or nothing was discovered. *)
Definition known_ids : list string :=
  if negb (negb ignore_fieldmaps || syn_truthy use_syn || force_syn)
  then []
  else map bids_id (restrict_to_anat discovered).

(** The candidate intersection of a series, in declaration order. *)
Definition candidates (bold_file : string) : list string :=
  filter (fun fmap_id => str_in fmap_id known_ids) (get_estimator bold_file).

(** The invariant the specification states for the returned map: every
    input series is a key, a series has one entry at most, and every
    value is the identifier of a returned estimator. *)
Definition assignment_total_invariant : Prop :=
  forall fmap_estimators estimator_map bold_files log,
    map_fieldmap_estimation = (log, Returned (fmap_estimators, estimator_map)) ->
    series = Returned bold_files ->
    (forall bold_file, In bold_file bold_files ->
       dict_mem bold_file estimator_map = true)
    /\ NoDup (keys estimator_map)
    /\ (forall bold_file fmap_id,
          dict_get bold_file estimator_map = Some fmap_id ->
          In fmap_id (map bids_id fmap_estimators)).
End MapFieldmapEstimation.

(** The per-estimator set-up loop of [init_single_subject_fit_wf]
    (lines 258, 296-315): it runs under [if fmap_estimators:], and rejects
    a PEPOLAR estimator that has not exactly two sources with allowed
    suffixes.  The result lists the estimators it looked at. *)
Definition pepolar_ok (estimator : FieldmapEstimation) : bool :=
  let suffices := map suffix (sources estimator) in
  (List.length suffices =? 2)%nat
  && forallb (fun suf => str_in suf ["epi"; "bold"; "sbref"]) suffices.

Fixpoint setup_estimators (fmap_estimators : list FieldmapEstimation)
    : outcome (list string) :=
  match fmap_estimators with
  | [] => Returned []
  | estimator :: rest =>
      match method estimator with
      | MAPPED | PHASEDIFF | ANAT =>
          seen <- setup_estimators rest ;; Returned (bids_id estimator :: seen)
      | PEPOLAR =>
          if pepolar_ok estimator
          then seen <- setup_estimators rest ;; Returned (bids_id estimator :: seen)
          else Raised (NotImplementedError "Sophisticated PEPOLAR schemes are unsupported.")
      end
  end.

(** A subject used in examples: a PEPOLAR and a phase-difference
    fieldmap, both intended for the first run, none for the second. *)
Module Example.
Definition run1 : string := "sub-01/func/sub-01_task-rest_run-1_bold.nii.gz".
Definition run2_echo1 : string := "sub-01/func/sub-01_task-rest_run-2_echo-1_bold.nii.gz".
Definition run2_echo2 : string := "sub-01/func/sub-01_task-rest_run-2_echo-2_bold.nii.gz".
Definition run2_echo3 : string := "sub-01/func/sub-01_task-rest_run-2_echo-3_bold.nii.gz".

Definition epi (p : string) : FieldmapFile :=
  {| path := p; suffix := "epi"; metadata := "PhaseEncodingDirection" |}.

Definition pepolar : FieldmapEstimation :=
  {| bids_id := "pepolar0";
     method := PEPOLAR;
     sources := [epi "sub-01/fmap/sub-01_dir-AP_epi.nii.gz";
                 epi "sub-01/fmap/sub-01_dir-PA_epi.nii.gz"] |}.

Definition phasediff : FieldmapEstimation :=
  {| bids_id := "phasediff0";
     method := PHASEDIFF;
     sources := [{| path := "sub-01/fmap/sub-01_phasediff.nii.gz";
                    suffix := "phasediff"; metadata := "EchoTime1" |}] |}.

Definition find_estimators (fmapless force_fmapless : bool)
    : list FieldmapEstimation := [pepolar; phasediff].

Definition find_nothing (fmapless force_fmapless : bool)
    : list FieldmapEstimation := [].

Definition get_estimator (bold_file : string) : list string :=
  if bold_file =? run1 then ["pepolar0"; "phasediff0"] else [].

Definition bold_data : list path_or_list :=
  [OnePath run1; PathList [run2_echo1; run2_echo2; run2_echo3]].
End Example.

End Base.

(* ================================================================== *)
(** * Nipype workflows, as far as the code builds them *)
(* ================================================================== *)

Module Nipype.

(** What a node wraps. Only identity interfaces and the function node have
    a behaviour the model looks into; every other interface or nested
    workflow is a stage with declared ports. *)
Inductive interface :=
| IdentityInterface (fields : list string)
| Function (function : string)
| Interface (cls : string)
| Workflow (factory : string).

(** A node object: [pe.Node], [pe.JoinNode] (with its [joinsource]) or a
    nested workflow, with the inputs set on it and its [iterables]. *)
Record node := {
  wraps : interface;
  joinsource : option string;
  inputs : dict pyval;
  iterables : list (string * list nat)
}.

(** An edge [(source, source port, destination, destination port)]. *)
Definition edge : Type := string * string * string * string.

(** The state the builder code works on: the node objects it has created,
    by the name of the variable that holds them, and the workflow graph.
    A node object is shared between the store and the graph, so an input
    set after the node was connected is seen through the graph. *)
Record workflow := {
  store : dict node;
  graph_nodes : list string;
  graph_edges : list edge
}.

Definition empty_workflow : workflow :=
  {| store := []; graph_nodes := []; graph_edges := [] |}.

Definition new_node (n : string) (i : interface) (w : workflow) : workflow :=
  {| store := dict_set n {| wraps := i; joinsource := None; inputs := [];
                            iterables := [] |} (store w);
     graph_nodes := graph_nodes w;
     graph_edges := graph_edges w |}.

Definition new_join_node (n : string) (i : interface) (source : string)
    (w : workflow) : workflow :=
  {| store := dict_set n {| wraps := i; joinsource := Some source; inputs := [];
                            iterables := [] |} (store w);
     graph_nodes := graph_nodes w;
     graph_edges := graph_edges w |}.

Definition update_node (n : string) (f : node -> node) (w : workflow) : workflow :=
  match dict_get n (store w) with
  | Some nd =>
      {| store := dict_set n (f nd) (store w);
         graph_nodes := graph_nodes w;
         graph_edges := graph_edges w |}
  | None => w
  end.

(** [n.inputs.p = v] *)
Definition set_input (n p : string) (v : pyval) : workflow -> workflow :=
  update_node n (fun nd =>
    {| wraps := wraps nd; joinsource := joinsource nd;
       inputs := dict_set p v (inputs nd); iterables := iterables nd |}).

(** [n.iterables = [(p, range(k))]] *)
Definition set_iterables (n p : string) (k : nat) : workflow -> workflow :=
  update_node n (fun nd =>
    {| wraps := wraps nd; joinsource := joinsource nd;
       inputs := inputs nd; iterables := [(p, seq 0 k)] |}).

Definition add_node (w : workflow) (n : string) : workflow :=
  if str_in n (graph_nodes w) then w
  else {| store := store w;
          graph_nodes := (graph_nodes w ++ [n])%list;
          graph_edges := graph_edges w |}.

(** [workflow.add_nodes(ns)] *)
Definition add_nodes (ns : list string) (w : workflow) : workflow :=
  fold_left add_node ns w.

Definition add_edge (w : workflow) (e : edge) : workflow :=
  {| store := store w;
     graph_nodes := graph_nodes w;
     graph_edges := (graph_edges w ++ [e])%list |}.

(** One item [(src, dst, [(out, in), ...])] of a [connect] list. *)
Definition connection : Type := string * string * list (string * string).

Definition connect1 (w : workflow) (c : connection) : workflow :=
  let '(src, dst, ports) := c in
  fold_left (fun w pp => add_edge w (src, fst pp, dst, snd pp)) ports
            (add_nodes [src; dst] w).

(** [workflow.connect(cs)] *)
Definition connect (cs : list connection) (w : workflow) : workflow :=
  fold_left connect1 cs w.

(** A block of builder statements, run in order. *)
Definition run (ops : list (workflow -> workflow)) (w : workflow) : workflow :=
  fold_left (fun w op => op w) ops w.

Definition skip : workflow -> workflow := fun w => w.

Definition in_graph (w : workflow) (n : string) : bool :=
  str_in n (graph_nodes w).

Definition edge_eqb (a b : edge) : bool :=
  let '(s1, p1, d1, q1) := a in
  let '(s2, p2, d2, q2) := b in
  (s1 =? s2) && (p1 =? p2) && (d1 =? d2) && (q1 =? q2).

Definition has_edge (w : workflow) (e : edge) : bool :=
  existsb (edge_eqb e) (graph_edges w).

(** The edge that feeds input port [p] of node [n], if any. *)
Definition incoming (w : workflow) (n p : string) : option (string * string) :=
  match find (fun e : edge => let '(_, _, d, q) := e in (d =? n) && (q =? p))
             (graph_edges w) with
  | Some (s, sp, _, _) => Some (s, sp)
  | None => None
  end.

(** The input set on the node object itself. *)
Definition static_input (w : workflow) (n p : string) : option pyval :=
  match dict_get n (store w) with
  | Some nd => dict_get p (inputs nd)
  | None => None
  end.

(** ** What a port carries

    Following the edges backwards from a port ends at a value set at build
    time, at the output of a stage that runs later, or at a field nothing
    feeds.  Identity interfaces hand a field through; a function node
    applies its function. *)
Inductive value :=
| Static (v : pyval)
| Output (n p : string)
| Unset (n p : string)
| FirstOf (v : value)
| Fails (e : exception).

Section Dataflow.
(** The function of a function node, on the values of its inputs. *)
Variable apply_function : string -> (string -> option value) -> option value.

Fixpoint port_value (fuel : nat) (w : workflow) (n p : string) : option value :=
  match fuel with
  | 0 => None
  | S fuel' =>
      let input_value q :=
        match incoming w n q with
        | Some (s, sp) => port_value fuel' w s sp
        | None =>
            match static_input w n q with
            | Some v => Some (Static v)
            | None => Some (Unset n q)
            end
        end in
      match dict_get n (store w) with
      | None => None
      | Some nd =>
          match joinsource nd, wraps nd with
          | None, IdentityInterface _ => input_value p
          | None, Function f => apply_function f input_value
          | _, _ => Some (Output n p)
          end
      end
  end.

(** What arrives at input port [p] of node [n]. *)
Definition input_value (w : workflow) (n p : string) : option value :=
  match incoming w n p with
  | Some (s, sp) => port_value (List.length (graph_nodes w)) w s sp
  | None =>
      match static_input w n p with
      | Some v => Some (Static v)
      | None => Some (Unset n p)
      end
  end.
End Dataflow.

End Nipype.
Import Nipype.

(* ================================================================== *)
(** * [fmriprep/workflows/bold/fit.py] *)
(* ================================================================== *)

Module Fit.

(** The dictionary [precomputed]: its entries other than ["transforms"],
    and the dictionary stored under ["transforms"] when there is one. *)
Record precomputed_t := {
  entries : dict pyval;
  transforms_entry : option (dict pyval)
}.

(** [listify(v)[0]] on what travels along an edge.  [listify(None)] is
    [None], which cannot be indexed. *)
Definition listify_first (v : value) : value :=
  match v with
  | Static (PStr s) => Static (PStr s)
  | Static (PList (x :: _)) => Static (PStr x)
  | Static (PList []) => Fails IndexError
  | Static PNone => Fails TypeError
  | Static (POpaque t) => Static (POpaque t)
  | Fails e => Fails e
  | Output _ _ | Unset _ _ | FirstOf _ => FirstOf v
  end.

(** [_select_ref], lines 875-880. [sbref_files] is set at build time,
    [boldref_files] arrives over an edge. *)
Definition _select_ref (sbref_files : pyval) (boldref_files : value) : value :=
  let refs := if truthy sbref_files then Static sbref_files else boldref_files in
  listify_first refs.

(** The functions wrapped by [niu.Function] nodes. *)
Definition apply_function (f : string) (input : string -> option value)
    : option value :=
  if f =? "_select_ref" then
    match input "sbref_files", input "boldref_files" with
    | Some (Static sbref_files), Some boldref_files =>
        Some (_select_ref sbref_files boldref_files)
    | _, _ => None
    end
  else None.

(** What a graph-level output port of a workflow resolves to. *)
Definition graph_output (w : workflow) (p : string) : option value :=
  port_value apply_function (S (List.length (graph_nodes w))) w "outputnode" p.

(** What arrives at an input port of a node of the graph. *)
Definition arrives_at (w : workflow) (n p : string) : option value :=
  input_value apply_function w n p.

(** Lines 223-232: the tests on the derivatives dictionary. *)
Definition have_hmcref (precomputed : precomputed_t) : bool :=
  dict_mem "hmc_boldref" (entries precomputed).
Definition have_coregref (precomputed : precomputed_t) : bool :=
  dict_mem "coreg_boldref" (entries precomputed).
Definition transforms (precomputed : precomputed_t) : dict pyval :=
  match transforms_entry precomputed with Some d => d | None => [] end.
Definition hmc_xforms (precomputed : precomputed_t) : pyval :=
  dict_get_none "hmc" (transforms precomputed).
Definition boldref2fmap_xform (precomputed : precomputed_t) : pyval :=
  dict_get_none "boldref2fmap" (transforms precomputed).
Definition boldref2anat_xform (precomputed : precomputed_t) : pyval :=
  dict_get_none "boldref2anat" (transforms precomputed).

(** [precomputed[k]], read only under [k in precomputed]. *)
Definition subscript (k : string) (precomputed : precomputed_t) : pyval :=
  dict_get_none k (entries precomputed).

(** Lines 236-338: the nodes every fit workflow starts from and the
    connections made before the stages. *)
Definition fit_frame (bold_series : list string) : workflow -> workflow :=
  run [
    new_node "inputnode" (IdentityInterface
      ["bold_file"; "fmap"; "fmap_ref"; "fmap_coeff"; "fmap_mask"; "fmap_id";
       "sdc_method"; "t1w_preproc"; "t1w_mask"; "t1w_dseg"; "subjects_dir";
       "subject_id"; "fsnative2t1w_xfm"]);
    set_input "inputnode" "bold_file" (PList bold_series);
    new_node "outputnode" (IdentityInterface
      ["dummy_scans"; "hmc_boldref"; "coreg_boldref"; "bold_mask";
       "motion_xfm"; "boldref2anat_xfm"; "boldref2fmap_xfm"]);
    (* If all derivatives exist, inputnode could go unconnected, so add explicitly *)
    add_nodes ["inputnode"];
    new_node "hmcref_buffer" (IdentityInterface ["boldref"; "bold_file"]);
    new_node "fmapref_buffer" (Function "_select_ref");
    new_node "hmc_buffer" (IdentityInterface ["hmc_xforms"]);
    new_node "fmapreg_buffer" (IdentityInterface ["boldref2fmap_xfm"]);
    new_node "regref_buffer" (IdentityInterface ["boldref"; "boldmask"]);
    new_node "summary" (Interface "FunctionalSummary");
    set_input "summary" "distortion_correction" (PStr "None");
    set_input "summary" "registration" (POpaque "config.workflow.run_reconall");
    set_input "summary" "registration_dof" (POpaque "config.workflow.bold2t1w_dof");
    set_input "summary" "registration_init" (POpaque "config.workflow.bold2t1w_init");
    set_input "summary" "pe_direction" (POpaque "metadata.PhaseEncodingDirection");
    set_input "summary" "echo_idx" (POpaque "entities.echo");
    set_input "summary" "tr" (POpaque "metadata.RepetitionTime");
    set_input "summary" "orientation" (POpaque "orientation");
    set_input "summary" "dummy_scans" (POpaque "config.workflow.dummy_scans");
    new_node "func_fit_reports_wf" (Workflow "init_func_fit_reports_wf");
    connect [
      ("hmcref_buffer", "outputnode", [("boldref", "hmc_boldref")]);
      ("regref_buffer", "outputnode",
         [("boldref", "coreg_boldref"); ("boldmask", "bold_mask")]);
      ("fmapreg_buffer", "outputnode", [("boldref2fmap_xfm", "boldref2fmap_xfm")]);
      ("hmc_buffer", "outputnode", [("hmc_xforms", "motion_xfm")]);
      ("inputnode", "func_fit_reports_wf",
         [("bold_file", "inputnode.source_file");
          ("t1w_preproc", "inputnode.t1w_preproc");
          ("t1w_mask", "inputnode.t1w_mask");
          ("t1w_dseg", "inputnode.t1w_dseg");
          ("subjects_dir", "inputnode.subjects_dir");
          ("subject_id", "inputnode.subject_id")]);
      ("outputnode", "func_fit_reports_wf",
         [("coreg_boldref", "inputnode.coreg_boldref");
          ("boldref2anat_xfm", "inputnode.boldref2anat_xfm")]);
      ("summary", "func_fit_reports_wf", [("out_report", "inputnode.summary_report")])
    ]
  ].

(** Stage 1 (lines 341-384): generate the motion-correction boldref. *)
Definition stage1_add (bold_file : string) : workflow -> workflow :=
  run [
    new_node "hmc_boldref_wf" (Workflow "init_raw_boldref_wf");
    set_input "hmc_boldref_wf" "inputnode.dummy_scans"
              (POpaque "config.workflow.dummy_scans");
    new_node "ds_hmc_boldref_wf" (Workflow "init_ds_boldref_wf");
    set_input "ds_hmc_boldref_wf" "inputnode.source_files" (PList [bold_file]);
    connect [
      ("hmc_boldref_wf", "hmcref_buffer",
         [("outputnode.bold_file", "bold_file"); ("outputnode.boldref", "boldref")]);
      ("hmcref_buffer", "ds_hmc_boldref_wf", [("boldref", "inputnode.boldref")]);
      ("hmc_boldref_wf", "summary",
         [("outputnode.algo_dummy_scans", "algo_dummy_scans")]);
      ("hmc_boldref_wf", "func_fit_reports_wf",
         [("outputnode.validation_report", "inputnode.validation_report")])
    ]
  ].

Definition stage1_reuse (bold_file : string) (precomputed : precomputed_t)
    : workflow -> workflow :=
  run [
    new_node "validate_bold" (Interface "ValidateImage");
    set_input "validate_bold" "in_file" (PStr bold_file);
    set_input "hmcref_buffer" "boldref" (subscript "hmc_boldref" precomputed);
    connect [
      ("validate_bold", "hmcref_buffer", [("out_file", "bold_file")]);
      ("validate_bold", "func_fit_reports_wf",
         [("out_report", "inputnode.validation_report")])
    ]
  ].

Definition stage1 (bold_file : string) (precomputed : precomputed_t)
    : workflow -> workflow :=
  if negb (have_hmcref precomputed)
  then stage1_add bold_file
  else stage1_reuse bold_file precomputed.

(** Stage 2 (lines 387-411): estimate head motion. *)
Definition stage2_add (bold_file : string) : workflow -> workflow :=
  run [
    new_node "bold_hmc_wf" (Workflow "init_bold_hmc_wf");
    new_node "ds_hmc_wf" (Workflow "init_ds_hmc_wf");
    set_input "ds_hmc_wf" "inputnode.source_files" (PList [bold_file]);
    connect [
      ("hmcref_buffer", "bold_hmc_wf",
         [("boldref", "inputnode.raw_ref_image"); ("bold_file", "inputnode.bold_file")]);
      ("bold_hmc_wf", "ds_hmc_wf", [("outputnode.xforms", "inputnode.xforms")]);
      ("ds_hmc_wf", "hmc_buffer", [("outputnode.xforms", "hmc_xforms")])
    ]
  ].

Definition stage2_reuse (precomputed : precomputed_t) : workflow -> workflow :=
  set_input "hmc_buffer" "hmc_xforms" (hmc_xforms precomputed).

Definition stage2 (bold_file : string) (precomputed : precomputed_t)
    : workflow -> workflow :=
  if negb (truthy (hmc_xforms precomputed))
  then stage2_add bold_file
  else stage2_reuse precomputed.

(** Lines 449-484: register the reference to the fieldmap, or take the
    transform found among the derivatives. *)
Definition fmapreg_add : workflow -> workflow :=
  run [
    new_node "fmapreg_wf" (Workflow "init_coeff2epi_wf");
    new_node "itk_mat2txt" (Interface "ConcatenateXFMs");
    set_input "itk_mat2txt" "out_fmt" (PStr "itk");
    new_node "ds_fmapreg_wf" (Workflow "init_ds_registration_wf");
    connect [
      ("enhance_boldref_wf", "fmapreg_wf",
         [("outputnode.bias_corrected_file", "inputnode.target_ref");
          ("outputnode.mask_file", "inputnode.target_mask")]);
      ("fmap_select", "fmapreg_wf",
         [("fmap_ref", "inputnode.fmap_ref"); ("fmap_mask", "inputnode.fmap_mask")]);
      ("fmapreg_wf", "itk_mat2txt", [("outputnode.target2fmap_xfm", "in_xfms")]);
      ("itk_mat2txt", "ds_fmapreg_wf", [("out_xfm", "inputnode.xform")]);
      ("fmapref_buffer", "ds_fmapreg_wf", [("out", "inputnode.source_files")]);
      ("ds_fmapreg_wf", "fmapreg_buffer", [("outputnode.xform", "boldref2fmap_xfm")])
    ]
  ].

Definition fmapreg_reuse (precomputed : precomputed_t) : workflow -> workflow :=
  set_input "fmapreg_buffer" "boldref2fmap_xfm" (boldref2fmap_xform precomputed).

(** Lines 486-528: unwarp the enhanced reference. *)
Definition unwarp : workflow -> workflow :=
  run [
    new_node "unwarp_wf" (Workflow "init_unwarp_wf");
    set_input "unwarp_wf" "inputnode.metadata" (POpaque "layout.get_metadata(bold_file)");
    connect [
      ("inputnode", "fmap_select",
         [("fmap_ref", "fmap_ref"); ("fmap_coeff", "fmap_coeff");
          ("fmap_mask", "fmap_mask"); ("sdc_method", "sdc_method");
          ("fmap_id", "keys")]);
      ("fmap_select", "unwarp_wf", [("fmap_coeff", "inputnode.fmap_coeff")]);
      ("fmapreg_buffer", "unwarp_wf", [("boldref2fmap_xfm", "inputnode.fmap2data_xfm")]);
      ("enhance_boldref_wf", "unwarp_wf",
         [("outputnode.bias_corrected_file", "inputnode.distorted")]);
      ("unwarp_wf", "ds_coreg_boldref_wf", [("outputnode.corrected", "inputnode.boldref")]);
      ("unwarp_wf", "regref_buffer", [("outputnode.corrected_mask", "boldmask")]);
      ("fmap_select", "func_fit_reports_wf", [("fmap_ref", "inputnode.fmap_ref")]);
      ("fmap_select", "summary", [("sdc_method", "distortion_correction")]);
      ("fmapreg_buffer", "func_fit_reports_wf",
         [("boldref2fmap_xfm", "inputnode.boldref2fmap_xfm")]);
      ("unwarp_wf", "func_fit_reports_wf", [("outputnode.fieldmap", "inputnode.fieldmap")])
    ]
  ].

(** Lines 439-528: the branch of stage 3 taken when a fieldmap is assigned. *)
Definition stage3_fieldmap (fieldmap_id : string) (precomputed : precomputed_t)
    : workflow -> workflow :=
  run [
    new_node "fmap_select" (Interface "KeySelect");
    set_input "fmap_select" "key" (PStr fieldmap_id);
    (if negb (truthy (boldref2fmap_xform precomputed))
     then fmapreg_add
     else fmapreg_reuse precomputed);
    unwarp
  ].

(** Lines 529-539: without a fieldmap the enhanced reference is the
    coregistration reference. *)
Definition stage3_plain : workflow -> workflow :=
  connect [
    ("enhance_boldref_wf", "ds_coreg_boldref_wf",
       [("outputnode.bias_corrected_file", "inputnode.boldref")]);
    ("enhance_boldref_wf", "regref_buffer",
       [("outputnode.mask_file", "boldmask")])
  ].

(** Lines 419-437: select the initial reference, enhance and mask it. *)
Definition stage3_enhance (sbref_files : list string) : workflow -> workflow :=
  run [
    set_input "fmapref_buffer" "sbref_files" (PList sbref_files);
    new_node "enhance_boldref_wf" (Workflow "init_enhance_and_skullstrip_bold_wf");
    new_node "ds_coreg_boldref_wf" (Workflow "init_ds_boldref_wf");
    connect [
      ("hmcref_buffer", "fmapref_buffer", [("boldref", "boldref_files")]);
      ("fmapref_buffer", "enhance_boldref_wf", [("out", "inputnode.in_file")]);
      ("fmapref_buffer", "ds_coreg_boldref_wf", [("out", "inputnode.source_files")]);
      ("ds_coreg_boldref_wf", "regref_buffer", [("outputnode.boldref", "boldref")]);
      ("fmapref_buffer", "func_fit_reports_wf", [("out", "inputnode.sdc_boldref")])
    ]
  ].

Definition stage3_reuse (precomputed : precomputed_t) : workflow -> workflow :=
  set_input "regref_buffer" "boldref" (subscript "coreg_boldref" precomputed).

(** Stage 3 (lines 415-542): create the coregistration reference. *)
Definition stage3 (sbref_files : list string) (precomputed : precomputed_t)
    (fieldmap_id : option string) : workflow -> workflow :=
  if negb (have_coregref precomputed) then
    run [
      stage3_enhance sbref_files;
      (if truthy_opt fieldmap_id
       then stage3_fieldmap
              (match fieldmap_id with Some i => i | None => EmptyString end)
              precomputed
       else stage3_plain)
    ]
  else stage3_reuse precomputed.

(** Lines 544-587: registration of the BOLD reference to the T1w image. *)
Definition stage4_add : workflow -> workflow :=
  run [
    new_node "bold_reg_wf" (Workflow "init_bold_reg_wf");
    new_node "ds_boldreg_wf" (Workflow "init_ds_registration_wf");
    connect [
      ("inputnode", "bold_reg_wf",
         [("t1w_preproc", "inputnode.t1w_preproc");
          ("t1w_mask", "inputnode.t1w_mask");
          ("t1w_dseg", "inputnode.t1w_dseg");
          ("subjects_dir", "inputnode.subjects_dir");
          ("subject_id", "inputnode.subject_id");
          ("fsnative2t1w_xfm", "inputnode.fsnative2t1w_xfm")]);
      ("regref_buffer", "bold_reg_wf", [("boldref", "inputnode.ref_bold_brain")]);
      ("regref_buffer", "ds_boldreg_wf", [("boldref", "inputnode.source_files")]);
      ("bold_reg_wf", "ds_boldreg_wf",
         [("outputnode.itk_bold_to_t1", "inputnode.xform")]);
      ("ds_boldreg_wf", "outputnode", [("outputnode.xform", "boldref2anat_xfm")]);
      ("bold_reg_wf", "summary", [("outputnode.fallback", "fallback")])
    ]
  ].

Definition stage4_reuse (precomputed : precomputed_t) : workflow -> workflow :=
  set_input "outputnode" "boldref2anat_xfm" (boldref2anat_xform precomputed).

Definition stage4 (precomputed : precomputed_t) : workflow -> workflow :=
  if negb (truthy (boldref2anat_xform precomputed))
  then stage4_add
  else stage4_reuse precomputed.

(** The graph built once the files are known. *)
Definition fit_graph (bold_series : list string) (bold_file : string)
    (sbref_files : list string) (precomputed : precomputed_t)
    (fieldmap_id : option string) : workflow :=
  run [
    fit_frame bold_series;
    stage1 bold_file precomputed;
    stage2 bold_file precomputed;
    stage3 sbref_files precomputed fieldmap_id;
    stage4 precomputed
  ] empty_workflow.

(** [os.path.basename] *)
Fixpoint has_slash (p : string) : bool :=
  match p with
  | EmptyString => false
  | String c r => Ascii.eqb c "/"%char || has_slash r
  end.

Fixpoint basename (p : string) : string :=
  match p with
  | EmptyString => EmptyString
  | String c r =>
      if Ascii.eqb c "/"%char || has_slash r then basename r else p
  end.

Definition nl : string := String "010"%char EmptyString.

(** [str] of a number, and of a shape tuple. *)
Definition repr_nat (n : nat) : string := NilEmpty.string_of_uint (Nat.to_uint n).

Definition repr_shape (shape : list nat) : string :=
  match shape with
  | [n] => "(" ++ repr_nat n ++ ",)"
  | _ => "(" ++ String.concat ", " (map repr_nat shape) ++ ")"
  end.

(** Lines 703-706. *)
Definition diagnostic (bold_files : list string) (shapes : list (list nat))
    : string :=
  String.concat nl
    (map (fun es : string * list nat => basename (fst es) ++ ": " ++ repr_shape (snd es))
         (combine bold_files shapes)).

Definition shape_mismatch_message (bold_files : list string)
    (shapes : list (list nat)) : string :=
  "Multi-echo images found with mismatching shapes" ++ nl
  ++ diagnostic bold_files shapes.

Definition insufficient_echoes_message : string :=
  "Multi-echo processing requires at least three different echos (found two).".

(** [len(set(shapes))] *)
Definition distinct_shapes (shapes : list (list nat)) : nat :=
  List.length (nodup (list_eq_dec Nat.eq_dec) shapes).

(** The cached slots of the specification, with the test the code makes
    for each, the stages that produce it, the graph-level port that
    carries it and the artifact the dictionary holds. *)
Inductive slot :=
| hmc_boldref
| transforms_hmc
| coreg_boldref
| transforms_boldref2anat.

Definition cache_has (precomputed : precomputed_t) (X : slot) : bool :=
  match X with
  | hmc_boldref => have_hmcref precomputed
  | transforms_hmc => truthy (hmc_xforms precomputed)
  | coreg_boldref => have_coregref precomputed
  | transforms_boldref2anat => truthy (boldref2anat_xform precomputed)
  end.

Definition cache_get (precomputed : precomputed_t) (X : slot) : pyval :=
  match X with
  | hmc_boldref => subscript "hmc_boldref" precomputed
  | transforms_hmc => hmc_xforms precomputed
  | coreg_boldref => subscript "coreg_boldref" precomputed
  | transforms_boldref2anat => boldref2anat_xform precomputed
  end.

(** What the dictionary holds under ["transforms"][k], if it has a
    ["transforms"] entry and that entry has the key. *)
Definition stored_transform (precomputed : precomputed_t) (k : string)
    : option pyval :=
  match transforms_entry precomputed with
  | Some d => dict_get k d
  | None => None
  end.

(** The entry of the dictionary a slot is read from. *)
Definition slot_lookup (precomputed : precomputed_t) (X : slot) : option pyval :=
  match X with
  | hmc_boldref => dict_get "hmc_boldref" (entries precomputed)
  | transforms_hmc => stored_transform precomputed "hmc"
  | coreg_boldref => dict_get "coreg_boldref" (entries precomputed)
  | transforms_boldref2anat => stored_transform precomputed "boldref2anat"
  end.

Definition stage_group (X : slot) : list string :=
  match X with
  | hmc_boldref => ["hmc_boldref_wf"; "ds_hmc_boldref_wf"]
  | transforms_hmc => ["bold_hmc_wf"; "ds_hmc_wf"]
  | coreg_boldref =>
      ["fmapref_buffer"; "enhance_boldref_wf"; "ds_coreg_boldref_wf";
       "fmap_select"; "fmapreg_wf"; "itk_mat2txt"; "ds_fmapreg_wf"; "unwarp_wf"]
  | transforms_boldref2anat => ["bold_reg_wf"; "ds_boldreg_wf"]
  end.

Definition output_port (X : slot) : string :=
  match X with
  | hmc_boldref => "hmc_boldref"
  | transforms_hmc => "motion_xfm"
  | coreg_boldref => "coreg_boldref"
  | transforms_boldref2anat => "boldref2anat_xfm"
  end.

(** The registration-to-fieldmap sub-branch of stage 3. *)
Definition fmapreg_branch : list string :=
  ["fmapreg_wf"; "itk_mat2txt"; "ds_fmapreg_wf"].

Section Environment.
(** [layout.get_metadata(fname).get("EchoTime")] *)
Variable echo_time : string -> option Q.
(** [layout.get(return_type="file", **entities)] of [get_sbrefs], for
    the entities of the BOLD files and the configured overrides. *)
Variable layout_get_sbref : list string -> list string.
(** [nb.load(echo).shape] *)
Variable img_shape : string -> list nat.
(** [bool(layout.get_metadata(fname).get("SliceTiming"))] *)
Variable slice_timing : string -> bool.
(** [config.workflow.ignore] *)
Variable ignore : list string.

(** [get_sbrefs], lines 62-91. *)
Definition get_sbrefs (bold_files : list string) : outcome (list string) :=
  sorted echo_time (layout_get_sbref bold_files).

(** [init_bold_fit_wf], lines 94-589. *)
Definition init_bold_fit_wf (bold_series : list string)
    (precomputed : precomputed_t) (fieldmap_id : option string)
    : outcome workflow :=
  bold_files <- sorted echo_time bold_series ;;
  sbref_files <- get_sbrefs bold_files ;;
  bold_file <- first bold_files ;;
  Returned (fit_graph bold_series bold_file sbref_files precomputed fieldmap_id).

(** Lines 700-710: the checks on a multi-echo series. *)
Definition check_echoes (bold_files : list string) : outcome unit :=
  let multiecho := (1 <? List.length bold_files)%nat in
  if multiecho then
    let shapes := map img_shape bold_files in
    if negb (distinct_shapes shapes =? 1)%nat then
      Raised (RuntimeError (shape_mismatch_message bold_files shapes))
    else if (List.length shapes =? 2)%nat then
      Raised (RuntimeError insufficient_echoes_message)
    else Returned tt
  else Returned tt.

(** Lines 714-870: the graph of the native workflow. *)
Definition native_graph (bold_files : list string) (bold_file : string)
    (fieldmap_id : option string) : workflow :=
  let multiecho := (1 <? List.length bold_files)%nat in
  let run_stc := slice_timing bold_file && negb (str_in "slicetiming" ignore) in
  run [
    new_node "inputnode" (IdentityInterface
      ["boldref"; "bold_mask"; "motion_xfm"; "boldref2fmap_xfm"; "dummy_scans";
       "fmap_ref"; "fmap_coeff"; "fmap_id"]);
    new_node "outputnode" (IdentityInterface
      ["bold_minimal"; "bold_native"; "metadata"; "motion_xfm"; "bold_echos";
       "t2star_map"]);
    set_input "outputnode" "metadata" (POpaque "metadata");
    new_node "boldbuffer" (IdentityInterface ["bold_file"; "ro_time"; "pe_dir"]);
    new_node "echo_index" (IdentityInterface ["echoidx"]);
    (if multiecho
     then set_iterables "echo_index" "echoidx" (List.length bold_files)
     else set_input "echo_index" "echoidx" (POpaque "0"));
    new_node "bold_source" (Interface "Select");
    set_input "bold_source" "inlist" (PList bold_files);
    new_node "validate_bold" (Interface "ValidateImage");
    connect [
      ("echo_index", "bold_source", [("echoidx", "index")]);
      ("bold_source", "validate_bold", [("out", "in_file")])
    ];
    (if run_stc then
       run [
         new_node "bold_stc_wf" (Workflow "init_bold_stc_wf");
         connect [
           ("inputnode", "bold_stc_wf", [("dummy_scans", "inputnode.skip_vols")]);
           ("validate_bold", "bold_stc_wf", [("out_file", "inputnode.bold_file")]);
           ("bold_stc_wf", "boldbuffer", [("outputnode.stc_file", "bold_file")])
         ]
       ]
     else
       connect [("validate_bold", "boldbuffer", [("out_file", "bold_file")])]);
    (if truthy_opt fieldmap_id then
       run [
         new_node "fmap_select" (Interface "KeySelect");
         set_input "fmap_select" "key"
           (PStr (match fieldmap_id with Some i => i | None => EmptyString end));
         new_node "distortion_params" (Interface "DistortionParameters");
         set_input "distortion_params" "metadata" (POpaque "metadata");
         set_input "distortion_params" "in_file" (PStr bold_file);
         connect [
           ("inputnode", "fmap_select",
              [("fmap_ref", "fmap_ref"); ("fmap_coeff", "fmap_coeff");
               ("fmap_id", "keys")]);
           ("distortion_params", "boldbuffer",
              [("readout_time", "ro_time"); ("pe_direction", "pe_dir")])
         ]
       ]
     else skip);
    new_node "boldref_bold" (Interface "ResampleSeries");
    connect [
      ("inputnode", "boldref_bold",
         [("boldref", "ref_file"); ("motion_xfm", "transforms")]);
      ("boldbuffer", "boldref_bold",
         [("bold_file", "in_file"); ("ro_time", "ro_time"); ("pe_dir", "pe_dir")])
    ];
    (if truthy_opt fieldmap_id then
       run [
         new_node "boldref_fmap" (Interface "ReconstructFieldmap");
         set_input "boldref_fmap" "inverse" (POpaque "[True]");
         connect [
           ("inputnode", "boldref_fmap",
              [("boldref", "target_ref_file"); ("boldref2fmap_xfm", "transforms")]);
           ("fmap_select", "boldref_fmap",
              [("fmap_coeff", "in_coeffs"); ("fmap_ref", "fmap_ref_file")]);
           ("boldref_fmap", "boldref_bold", [("out_file", "fieldmap")])
         ]
       ]
     else skip);
    (if multiecho then
       run [
         new_join_node "join_echos" (IdentityInterface ["bold_files"]) "echo_index";
         new_node "bold_t2s_wf" (Workflow "init_bold_t2s_wf");
         (* Do NOT set motion_xfm on outputnode *)
         connect [
           ("inputnode", "bold_t2s_wf", [("bold_mask", "inputnode.bold_mask")]);
           ("boldref_bold", "join_echos", [("out_file", "bold_files")]);
           ("join_echos", "bold_t2s_wf", [("bold_files", "inputnode.bold_file")]);
           ("join_echos", "outputnode", [("bold_files", "bold_echos")]);
           ("bold_t2s_wf", "outputnode",
              [("outputnode.bold", "bold_minimal");
               ("outputnode.bold", "bold_native");
               ("outputnode.t2star_map", "t2star_map")])
         ]
       ]
     else
       connect [
         ("inputnode", "outputnode", [("motion_xfm", "motion_xfm")]);
         ("boldbuffer", "outputnode", [("bold_file", "bold_minimal")]);
         ("boldref_bold", "outputnode", [("out_file", "bold_native")])
       ])
  ] empty_workflow.

(** [init_bold_native_wf], lines 592-872.  Unpacking the sorted triples
    of an empty series raises [ValueError]. *)
Definition init_bold_native_wf (bold_series : list string)
    (fieldmap_id : option string) : outcome workflow :=
  bold_files <- sorted echo_time bold_series ;;
  bold_file <-
    match bold_files with
    | b :: _ => Returned b
    | [] => Raised (ValueError "not enough values to unpack (expected 3, got 0)")
    end ;;
  _ <- check_echoes bold_files ;;
  Returned (native_graph bold_files bold_file fieldmap_id).

(** The two failures the specification states for a multi-echo series:
    two echoes give the insufficient-echoes error, three or more echoes
    of mismatching shapes give the shape error naming every file. *)
Definition echo_errors_as_specified : Prop :=
  forall bold_series fieldmap_id,
    (List.length bold_series = 2 ->
     init_bold_native_wf bold_series fieldmap_id
     = Raised (RuntimeError insufficient_echoes_message))
    /\ (3 <= List.length bold_series ->
        distinct_shapes (map img_shape bold_series) <> 1 ->
        exists d,
          init_bold_native_wf bold_series fieldmap_id
          = Raised (RuntimeError
                      ("Multi-echo images found with mismatching shapes" ++ nl ++ d))
          /\ forall echo, In echo bold_series -> mentions d (basename echo)).
End Environment.

(** A series used in examples: three echoes with their echo times, two
    single-band references, and a two-echo series whose images differ in
    shape. *)
Module Example.
Definition echo1 : string := "sub-01/func/sub-01_task-rest_echo-1_bold.nii.gz".
Definition echo2 : string := "sub-01/func/sub-01_task-rest_echo-2_bold.nii.gz".
Definition echo3 : string := "sub-01/func/sub-01_task-rest_echo-3_bold.nii.gz".
Definition sbref1 : string := "sub-01/func/sub-01_task-rest_echo-1_sbref.nii.gz".
Definition sbref2 : string := "sub-01/func/sub-01_task-rest_echo-2_sbref.nii.gz".
Definition short1 : string := "sub-02/func/sub-02_task-rest_echo-1_bold.nii.gz".
Definition short2 : string := "sub-02/func/sub-02_task-rest_echo-2_bold.nii.gz".

(** Echo times in seconds: 13 ms, 29 ms, 45 ms. *)
Definition echo_time (fname : string) : option Q :=
  if (fname =? echo1) || (fname =? sbref1) || (fname =? short1) then Some (13 # 1000)%Q
  else if (fname =? echo2) || (fname =? sbref2) || (fname =? short2) then Some (29 # 1000)%Q
  else if fname =? echo3 then Some (45 # 1000)%Q
  else None.

Definition layout_get_sbref (bold_files : list string) : list string :=
  if str_in echo1 bold_files then [sbref2; sbref1] else [].

Definition no_sbref (bold_files : list string) : list string := [].

Definition img_shape (fname : string) : list nat :=
  if fname =? short2 then [64; 64; 30; 200] else [64; 64; 32; 200].

Definition slice_timing (fname : string) : bool := true.

Definition ignore : list string := [].

Definition all_cached : precomputed_t :=
  {| entries := [("hmc_boldref", PStr "sub-01_desc-hmc_boldref.nii.gz");
                 ("coreg_boldref", PStr "sub-01_desc-coreg_boldref.nii.gz")];
     transforms_entry :=
       Some [("hmc", PStr "sub-01_from-orig_to-boldref_xfm.txt");
             ("boldref2anat", PStr "sub-01_from-boldref_to-T1w_xfm.txt");
             ("boldref2fmap", PStr "sub-01_from-boldref_to-fmap_xfm.txt")] |}.

Definition nothing_cached : precomputed_t :=
  {| entries := []; transforms_entry := None |}.

(** Derivatives that hold the HMC reference only, and the
    boldref-to-fieldmap transform only. *)
Definition hmcref_cached : precomputed_t :=
  {| entries := [("hmc_boldref", PStr "sub-01_desc-hmc_boldref.nii.gz")];
     transforms_entry := None |}.

End Example.

End Fit.

(* ================================================================== *)
(** * [base.py]: the remaining functions *)
(* ================================================================== *)

Module Subject.
Import Base.

(** [_prefix], lines 968-969. *)
Definition _prefix (subid : string) : string :=
  if String.prefix "sub-" subid then subid else "sub-" ++ subid.

(** [name.split('.')]: [cur] is the component being read. *)
Fixpoint split_dots (name cur : string) : list string :=
  match name with
  | EmptyString => [cur]
  | String c rest =>
      if Ascii.eqb c "."%char
      then cur :: split_dots rest EmptyString
      else split_dots rest (cur ++ String c EmptyString)
  end.

(** [name.split('.')[-1]] *)
Definition last_component (name : string) : string :=
  last (split_dots name EmptyString) EmptyString.

(** A node as [clean_datasinks] sees it: its full dotted name, from
    [workflow.list_node_names()], and the [out_path_base] attribute of its
    interface, if it has one. *)
Record named_node := {
  node_name : string;
  out_path_base : option string
}.

Definition is_datasink_name (node : string) : bool :=
  String.prefix "ds_" (last_component node).

(** [clean_datasinks], lines 972-977. *)
Definition clean_datasinks (workflow : list named_node) : list named_node :=
  map (fun n =>
         if is_datasink_name (node_name n)
         then {| node_name := node_name n; out_path_base := Some EmptyString |}
         else n)
      workflow.

(** [subject_data], as [collect_data] returns it. *)
Record subject_data_t := {
  bold : list path_or_list;
  t1w : list string;
  t2w : list string;
  flair : list string;
  roi : list string
}.

(** What the opening of [init_single_subject_wf] can raise: [RuntimeError]
    and a plain [Exception]. *)
Inductive raised :=
| Builtin (e : exception)
| PlainException (msg : string).

Definition no_bold_message (subject_id : string) (task_id : option string)
    : string :=
  "No BOLD images found for participant " ++ subject_id ++ " and task "
  ++ (if truthy_opt task_id
      then match task_id with Some t => t | None => EmptyString end
      else "<all>")
  ++ ". All workflows require BOLD images.".

Definition no_t1w_message (subject_id : string) : string :=
  "No T1w images found for participant " ++ subject_id
  ++ ". All workflows require T1w images.".

(** Lines 462-505 of [init_single_subject_wf]: the data that goes on, and
    whether the lesion-mask [FutureWarning] is issued, or the error. *)
Definition check_subject_data (subject_id : string) (task_id : option string)
    (ignore : list string) (anat_only : bool) (deriv_cache : list string)
    (subject_data : subject_data_t) : (subject_data_t * bool) + raised :=
  let subject_data :=
    if str_in "flair" ignore
    then {| bold := bold subject_data; t1w := t1w subject_data;
            t2w := t2w subject_data; flair := []; roi := roi subject_data |}
    else subject_data in
  let subject_data :=
    if str_in "t2w" ignore
    then {| bold := bold subject_data; t1w := t1w subject_data;
            t2w := []; flair := flair subject_data; roi := roi subject_data |}
    else subject_data in
  if negb anat_only && is_nil (bold subject_data) then
    inr (Builtin (RuntimeError (no_bold_message subject_id task_id)))
  else if negb (str_in "t1w_preproc" deriv_cache) && is_nil (t1w subject_data) then
    inr (PlainException (no_t1w_message subject_id))
  else inl (subject_data, negb (is_nil (roi subject_data))).

Section LegacyFieldmaps.
(** [find_estimators] and [get_estimator], as for [map_fieldmap_estimation]. *)
Variable find_estimators : bool -> bool -> list FieldmapEstimation.
Variable get_estimator : string -> list string.
(** The text of lines 727-731 for the estimators kept. *)
Variable describe : list FieldmapEstimation -> string.

(** Lines 651-745 of [init_single_subject_wf]: the estimators kept
    ([None] when estimation is switched off) and the keys left in the
    registry [fm._estimators]. *)
Definition legacy_fieldmaps (bold_data : list path_or_list)
    (ignore_fieldmaps : bool) (use_syn : use_syn_t) (force_syn : bool)
    (registry : list string)
    : list log_record
      * outcome (option (list FieldmapEstimation) * list string) :=
  if negb (negb ignore_fieldmaps || syn_truthy use_syn || force_syn)
  then ([], Returned (None, registry))
  else
    let fmap_estimators :=
      find_estimators
        (syn_truthy use_syn || ignore_fieldmaps && force_syn)
        (force_syn || ignore_fieldmaps && syn_truthy use_syn) in
    let absent := syn_truthy use_syn && is_nil fmap_estimators in
    let log0 := if absent then [(ERROR, syn_absent_message)] else [] in
    if absent && syn_is_error use_syn
    then (log0, Raised (ValueError syn_absent_message))
    else
      let anat := ignore_fieldmaps && existsb is_anat fmap_estimators in
      let log1 := if anat then [(INFO, ignore_fieldmaps_message)] else [] in
      let fmap_estimators :=
        if anat then filter is_anat fmap_estimators else fmap_estimators in
      if negb (is_nil fmap_estimators) then
        match map_outcome (fun bold_file => first (listify bold_file)) bold_data with
        | Raised e => ((log0 ++ log1)%list, Raised e)
        | Returned bold_files =>
            let used_estimators := flat_map get_estimator bold_files in
            let fmap_estimators :=
              filter (fun fmap => str_in (bids_id fmap) used_estimators)
                     fmap_estimators in
            let final_ids := map bids_id fmap_estimators in
            let registry := filter (fun k => str_in k final_ids) registry in
            let log2 :=
              if negb (is_nil fmap_estimators)
              then [(INFO, describe fmap_estimators)] else [] in
            ((log0 ++ log1 ++ log2)%list,
             Returned (Some fmap_estimators, registry))
        end
      else ((log0 ++ log1)%list, Returned (Some fmap_estimators, registry)).

(** Line 745: [has_fieldmap = bool(fmap_estimators)]. *)
Definition has_fieldmap (fmap_estimators : option (list FieldmapEstimation))
    : bool :=
  match fmap_estimators with
  | Some (_ :: _) => true
  | _ => false
  end.
End LegacyFieldmaps.

(** Lines 353-354 and 390 of [init_single_subject_fit_wf]: the fieldmap
    identifier looked up for a BOLD entry, and whether the entry is
    connected to the fieldmap workflow. *)
Definition fieldmap_id_of (estimator_map : dict string) (bold_file : path_or_list)
    : outcome (option string) :=
  f <- first (listify bold_file) ;; Returned (dict_get f estimator_map).

Definition connects_fieldmap (estimator_map : dict string)
    (bold_file : path_or_list) : bool :=
  match fieldmap_id_of estimator_map bold_file with
  | Returned fieldmap_id => truthy_opt fieldmap_id
  | Raised _ => false
  end.

(** An estimator the set-up loop accepts. *)
Definition supported (estimator : FieldmapEstimation) : bool :=
  match method estimator with
  | PEPOLAR => pepolar_ok estimator
  | _ => true
  end.

Module Example.
Definition ap_pa_bold : FieldmapEstimation :=
  {| bids_id := "pepolar1";
     method := PEPOLAR;
     sources := [Base.Example.epi "sub-01/fmap/sub-01_dir-AP_epi.nii.gz";
                 Base.Example.epi "sub-01/fmap/sub-01_dir-PA_epi.nii.gz";
                 Base.Example.epi "sub-01/fmap/sub-01_dir-LR_epi.nii.gz"] |}.

Definition find_three (fmapless force_fmapless : bool)
    : list FieldmapEstimation :=
  [Base.Example.pepolar; Base.Example.phasediff; ap_pa_bold].

Definition nodes : list named_node :=
  [{| node_name := "anat_fit_wf.ds_template_wf.ds_t1w_preproc";
      out_path_base := Some "smriprep" |};
   {| node_name := "ds_report_summary"; out_path_base := Some "fmriprep" |};
   {| node_name := "anat_fit_wf.ds_template_wf.outputnode";
      out_path_base := None |}].

Definition describe (fmap_estimators : list FieldmapEstimation) : string :=
  "B0 field inhomogeneity map will be estimated.".
End Example.

End Subject.

(* ================================================================== *)
(** * Checks on workflow graphs *)
(* ================================================================== *)

Module GraphChecks.

Definition source_of (e : edge) : string := let '(s, _, _, _) := e in s.
Definition target_of (e : edge) : string := let '(_, _, d, _) := e in d.
Definition target_port (e : edge) : string * string :=
  let '(_, _, d, q) := e in (d, q).

Definition same_port (a b : string * string) : bool :=
  (fst a =? fst b) && (snd a =? snd b).

(** No two of the ports are the same. *)
Fixpoint distinct_ports (ps : list (string * string)) : bool :=
  match ps with
  | [] => true
  | p :: rest => negb (existsb (same_port p) rest) && distinct_ports rest
  end.

(** Every input port is fed by one edge at most, which is what
    [Workflow.connect] insists on. *)
Definition single_source (w : workflow) : bool :=
  distinct_ports (map target_port (graph_edges w)).

(** Every edge joins two nodes of the graph. *)
Definition edges_closed (w : workflow) : bool :=
  forallb (fun e => in_graph w (source_of e) && in_graph w (target_of e))
          (graph_edges w).

(** [n] has a predecessor among [remaining]. *)
Definition waits (edges : list edge) (remaining : list string) (n : string)
    : bool :=
  existsb (fun e => (target_of e =? n) && str_in (source_of e) remaining) edges.

(** The nodes in layers: first those no edge enters, then those entered
    only from them, and so on. *)
Fixpoint layers (fuel : nat) (edges : list edge) (remaining : list string)
    : list string :=
  match fuel with
  | 0 => []
  | S fuel' =>
      match filter (fun n => negb (waits edges remaining n)) remaining with
      | [] => []
      | ready =>
          (ready ++ layers fuel' edges
                      (filter (fun n => negb (str_in n ready)) remaining))%list
      end
  end.

Definition execution_order (w : workflow) : list string :=
  layers (List.length (graph_nodes w)) (graph_edges w) (graph_nodes w).

Fixpoint index_of (n : string) (order : list string) : option nat :=
  match order with
  | [] => None
  | m :: rest =>
      if m =? n then Some 0
      else match index_of n rest with Some i => Some (S i) | None => None end
  end.

(** The place of a node in an order; nodes outside it come last. *)
Definition rank (order : list string) (n : string) : nat :=
  match index_of n order with
  | Some i => i
  | None => List.length order
  end.

(** The edge goes from a node of the order to a later one. *)
Definition forward (order : list string) (e : edge) : bool :=
  match index_of (source_of e) order, index_of (target_of e) order with
  | Some i, Some j => (i <? j)%nat
  | _, _ => false
  end.

Definition is_topological (w : workflow) (order : list string) : bool :=
  forallb (forward order) (graph_edges w).

(** [b] can be reached from [a] along one or more edges. *)
Inductive reaches (w : workflow) : string -> string -> Prop :=
| reaches_edge e :
    In e (graph_edges w) -> reaches w (source_of e) (target_of e)
| reaches_trans a b c :
    reaches w a b -> reaches w b c -> reaches w a c.

End GraphChecks.

Import Base Fit.

(* ================================================================== *)
(** * Facts about the Python prelude *)
(* ================================================================== *)

Lemma append_assoc (a b c : string) : (a ++ b) ++ c = a ++ b ++ c.
Proof. induction a as [|ch a IH]; simpl; [reflexivity | now rewrite IH]. Qed.

Lemma mentions_self (s : string) : mentions s s.
Proof.
  exists EmptyString, EmptyString. simpl.
  induction s as [|ch s IH]; simpl; [reflexivity | now rewrite <- IH].
Qed.

Lemma mentions_prefix (a msg s : string) : mentions msg s -> mentions (a ++ msg) s.
Proof.
  intros (pre & post & ->). exists (a ++ pre), post. now rewrite append_assoc.
Qed.

Lemma mentions_suffix (msg b s : string) : mentions msg s -> mentions (msg ++ b) s.
Proof.
  intros (pre & post & ->). exists pre, (post ++ b). now rewrite !append_assoc.
Qed.

Lemma mentions_concat (sep x : string) (l : list string) :
  In x l -> mentions (String.concat sep l) x.
Proof.
  induction l as [|y l IH]; intros Hin; [destruct Hin|].
  destruct l as [|z l].
  - destruct Hin as [->|[]]. apply mentions_self.
  - change (String.concat sep (y :: z :: l))
      with (y ++ sep ++ String.concat sep (z :: l)).
    destruct Hin as [->|Hin].
    + apply mentions_suffix, mentions_self.
    + now apply mentions_prefix, mentions_prefix, IH.
Qed.

Lemma str_in_In (x : string) (l : list string) : str_in x l = true <-> In x l.
Proof.
  unfold str_in. rewrite existsb_exists. split.
  - intros (y & Hy & E). apply String.eqb_eq in E. now subst.
  - intros H. exists x. split; [assumption | apply String.eqb_refl].
Qed.

Lemma str_in_nil_filter (l : list string) :
  filter (fun x => str_in x []) l = [].
Proof. induction l; simpl; auto. Qed.

Section DictFacts.
Context {V : Type}.
Implicit Types (d : dict V) (k : string) (v : V).

Lemma dict_get_In k v d : dict_get k d = Some v -> In (k, v) d.
Proof.
  induction d as [|[k' v'] d IH]; simpl; [discriminate|].
  destruct (String.eqb_spec k' k) as [->|Hne].
  - intros [= ->]. now left.
  - intros H. right. now apply IH.
Qed.

Lemma dict_get_not_in k d : ~ In k (keys d) -> dict_get k d = None.
Proof.
  induction d as [|[k' v'] d IH]; simpl; [reflexivity|].
  intros Hn. destruct (String.eqb_spec k' k) as [->|Hne].
  - exfalso. apply Hn. now left.
  - apply IH. intros Hin. apply Hn. now right.
Qed.

Lemma In_dict_get k v d : NoDup (keys d) -> In (k, v) d -> dict_get k d = Some v.
Proof.
  induction d as [|[k' v'] d IH]; simpl; intros Hnd Hin; [destruct Hin|].
  inversion Hnd as [|? ? Hnotin Hnd']; subst.
  destruct Hin as [[= -> ->]|Hin].
  - now rewrite String.eqb_refl.
  - destruct (String.eqb_spec k' k) as [->|Hne].
    + exfalso. apply Hnotin. change (In (fst (k, v)) (map fst d)). now apply in_map.
    + now apply IH.
Qed.

Lemma dict_mem_keys k d : dict_mem k d = true <-> In k (keys d).
Proof.
  unfold dict_mem. split.
  - destruct (dict_get k d) eqn:E; [|discriminate].
    intros _. apply dict_get_In in E. change k with (fst (k, v)). now apply in_map.
  - intros Hin. destruct (dict_get k d) eqn:E; [reflexivity|].
    exfalso. revert E. induction d as [|[k' v'] d IH]; simpl in *; [destruct Hin|].
    destruct (String.eqb_spec k' k) as [->|Hne]; [discriminate|].
    destruct Hin as [->|Hin]; [congruence | now apply IH].
Qed.

Lemma keys_dict_set k v d k' :
  In k' (keys (dict_set k v d)) <-> k' = k \/ In k' (keys d).
Proof.
  induction d as [|[k0 v0] d IH]; simpl.
  - intuition.
  - destruct (String.eqb_spec k0 k) as [->|Hne]; simpl.
    + intuition.
    + rewrite IH. intuition.
Qed.

Lemma NoDup_dict_set k v d : NoDup (keys d) -> NoDup (keys (dict_set k v d)).
Proof.
  induction d as [|[k0 v0] d IH]; simpl; intros Hnd.
  - constructor; [intros [] | constructor].
  - inversion Hnd as [|? ? Hnotin Hnd']; subst.
    destruct (String.eqb_spec k0 k) as [->|Hne]; simpl.
    + now constructor.
    + constructor; [|now apply IH].
      intros Hin. apply keys_dict_set in Hin. destruct Hin as [->|Hin]; auto.
Qed.

Lemma dict_get_set k v d k' :
  dict_get k' (dict_set k v d) = if k =? k' then Some v else dict_get k' d.
Proof.
  induction d as [|[k0 v0] d IH]; simpl.
  - reflexivity.
  - destruct (String.eqb_spec k0 k) as [->|Hne]; simpl.
    + now destruct (k =? k').
    + rewrite IH. destruct (String.eqb_spec k0 k') as [->|Hne'];
        destruct (String.eqb_spec k k'); congruence.
Qed.

Lemma filter_key_unique k v d :
  NoDup (keys d) -> In (k, v) d ->
  filter (fun kv => fst kv =? k) d = [(k, v)].
Proof.
  induction d as [|[k0 v0] d IH]; simpl; intros Hnd Hin; [destruct Hin|].
  inversion Hnd as [|? ? Hnotin Hnd']; subst.
  assert (Hnone : forall d', ~ In k (keys d') ->
                             filter (fun kv : string * V => fst kv =? k) d' = []).
  { induction d' as [|[k1 v1] d' IH']; simpl; intros Hn; [reflexivity|].
    destruct (String.eqb_spec k1 k) as [->|Hne].
    - exfalso. apply Hn. now left.
    - apply IH'. intros H. apply Hn. now right. }
  destruct Hin as [[= -> ->]|Hin].
  - rewrite String.eqb_refl. f_equal. now apply Hnone.
  - destruct (String.eqb_spec k0 k) as [->|Hne].
    + exfalso. apply Hnotin. change (In (fst (k, v)) (map fst d)). now apply in_map.
    + now apply IH.
Qed.

Section Comprehension.
Variable val : string -> V.

Let step := fun d (x : string) => dict_set x (val x) d.

Lemma comprehension_fold_get xs : forall d k,
  dict_get k (fold_left step xs d)
  = if str_in k xs then Some (val k) else dict_get k d.
Proof.
  induction xs as [|x xs IH]; intros d k; simpl; [reflexivity|].
  rewrite IH. unfold step. rewrite dict_get_set.
  rewrite (String.eqb_sym k x).
  destruct (String.eqb_spec x k) as [->|Hne]; simpl.
  - now destruct (str_in k xs).
  - reflexivity.
Qed.

Lemma comprehension_fold_NoDup xs : forall d,
  NoDup (keys d) -> NoDup (keys (fold_left step xs d)).
Proof.
  induction xs as [|x xs IH]; intros d Hnd; simpl; [assumption|].
  apply IH. now apply NoDup_dict_set.
Qed.

Lemma dict_comprehension_get xs k :
  dict_get k (dict_comprehension (fun x => x) val xs)
  = if str_in k xs then Some (val k) else None.
Proof. exact (comprehension_fold_get xs [] k). Qed.

Lemma dict_comprehension_NoDup xs :
  NoDup (keys (dict_comprehension (fun x => x) val xs)).
Proof. apply (comprehension_fold_NoDup xs []). constructor. Qed.
End Comprehension.
End DictFacts.

(* ================================================================== *)
(** * Estimator resolution ([map_fieldmap_estimation]) *)
(* ================================================================== *)

Lemma firstn_1_short {A} (l : list A) :
  (1 <? List.length l)%nat = false -> firstn 1 l = l.
Proof. destruct l as [|a [|b l]]; simpl; intros H; try reflexivity; discriminate. Qed.

Lemma keep_first_loop_items (items : dict (list string)) :
  snd (keep_first_loop items)
  = map (fun kv => (fst kv, firstn 1 (snd kv))) items.
Proof.
  induction items as [|[bold_file estimator_key] rest IH]; [reflexivity|].
  cbn [keep_first_loop]. destruct (keep_first_loop rest) as [log rest'].
  cbn [snd] in IH. subst rest'.
  destruct (1 <? List.length estimator_key)%nat eqn:E; cbn [snd map fst].
  - reflexivity.
  - now rewrite (firstn_1_short _ E).
Qed.

Lemma keep_first_loop_log (items : dict (list string)) :
  fst (keep_first_loop items) = map several (filter has_several items).
Proof.
  induction items as [|[bold_file estimator_key] rest IH]; [reflexivity|].
  cbn [keep_first_loop filter]. destruct (keep_first_loop rest) as [log rest'].
  cbn [fst] in IH. subst log. change (has_several (bold_file, estimator_key))
    with (1 <? List.length estimator_key)%nat.
  destruct (1 <? List.length estimator_key)%nat; reflexivity.
Qed.

Lemma one_to_one_keys (items : dict (list string)) (k : string) :
  In k (keys (one_to_one items)) -> In k (keys items).
Proof.
  induction items as [|[b [|x l]] items IH]; simpl; auto.
  intros [->|H]; auto.
Qed.

Lemma one_to_one_NoDup (items : dict (list string)) :
  NoDup (keys items) -> NoDup (keys (one_to_one items)).
Proof.
  induction items as [|[b [|x l]] items IH]; simpl; intros Hnd;
    inversion Hnd as [|? ? Hnotin Hnd']; subst; auto.
  constructor; auto. intros H. now apply Hnotin, one_to_one_keys.
Qed.

Lemma one_to_one_get (items : dict (list string)) (k : string) :
  NoDup (keys items) ->
  dict_get k (one_to_one items)
  = match dict_get k items with Some l => hd_error l | None => None end.
Proof.
  induction items as [|[b l] items IH]; simpl; intros Hnd; [reflexivity|].
  inversion Hnd as [|? ? Hnotin Hnd']; subst.
  destruct l as [|x l]; simpl.
  - destruct (String.eqb_spec b k) as [->|Hne]; [|now apply IH].
    apply dict_get_not_in. intros H. now apply Hnotin, one_to_one_keys.
  - destruct (String.eqb_spec b k); [reflexivity | now apply IH].
Qed.

Lemma one_to_one_firstn (items : dict (list string)) :
  one_to_one (map (fun kv => (fst kv, firstn 1 (snd kv))) items) = one_to_one items.
Proof.
  induction items as [|[b [|x l]] items IH]; cbn [map one_to_one fst snd firstn];
    [reflexivity | exact IH | now f_equal].
Qed.

Lemma filter_has_several_keys (items : dict (list string)) :
  NoDup (keys items) -> NoDup (keys (filter has_several items)).
Proof.
  induction items as [|kv items IH]; simpl; intros Hnd; [constructor|].
  inversion Hnd as [|? ? Hnotin Hnd']; subst.
  destruct (has_several kv); [|now apply IH].
  simpl. constructor; [|now apply IH].
  intros H. apply Hnotin. unfold keys in *. apply in_map_iff in H.
  destruct H as (y & <- & Hy). apply filter_In in Hy. now apply in_map.
Qed.

Lemma filter_is_warning_several (items : dict (list string)) :
  filter is_warning (map several items) = map several items.
Proof. induction items as [|kv items IH]; simpl; [reflexivity | now rewrite IH]. Qed.

Lemma syn_is_error_truthy (u : use_syn_t) :
  syn_is_error u = true -> syn_truthy u = true.
Proof.
  destruct u as [b|s]; simpl; [discriminate|].
  intros H. apply String.eqb_eq in H. now subst.
Qed.

Lemma syn_is_error_eq (u : use_syn_t) :
  syn_is_error u = true <-> u = SynStr "error".
Proof.
  destruct u as [b|s]; simpl; split; try discriminate.
  - intros H. apply String.eqb_eq in H. now subst.
  - now intros [= ->].
Qed.

Lemma values_In {V} (v : V) (d : dict V) :
  In v (values d) <-> exists k, In (k, v) d.
Proof.
  unfold values. rewrite in_map_iff. split.
  - intros ([k v'] & E & Hin). simpl in E. subst. now exists k.
  - intros (k & Hin). now exists (k, v).
Qed.

Lemma dict_get_map_values {V W} (f : V -> W) (k : string) (d : dict V) :
  dict_get k (map (fun kv => (fst kv, f (snd kv))) d)
  = option_map f (dict_get k d).
Proof.
  induction d as [|[k' v] d IH]; simpl; [reflexivity|].
  now destruct (k' =? k).
Qed.

Lemma series_raises_index_error (bold_data : list path_or_list) (e : exception) :
  series bold_data = Raised e -> e = IndexError.
Proof.
  unfold series. induction bold_data as [|x xs IH]; simpl; [discriminate|].
  destruct (listify x) as [|f fs]; simpl; [now intros [= <-]|].
  destruct (map_outcome _ xs); simpl; [discriminate|].
  intros [= <-]. now apply IH.
Qed.

Section ResolveFacts.
Variable find_estimators : bool -> bool -> list FieldmapEstimation.
Variable get_estimator : string -> list string.
Variable bold_data : list path_or_list.
Variable ignore_fieldmaps : bool.
Variable use_syn : use_syn_t.
Variable force_syn : bool.

Local Abbreviation resolve :=
  (map_fieldmap_estimation find_estimators get_estimator bold_data
     ignore_fieldmaps use_syn force_syn).
Local Abbreviation found :=
  (discovered find_estimators ignore_fieldmaps use_syn force_syn).
Local Abbreviation kept := (restrict_to_anat ignore_fieldmaps found).
Local Abbreviation ids :=
  (known_ids find_estimators ignore_fieldmaps use_syn force_syn).
Local Abbreviation cands :=
  (candidates find_estimators get_estimator ignore_fieldmaps use_syn force_syn).
Local Abbreviation the_series := (series bold_data).
Local Abbreviation table bold_files :=
  (all_estimators_of get_estimator ids bold_files).
Local Abbreviation info_log :=
  (if anat_only_applies ignore_fieldmaps found
   then [(INFO, ignore_fieldmaps_message)] else []).

Lemma restrict_to_anat_nil_aux (fs : list FieldmapEstimation) :
  fs = [] -> map bids_id (restrict_to_anat ignore_fieldmaps fs) = [].
Proof.
  intros ->. unfold restrict_to_anat, anat_only_applies.
  now destruct ignore_fieldmaps.
Qed.

Lemma restrict_to_anat_nonempty (fs : list FieldmapEstimation) :
  fs <> [] -> restrict_to_anat ignore_fieldmaps fs <> [].
Proof.
  unfold restrict_to_anat, anat_only_applies. intros Hne.
  destruct (ignore_fieldmaps && existsb is_anat fs) eqn:E; [|assumption].
  apply andb_true_iff in E. destruct E as [_ E].
  apply existsb_exists in E. destruct E as (x & Hin & Hx).
  intros Hnil.
  assert (H : In x (filter is_anat fs)) by (apply filter_In; auto).
  rewrite Hnil in H. destruct H.
Qed.

(** Nothing known: the short circuits of lines 901-902 and 920-929. *)
Lemma resolve_short :
  ids = [] ->
  snd resolve
  = (if syn_is_error use_syn
     then Raised (ValueError syn_absent_message)
     else Returned ([], []))
  /\ filter is_warning (fst resolve) = []
  /\ (negb (negb ignore_fieldmaps || syn_truthy use_syn || force_syn) = true
      \/ found = []).
Proof.
  unfold known_ids, map_fieldmap_estimation.
  destruct (negb (negb ignore_fieldmaps || syn_truthy use_syn || force_syn)) eqn:G.
  - intros _. destruct (syn_is_error use_syn) eqn:E; [|auto].
    apply syn_is_error_truthy in E. rewrite E in G.
    now destruct ignore_fieldmaps.
  - destruct found as [|f fs] eqn:Ef.
    + intros _. cbn [is_nil].
      destruct (syn_truthy use_syn) eqn:T.
      * destruct (syn_is_error use_syn); auto.
      * destruct (syn_is_error use_syn) eqn:E; [|auto].
        apply syn_is_error_truthy in E. congruence.
    + intros Hids. exfalso.
      apply (restrict_to_anat_nonempty (f :: fs)); [discriminate|].
      now destruct (restrict_to_anat ignore_fieldmaps (f :: fs)).
Qed.

(** Something known: lines 931-965. *)
Lemma resolve_main :
  ids <> [] ->
  resolve
  = match the_series with
    | Raised e => (info_log, Raised e)
    | Returned bold_files =>
        let estimator_map := one_to_one (table bold_files) in
        ((info_log ++ map several (filter has_several (table bold_files)))%list,
         Returned
           (filter (fun f => str_in (bids_id f) (values estimator_map)) kept,
            estimator_map))
    end.
Proof.
  unfold known_ids, map_fieldmap_estimation, series.
  destruct (negb (negb ignore_fieldmaps || syn_truthy use_syn || force_syn));
    [congruence|].
  destruct found as [|f fs] eqn:Ef.
  - rewrite restrict_to_anat_nil_aux; [congruence | reflexivity].
  - intros _. cbn [is_nil].
    destruct (map_outcome _ bold_data) as [bold_files|e]; [|reflexivity].
    pose proof (keep_first_loop_log
      (all_estimators_of get_estimator
         (map bids_id (restrict_to_anat ignore_fieldmaps (f :: fs))) bold_files)) as Hl.
    pose proof (keep_first_loop_items
      (all_estimators_of get_estimator
         (map bids_id (restrict_to_anat ignore_fieldmaps (f :: fs))) bold_files)) as Hi.
    destruct (keep_first_loop _) as [log2 all']. cbn [fst snd] in Hl, Hi.
    subst log2 all'. cbv zeta. now rewrite one_to_one_firstn.
Qed.
Lemma table_get (bold_files : list string) (S : string) :
  dict_get S (table bold_files)
  = if str_in S bold_files then Some (cands S) else None.
Proof.
  exact (dict_comprehension_get
           (fun bold_file =>
              filter (fun fmap_id => str_in fmap_id ids) (get_estimator bold_file))
           bold_files S).
Qed.

Lemma table_NoDup (bold_files : list string) : NoDup (keys (table bold_files)).
Proof.
  exact (dict_comprehension_NoDup
           (fun bold_file =>
              filter (fun fmap_id => str_in fmap_id ids) (get_estimator bold_file))
           bold_files).
Qed.

Lemma candidates_nothing_known (S : string) : ids = [] -> cands S = [].
Proof. unfold candidates. intros ->. apply str_in_nil_filter. Qed.

(** The returned map, read at any series. *)
Lemma assignment_lookup {log fmap_estimators estimator_map bold_files} :
  resolve = (log, Returned (fmap_estimators, estimator_map)) ->
  the_series = Returned bold_files ->
  forall S,
    dict_get S estimator_map
    = if str_in S bold_files then hd_error (cands S) else None.
Proof.
  intros Hres Hser S.
  destruct ids as [|i0 ids0] eqn:Eids.
  - destruct (resolve_short Eids) as (Hsnd & _ & _).
    rewrite Hres in Hsnd. cbn [snd] in Hsnd.
    destruct (syn_is_error use_syn); [discriminate|].
    injection Hsnd as _ ->.
    rewrite (candidates_nothing_known S Eids). now destruct (str_in S bold_files).
  - assert (Hne : ids <> []) by (rewrite Eids; discriminate).
    rewrite (resolve_main Hne), Hser in Hres. cbv zeta in Hres.
    injection Hres as _ _ <-.
    rewrite one_to_one_get by apply table_NoDup.
    rewrite table_get. now destruct (str_in S bold_files).
Qed.

Lemma assignment_NoDup {log fmap_estimators estimator_map} :
  resolve = (log, Returned (fmap_estimators, estimator_map)) ->
  NoDup (keys estimator_map).
Proof.
  intros Hres.
  destruct ids as [|i0 ids0] eqn:Eids.
  - destruct (resolve_short Eids) as (Hsnd & _ & _).
    rewrite Hres in Hsnd. cbn [snd] in Hsnd.
    destruct (syn_is_error use_syn); [discriminate|].
    injection Hsnd as _ ->. constructor.
  - assert (Hne : ids <> []) by (rewrite Eids; discriminate).
    rewrite (resolve_main Hne) in Hres.
    destruct the_series as [bold_files|e]; [|discriminate].
    cbv zeta in Hres. injection Hres as _ _ <-.
    apply one_to_one_NoDup, table_NoDup.
Qed.

(** What the pruning of line 963 keeps, and what the map can hold. *)
Lemma pruned_in_image {log fmap_estimators estimator_map} :
  resolve = (log, Returned (fmap_estimators, estimator_map)) ->
  forall f, In f fmap_estimators ->
    exists S, dict_get S estimator_map = Some (bids_id f).
Proof.
  intros Hres f Hin. pose proof (assignment_NoDup Hres) as Hnd.
  destruct ids as [|i0 ids0] eqn:Eids.
  - destruct (resolve_short Eids) as (Hsnd & _ & _).
    rewrite Hres in Hsnd. cbn [snd] in Hsnd.
    destruct (syn_is_error use_syn); [discriminate|].
    injection Hsnd as -> ->. destruct Hin.
  - assert (Hne : ids <> []) by (rewrite Eids; discriminate).
    rewrite (resolve_main Hne) in Hres.
    destruct the_series as [bold_files|e] eqn:Hser; [|discriminate].
    cbv zeta in Hres. injection Hres as _ Hests Hmap.
    rewrite <- Hests in Hin. apply filter_In in Hin.
    destruct Hin as [_ Hin]. rewrite Hmap in Hin.
    apply str_in_In, values_In in Hin. destruct Hin as (S & Hin).
    exists S. now apply In_dict_get.
Qed.

Lemma image_in_pruned {log fmap_estimators estimator_map} :
  resolve = (log, Returned (fmap_estimators, estimator_map)) ->
  forall S fmap_id, dict_get S estimator_map = Some fmap_id ->
    exists f, In f fmap_estimators /\ bids_id f = fmap_id.
Proof.
  intros Hres S fmap_id Hget.
  destruct ids as [|i0 ids0] eqn:Eids.
  - destruct (resolve_short Eids) as (Hsnd & _ & _).
    rewrite Hres in Hsnd. cbn [snd] in Hsnd.
    destruct (syn_is_error use_syn); [discriminate|].
    injection Hsnd as -> ->. discriminate.
  - assert (Hne : ids <> []) by (rewrite Eids; discriminate).
    pose proof Hres as Hres'.
    rewrite (resolve_main Hne) in Hres'.
    destruct the_series as [bold_files|e] eqn:Hser; [|discriminate].
    cbv zeta in Hres'. injection Hres' as _ Hests Hmap.
    assert (Hval : In fmap_id (values estimator_map)).
    { apply values_In. exists S. now apply dict_get_In. }
    rewrite (assignment_lookup Hres Hser) in Hget.
    destruct (str_in S bold_files); [|discriminate].
    assert (Hc : In fmap_id (cands S)).
    { destruct (cands S) as [|c cs]; [discriminate|].
      injection Hget as ->. now left. }
    unfold candidates in Hc. apply filter_In in Hc. destruct Hc as [_ Hc].
    apply str_in_In in Hc.
    assert (Hk : ids = map bids_id kept).
    { unfold known_ids in *.
      destruct (negb (negb ignore_fieldmaps || syn_truthy use_syn || force_syn));
        [congruence | reflexivity]. }
    rewrite Hk in Hc. apply in_map_iff in Hc. destruct Hc as (f & Hf & Hin).
    exists f. split; [|assumption].
    rewrite <- Hests. apply filter_In. split; [assumption|].
    rewrite Hmap, Hf. now apply str_in_In.
Qed.

(** C3. The estimators returned by [map_fieldmap_estimation] are exactly
    those some series is assigned: every returned estimator is the value
    of the returned map at some series, and every value of the map is the
    identifier of a returned estimator. *)
Theorem pruned_estimators_are_assignment_image log fmap_estimators estimator_map :
  resolve = (log, Returned (fmap_estimators, estimator_map)) ->
  (forall f, In f fmap_estimators ->
     exists S, dict_get S estimator_map = Some (bids_id f))
  /\ (forall S fmap_id, dict_get S estimator_map = Some fmap_id ->
        exists f, In f fmap_estimators /\ bids_id f = fmap_id).
Proof.
  intros Hres. split.
  - exact (pruned_in_image Hres).
  - exact (image_in_pruned Hres).
Qed.

(** C4 (amended). The returned map has as keys exactly the input series
    whose candidate intersection is not empty (the others are dropped,
    and read as [None]); it has one entry per key, so a series has at
    most one estimator; and every value is the identifier of a returned
    estimator. *)
Theorem assignment_domain_and_range log fmap_estimators estimator_map bold_files :
  resolve = (log, Returned (fmap_estimators, estimator_map)) ->
  the_series = Returned bold_files ->
  (forall S, dict_mem S estimator_map = true
             <-> In S bold_files /\ cands S <> [])
  /\ NoDup (keys estimator_map)
  /\ (forall S fmap_id, dict_get S estimator_map = Some fmap_id ->
        In fmap_id (map bids_id fmap_estimators)).
Proof.
  intros Hres Hser. split; [|split].
  - intros S. unfold dict_mem. rewrite (assignment_lookup Hres Hser).
    destruct (str_in S bold_files) eqn:E.
    + apply str_in_In in E. destruct (cands S) as [|c cs]; simpl.
      * split; [discriminate | intros [_ H]; congruence].
      * split; [intros _; split; [assumption | discriminate] | reflexivity].
    + split; [discriminate|]. intros [Hin _]. apply str_in_In in Hin. congruence.
  - exact (assignment_NoDup Hres).
  - intros S fmap_id Hget.
    destruct (image_in_pruned Hres S fmap_id Hget) as (f & Hin & <-). now apply in_map.
Qed.
Lemma found_nil_known_nil : found = [] -> ids = [].
Proof.
  intros H. unfold known_ids.
  destruct (negb (negb ignore_fieldmaps || syn_truthy use_syn || force_syn));
    [reflexivity|].
  now apply restrict_to_anat_nil_aux.
Qed.

Lemma several_message_mentions (estimator_key : list string) (bold_file x : string) :
  In x estimator_key -> mentions (several_message estimator_key bold_file) x.
Proof.
  intros Hin. unfold several_message.
  now apply mentions_prefix, mentions_suffix, mentions_concat.
Qed.

Lemma several_message_using (estimator_key : list string) (bold_file : string) :
  exists pre,
    several_message estimator_key bold_file
    = pre ++ ", using " ++ hd EmptyString estimator_key.
Proof.
  exists ("Several fieldmaps <" ++ String.concat ", " estimator_key ++ "> are "
          ++ "'IntendedFor' <" ++ bold_file ++ ">").
  unfold several_message. rewrite !append_assoc. reflexivity.
Qed.

(** C2. A series with more than one candidate is assigned the first one
    in declaration order; among the warnings logged, exactly one comes
    from this series, and its text names every candidate and ends with
    the chosen one; the candidate list of the series is cut down to its
    first element.  For candidates [E1; E2; ...] the map holds [E1]. *)
Theorem first_candidate_is_assigned (bold_files : list string) (S : string) :
  the_series = Returned bold_files ->
  In S bold_files ->
  1 < List.length (cands S) ->
  exists log fmap_estimators estimator_map,
    resolve = (log, Returned (fmap_estimators, estimator_map))
    /\ dict_get S estimator_map = hd_error (cands S)
    /\ (exists multi,
          filter is_warning log = map several multi
          /\ filter (fun kv => fst kv =? S) multi = [(S, cands S)])
    /\ (forall fmap_id, In fmap_id (cands S) ->
          mentions (several_message (cands S) S) fmap_id)
    /\ (exists pre, several_message (cands S) S
                    = pre ++ ", using " ++ hd EmptyString (cands S))
    /\ dict_get S (snd (keep_first_loop (table bold_files)))
       = Some (firstn 1 (cands S))
    /\ (forall E1 E2 rest, cands S = E1 :: E2 :: rest ->
          dict_get S estimator_map = Some E1).
Proof.
  intros Hser Hin Hlen.
  assert (Hne : ids <> []).
  { intros E. rewrite (candidates_nothing_known S E) in Hlen. simpl in Hlen. lia. }
  assert (HS : str_in S bold_files = true) by now apply str_in_In.
  assert (Hget : dict_get S (one_to_one (table bold_files)) = hd_error (cands S)).
  { rewrite one_to_one_get by apply table_NoDup. now rewrite table_get, HS. }
  pose proof (resolve_main Hne) as Hres. rewrite Hser in Hres. cbv zeta in Hres.
  eexists _, _, _. split; [exact Hres|].
  split; [exact Hget|].
  split; [|split; [|split; [|split]]].
  - exists (filter has_several (table bold_files)). split.
    + rewrite filter_app, filter_is_warning_several.
      now destruct (anat_only_applies ignore_fieldmaps found).
    + apply filter_key_unique.
      * apply filter_has_several_keys, table_NoDup.
      * apply filter_In. split.
        -- apply dict_get_In. now rewrite table_get, HS.
        -- unfold has_several. cbn [snd]. now apply Nat.ltb_lt.
  - intros fmap_id Hc. now apply several_message_mentions.
  - apply several_message_using.
  - rewrite keep_first_loop_items.
    rewrite (dict_get_map_values (firstn 1)), table_get, HS. reflexivity.
  - intros E1 E2 rest Hc. now rewrite Hget, Hc.
Qed.

(** C5. When discovery finds no estimator the function returns the empty
    pair, unless [use_syn] is ["error"], in which case it raises; a
    [ValueError] is raised only under that setting and with nothing
    discovered; and the per-estimator set-up of the caller has nothing to
    look at. *)
Theorem no_estimator_short_circuit :
  (found = [] ->
     snd resolve
     = (if syn_is_error use_syn
        then Raised (ValueError syn_absent_message)
        else Returned ([], []))
     /\ forall fmap_estimators estimator_map,
          snd resolve = Returned (fmap_estimators, estimator_map) ->
          setup_estimators fmap_estimators = Returned [])
  /\ (forall msg, snd resolve = Raised (ValueError msg) ->
        use_syn = SynStr "error" /\ found = []).
Proof.
  split.
  - intros Hnil. destruct (resolve_short (found_nil_known_nil Hnil)) as (Hsnd & _).
    split; [exact Hsnd|].
    intros fmap_estimators estimator_map Hret. rewrite Hret in Hsnd.
    destruct (syn_is_error use_syn); [discriminate|].
    now injection Hsnd as -> _.
  - intros msg Hraise.
    destruct ids as [|i0 ids0] eqn:Eids.
    + destruct (resolve_short Eids) as (Hsnd & _ & Hwhy).
      rewrite Hraise in Hsnd.
      destruct (syn_is_error use_syn) eqn:E; [|discriminate].
      split; [now apply syn_is_error_eq|].
      destruct Hwhy as [G|Hf]; [|exact Hf].
      apply syn_is_error_truthy in E. rewrite E in G.
      now destruct ignore_fieldmaps.
    + assert (Hne : ids <> []) by (rewrite Eids; discriminate).
      rewrite (resolve_main Hne) in Hraise.
      destruct the_series as [bold_files|e] eqn:Hser; [discriminate|].
      apply series_raises_index_error in Hser. subst e. discriminate.
Qed.
End ResolveFacts.

(** ** The example subject *)

Lemma pruned_estimators_are_assignment_image_witness :
  map_fieldmap_estimation Base.Example.find_estimators Base.Example.get_estimator
    Base.Example.bold_data false (SynBool false) false
  = ([several (Base.Example.run1, ["pepolar0"; "phasediff0"])],
     Returned ([Base.Example.pepolar], [(Base.Example.run1, "pepolar0")]))
  /\ (forall f, In f [Base.Example.pepolar] ->
        exists S, dict_get S [(Base.Example.run1, "pepolar0")] = Some (bids_id f)).
Proof.
  split; [reflexivity|].
  exact (proj1 (pruned_estimators_are_assignment_image
                  Base.Example.find_estimators Base.Example.get_estimator Base.Example.bold_data
                  false (SynBool false) false _ _ _ eq_refl)).
Defined.

Lemma assignment_domain_and_range_witness :
  series Base.Example.bold_data
  = Returned [Base.Example.run1; Base.Example.run2_echo1]
  /\ (forall S,
        dict_mem S [(Base.Example.run1, "pepolar0")] = true
        <-> In S [Base.Example.run1; Base.Example.run2_echo1]
            /\ candidates Base.Example.find_estimators Base.Example.get_estimator
                 false (SynBool false) false S <> [])
  /\ NoDup (keys [(Base.Example.run1, "pepolar0")]).
Proof.
  split; [reflexivity|].
  destruct (assignment_domain_and_range
              Base.Example.find_estimators Base.Example.get_estimator
              Base.Example.bold_data false (SynBool false) false
              [several (Base.Example.run1, ["pepolar0"; "phasediff0"])]
              [Base.Example.pepolar] [(Base.Example.run1, "pepolar0")]
              [Base.Example.run1; Base.Example.run2_echo1]
              eq_refl eq_refl) as (Hdom & Hnd & _).
  split; [exact Hdom | exact Hnd].
Defined.

(** C4, as stated, fails: the second run of the example has no candidate
    and is not a key of the returned map. *)
Lemma unassigned_series_is_no_key :
  ~ assignment_total_invariant Base.Example.find_estimators Base.Example.get_estimator
      Base.Example.bold_data false (SynBool false) false.
Proof.
  intros H.
  destruct (H [Base.Example.pepolar] [(Base.Example.run1, "pepolar0")]
              [Base.Example.run1; Base.Example.run2_echo1]
              [several (Base.Example.run1, ["pepolar0"; "phasediff0"])]
              eq_refl eq_refl) as (Htotal & _).
  specialize (Htotal Base.Example.run2_echo1 (or_intror (or_introl eq_refl))).
  vm_compute in Htotal. discriminate.
Qed.

Lemma first_candidate_is_assigned_witness :
  In Base.Example.run1 [Base.Example.run1; Base.Example.run2_echo1]
  /\ 1 < List.length ["pepolar0"; "phasediff0"]
  /\ exists log fmap_estimators estimator_map,
       map_fieldmap_estimation Base.Example.find_estimators Base.Example.get_estimator
         Base.Example.bold_data false (SynBool false) false
       = (log, Returned (fmap_estimators, estimator_map))
       /\ dict_get Base.Example.run1 estimator_map = Some "pepolar0".
Proof.
  split; [now left|]. split; [simpl; lia|].
  destruct (first_candidate_is_assigned
              Base.Example.find_estimators Base.Example.get_estimator Base.Example.bold_data
              false (SynBool false) false
              [Base.Example.run1; Base.Example.run2_echo1] Base.Example.run1
              eq_refl (or_introl eq_refl) (le_n 2))
    as (log & fmap_estimators & estimator_map & Hres & Hget & _).
  exists log, fmap_estimators, estimator_map. split; [exact Hres | exact Hget].
Defined.

Lemma no_estimator_short_circuit_witness :
  snd (map_fieldmap_estimation Base.Example.find_nothing Base.Example.get_estimator
         Base.Example.bold_data false (SynBool true) false)
  = Returned ([], [])
  /\ snd (map_fieldmap_estimation Base.Example.find_nothing Base.Example.get_estimator
            Base.Example.bold_data false (SynStr "error") false)
     = Raised (ValueError syn_absent_message).
Proof.
  split.
  - exact (proj1 (proj1 (no_estimator_short_circuit
                    Base.Example.find_nothing Base.Example.get_estimator Base.Example.bold_data
                    false (SynBool true) false) eq_refl)).
  - exact (proj1 (proj1 (no_estimator_short_circuit
                    Base.Example.find_nothing Base.Example.get_estimator Base.Example.bold_data
                    false (SynStr "error") false) eq_refl)).
Defined.

(* ================================================================== *)
(** * [sorted] *)
(* ================================================================== *)

Section SortedFacts.
Context {A : Type}.
Variable key : A -> option Q.

Local Abbreviation le := (key_le key).

Lemma insert_In (x y : A) (l : list A) :
  In y (insert key x l) <-> y = x \/ In y l.
Proof.
  induction l as [|z l IH]; simpl.
  - intuition.
  - destruct (le x z); simpl; [intuition|]. rewrite IH. intuition.
Qed.

Lemma isort_In (y : A) (l : list A) : In y (isort key l) <-> In y l.
Proof.
  induction l as [|x l IH]; simpl; [reflexivity|].
  rewrite insert_In, IH. intuition.
Qed.

Lemma insert_length (x : A) (l : list A) :
  List.length (insert key x l) = S (List.length l).
Proof.
  induction l as [|z l IH]; simpl; [reflexivity|].
  destruct (le x z); simpl; [reflexivity | now rewrite IH].
Qed.

Lemma isort_length (l : list A) : List.length (isort key l) = List.length l.
Proof.
  induction l as [|x l IH]; simpl; [reflexivity|].
  now rewrite insert_length, IH.
Qed.

Lemma sorted_defined (l : list A) :
  forallb (has_key key) l = true -> sorted key l = Returned (isort key l).
Proof.
  intros H. unfold sorted. destruct l as [|x [|y l]]; try reflexivity.
  now rewrite H.
Qed.

Lemma sorted_single (x : A) : sorted key [x] = Returned [x].
Proof. reflexivity. Qed.

Lemma sorted_In (l l' : list A) (y : A) :
  sorted key l = Returned l' -> (In y l' <-> In y l).
Proof.
  unfold sorted. destruct l as [|x [|z l]].
  - now intros [= <-].
  - now intros [= <-].
  - destruct (forallb _ _); [|discriminate]. intros [= <-].
    exact (isort_In y (x :: z :: l)).
Qed.

Lemma sorted_length (l l' : list A) :
  sorted key l = Returned l' -> List.length l' = List.length l.
Proof.
  unfold sorted. destruct l as [|x [|z l]].
  - now intros [= <-].
  - now intros [= <-].
  - destruct (forallb _ _); [|discriminate]. intros [= <-].
    exact (isort_length (x :: z :: l)).
Qed.

Lemma le_refl (x : A) : has_key key x = true -> le x x = true.
Proof.
  unfold has_key, key_le. destruct (key x) as [q|]; [|discriminate].
  intros _. apply Qle_bool_iff, Qle_refl.
Qed.

Lemma le_trans (x y z : A) : le x y = true -> le y z = true -> le x z = true.
Proof.
  unfold key_le.
  destruct (key x) as [a|], (key y) as [b|], (key z) as [c|]; try discriminate.
  rewrite !Qle_bool_iff. apply Qle_trans.
Qed.

Lemma le_total (x y : A) :
  has_key key x = true -> has_key key y = true ->
  le x y = false -> le y x = true.
Proof.
  unfold has_key, key_le.
  destruct (key x) as [a|], (key y) as [b|]; try discriminate.
  intros _ _ H. apply Qle_bool_iff, Qlt_le_weak, Qnot_le_lt.
  intros Hle. apply Qle_bool_iff in Hle. congruence.
Qed.

(** The first item of a sorted list has the least key. *)
Lemma isort_head_least (l : list A) :
  forallb (has_key key) l = true ->
  match isort key l with
  | [] => l = []
  | h :: _ => forall y, In y l -> le h y = true
  end.
Proof.
  induction l as [|x l IH]; [reflexivity|].
  cbn [forallb isort]. intros H. apply andb_true_iff in H. destruct H as [Hx Hl].
  specialize (IH Hl). destruct (isort key l) as [|h t] eqn:E.
  - subst l. cbn [insert]. intros y [<-|[]]. now apply le_refl.
  - cbn [insert]. destruct (le x h) eqn:Exh.
    + intros y [<-|Hy]; [now apply le_refl|].
      apply le_trans with h; [assumption | now apply IH].
    + intros y [<-|Hy]; [|now apply IH].
      apply le_total; [assumption| |assumption].
      assert (Hh : In h l) by (apply isort_In; rewrite E; now left).
      rewrite forallb_forall in Hl. now apply Hl.
Qed.

Lemma sorted_head_least (l : list A) (h : A) (t : list A) :
  sorted key l = Returned (h :: t) -> 2 <= List.length l ->
  forall y, In y l -> le h y = true.
Proof.
  unfold sorted. destruct l as [|x [|z l]]; simpl; try lia.
  destruct (has_key key x && (has_key key z && forallb (has_key key) l)) eqn:E;
    [|discriminate].
  intros Hs _. pose proof (isort_head_least (x :: z :: l) E) as H.
  injection Hs as Hs. cbn [isort] in H. rewrite Hs in H. exact H.
Qed.
End SortedFacts.

(* ================================================================== *)
(** * The native workflow ([init_bold_native_wf]) *)
(* ================================================================== *)

Lemma mentions_trans (a b c : string) : mentions a b -> mentions b c -> mentions a c.
Proof.
  intros (p1 & q1 & ->) (p2 & q2 & ->). exists (p1 ++ p2), (q2 ++ q1).
  now rewrite !append_assoc.
Qed.

Lemma combine_map {A B} (f : A -> B) (l : list A) :
  combine l (map f l) = map (fun x => (x, f x)) l.
Proof. induction l as [|x l IH]; simpl; [reflexivity | now rewrite IH]. Qed.

Lemma distinct_shapes_one (shapes : list (list nat)) :
  distinct_shapes shapes = 1
  <-> shapes <> [] /\ forall a b, In a shapes -> In b shapes -> a = b.
Proof.
  unfold distinct_shapes.
  pose proof (NoDup_nodup (list_eq_dec Nat.eq_dec) shapes) as Hnd.
  pose proof (nodup_In (list_eq_dec Nat.eq_dec) shapes) as Hin.
  destruct (nodup (list_eq_dec Nat.eq_dec) shapes) as [|x [|y r]]; simpl; split.
  - discriminate.
  - intros [Hne _]. destruct shapes as [|s0 ?]; [congruence|].
    exfalso. apply (Hin s0). now left.
  - intros _. split.
    + intros ->. apply (Hin x). now left.
    + intros a b Ha Hb. apply Hin in Ha, Hb. simpl in Ha, Hb. intuition congruence.
  - reflexivity.
  - discriminate.
  - intros [_ Hall]. exfalso.
    assert (x = y) by (apply Hall; apply Hin; simpl; auto).
    subst y. inversion Hnd as [|? ? Hnotin _]; subst. apply Hnotin. now left.
Qed.

Lemma diagnostic_mentions (img_shape : string -> list nat)
    (bold_files : list string) (echo : string) :
  In echo bold_files ->
  mentions (shape_mismatch_message bold_files (map img_shape bold_files))
           (basename echo).
Proof.
  intros Hin. unfold shape_mismatch_message, diagnostic.
  apply mentions_prefix, mentions_prefix. rewrite combine_map, map_map. cbn [fst snd].
  apply mentions_trans with (basename echo ++ ": " ++ repr_shape (img_shape echo)).
  - apply mentions_concat, in_map_iff. now exists echo.
  - apply mentions_suffix, mentions_self.
Qed.

Section NativeFacts.
Variable echo_time : string -> option Q.
Variable img_shape : string -> list nat.
Variable slice_timing : string -> bool.
Variable ignore : list string.

Local Abbreviation native :=
  (init_bold_native_wf echo_time img_shape slice_timing ignore).
Local Abbreviation graph_of :=
  (native_graph slice_timing ignore).

Lemma keys_defined (l : list string) :
  (forall x, In x l -> echo_time x <> None) ->
  forallb (has_key echo_time) l = true.
Proof.
  intros H. apply forallb_forall. intros x Hx. unfold has_key.
  specialize (H x Hx). now destruct (echo_time x).
Qed.

(** The function, once the series is sorted. *)
Lemma native_after_sort (bold_series bold_files : list string) fieldmap_id :
  sorted echo_time bold_series = Returned bold_files ->
  1 <= List.length bold_series ->
  native bold_series fieldmap_id
  = match check_echoes img_shape bold_files with
    | Returned _ =>
        Returned (graph_of bold_files (hd EmptyString bold_files) fieldmap_id)
    | Raised e => Raised e
    end.
Proof.
  intros Hs Hlen. unfold init_bold_native_wf. rewrite Hs. cbn [bind].
  apply sorted_length in Hs.
  destruct bold_files as [|b bs]; [simpl in Hs; lia|]. cbn [bind hd].
  now destruct (check_echoes img_shape (b :: bs)).
Qed.

Lemma shapes_agree_sorted (bold_series bold_files : list string) :
  sorted echo_time bold_series = Returned bold_files ->
  (distinct_shapes (map img_shape bold_files) = 1
   <-> bold_series <> []
       /\ forall a b, In a bold_series -> In b bold_series ->
                      img_shape a = img_shape b).
Proof.
  intros Hs. rewrite distinct_shapes_one.
  pose proof (sorted_length _ _ _ Hs) as Hlen.
  assert (Hin : forall y, In y bold_files <-> In y bold_series)
    by (intros y; exact (sorted_In _ _ _ y Hs)).
  split; intros [Hne Hall]; split.
  - intros ->. destruct bold_files; [now apply Hne | discriminate].
  - intros a b Ha Hb. apply Hall; apply in_map; now apply Hin.
  - intros E. apply map_eq_nil in E. subst bold_files.
    destruct bold_series; [now apply Hne | discriminate].
  - intros a b Ha Hb. apply in_map_iff in Ha, Hb.
    destruct Ha as (x & <- & Hx), Hb as (y & <- & Hy).
    apply Hall; now apply Hin.
Qed.

(** C6 (amended). For a series whose echoes all have an echo time:
    two or more echoes whose shapes differ fail with the shape error,
    whose text names every file of the series; exactly two echoes of the
    same shape fail with the insufficient-echoes error. *)
Theorem echo_errors (bold_series : list string) (fieldmap_id : option string) :
  (forall echo, In echo bold_series -> echo_time echo <> None) ->
  (2 <= List.length bold_series ->
   (exists a b, In a bold_series /\ In b bold_series
                /\ img_shape a <> img_shape b) ->
   let bold_files := isort echo_time bold_series in
   let message := shape_mismatch_message bold_files (map img_shape bold_files) in
   native bold_series fieldmap_id = Raised (RuntimeError message)
   /\ forall echo, In echo bold_series -> mentions message (basename echo))
  /\ (List.length bold_series = 2 ->
      (forall a b, In a bold_series -> In b bold_series ->
                   img_shape a = img_shape b) ->
      native bold_series fieldmap_id
      = Raised (RuntimeError insufficient_echoes_message)).
Proof.
  intros Hkeys.
  pose proof (sorted_defined echo_time bold_series (keys_defined _ Hkeys)) as Hs.
  pose proof (shapes_agree_sorted _ _ Hs) as Hshapes.
  pose proof (isort_length echo_time bold_series) as Hlen.
  split.
  - intros H2 (a & b & Ha & Hb & Hab). cbv zeta. split.
    + rewrite (native_after_sort _ _ fieldmap_id Hs) by lia.
      unfold check_echoes. rewrite Hlen.
      replace (1 <? List.length bold_series)%nat with true
        by (symmetry; apply Nat.ltb_lt; lia).
      destruct (distinct_shapes _ =? 1)%nat eqn:E; [|reflexivity].
      apply Nat.eqb_eq, Hshapes in E. destruct E as [_ E].
      exfalso. apply Hab. now apply E.
    + intros echo Hin. apply diagnostic_mentions. now apply isort_In.
  - intros H2 Hall.
    rewrite (native_after_sort _ _ fieldmap_id Hs) by lia.
    unfold check_echoes. rewrite Hlen, H2. cbn [Nat.ltb Nat.leb].
    assert (E : distinct_shapes (map img_shape (isort echo_time bold_series)) = 1).
    { apply Hshapes. split; [|assumption]. intros ->. discriminate. }
    rewrite E, length_map, Hlen, H2. reflexivity.
Qed.

Lemma native_graph_multi (bold_files : list string) (bold_file : string)
    (fieldmap_id : option string) :
  (1 <? List.length bold_files)%nat = true ->
  let g := graph_of bold_files bold_file fieldmap_id in
  graph_output g "motion_xfm" = Some (Unset "outputnode" "motion_xfm")
  /\ incoming g "outputnode" "motion_xfm" = None
  /\ static_input g "outputnode" "motion_xfm" = None
  /\ in_graph g "join_echos" = true.
Proof.
  intros H. cbv zeta. unfold native_graph. rewrite H.
  destruct (slice_timing bold_file && negb (str_in "slicetiming" ignore)),
           (truthy_opt fieldmap_id);
    repeat split; vm_compute; reflexivity.
Qed.

Lemma native_graph_single (bold_files : list string) (bold_file : string)
    (fieldmap_id : option string) :
  (1 <? List.length bold_files)%nat = false ->
  let g := graph_of bold_files bold_file fieldmap_id in
  graph_output g "motion_xfm" = Some (Unset "inputnode" "motion_xfm")
  /\ has_edge g ("inputnode", "motion_xfm", "outputnode", "motion_xfm") = true
  /\ in_graph g "join_echos" = false.
Proof.
  intros H. cbv zeta. unfold native_graph. rewrite H.
  destruct (slice_timing bold_file && negb (str_in "slicetiming" ignore)),
           (truthy_opt fieldmap_id);
    repeat split; vm_compute; reflexivity.
Qed.

(** C8. A multi-echo series (three or more echoes of one shape, each with
    an echo time) gets a workflow whose [motion_xfm] output is fed by no
    edge and set to no value; any workflow returned for more than one
    echo is so.  A single-echo series gets a workflow in which the
    [motion_xfm] input is forwarded to the [motion_xfm] output. *)
Theorem motion_xfm_forwarding (bold_series : list string)
    (fieldmap_id : option string) :
  (3 <= List.length bold_series ->
   (forall echo, In echo bold_series -> echo_time echo <> None) ->
   (forall a b, In a bold_series -> In b bold_series ->
                img_shape a = img_shape b) ->
   exists g, native bold_series fieldmap_id = Returned g)
  /\ (forall g, 1 < List.length bold_series ->
        native bold_series fieldmap_id = Returned g ->
        graph_output g "motion_xfm" = Some (Unset "outputnode" "motion_xfm")
        /\ incoming g "outputnode" "motion_xfm" = None
        /\ static_input g "outputnode" "motion_xfm" = None)
  /\ (List.length bold_series = 1 ->
      exists g, native bold_series fieldmap_id = Returned g
        /\ has_edge g ("inputnode", "motion_xfm", "outputnode", "motion_xfm") = true
        /\ graph_output g "motion_xfm" = Some (Unset "inputnode" "motion_xfm")).
Proof.
  split; [|split].
  - intros H3 Hkeys Hall.
    pose proof (sorted_defined echo_time bold_series (keys_defined _ Hkeys)) as Hs.
    rewrite (native_after_sort _ _ fieldmap_id Hs) by lia.
    unfold check_echoes. rewrite isort_length.
    replace (1 <? List.length bold_series)%nat with true
      by (symmetry; apply Nat.ltb_lt; lia).
    assert (E : distinct_shapes (map img_shape (isort echo_time bold_series)) = 1).
    { apply (shapes_agree_sorted _ _ Hs). split; [|assumption].
      intros ->. simpl in H3. lia. }
    rewrite E, length_map, isort_length. cbn [Nat.eqb negb].
    replace (List.length bold_series =? 2)%nat with false
      by (symmetry; apply Nat.eqb_neq; lia).
    eexists. reflexivity.
  - intros g Hlen Hret.
    destruct (sorted echo_time bold_series) as [bold_files|e] eqn:Hs;
      [|unfold init_bold_native_wf in Hret; rewrite Hs in Hret; discriminate].
    rewrite (native_after_sort _ _ fieldmap_id Hs) in Hret by lia.
    destruct (check_echoes img_shape bold_files); [|discriminate].
    injection Hret as <-.
    apply sorted_length in Hs.
    destruct (native_graph_multi bold_files (hd EmptyString bold_files) fieldmap_id)
      as (H1 & H2 & H3 & _); [apply Nat.ltb_lt; lia | auto].
  - intros Hlen.
    destruct bold_series as [|f [|f' l]]; try discriminate.
    rewrite (native_after_sort [f] [f] fieldmap_id eq_refl) by (simpl; lia).
    cbn [check_echoes List.length Nat.ltb Nat.leb hd].
    eexists. split; [reflexivity|].
    destruct (native_graph_single [f] f fieldmap_id eq_refl) as (H1 & H2 & _).
    auto.
Qed.
End NativeFacts.

(* ================================================================== *)
(** * The fit workflow ([init_bold_fit_wf]) *)
(* ================================================================== *)

(** Case analysis on the six tests that shape the fit graph. *)
Ltac fit_cases precomputed fieldmap_id :=
  unfold fit_graph, stage1, stage2, stage3, stage3_fieldmap, stage4;
  generalize (have_hmcref precomputed), (truthy (hmc_xforms precomputed)),
             (have_coregref precomputed), (truthy_opt fieldmap_id),
             (truthy (boldref2fmap_xform precomputed)),
             (truthy (boldref2anat_xform precomputed));
  intros [|] [|] [|] [|] [|] [|].

Ltac each_member H :=
  repeat match type of H with
         | _ \/ _ => destruct H as [<-|H]
         | False => destruct H
         end.

Ltac by_evaluation := vm_compute; reflexivity.

Section FitGraphFacts.
Variable bold_series : list string.
Variable bold_file : string.
Variable sbref_files : list string.
Variable precomputed : precomputed_t.
Variable fieldmap_id : option string.

Local Abbreviation g :=
  (fit_graph bold_series bold_file sbref_files precomputed fieldmap_id).

Lemma fit_graph_cached (X : slot) :
  cache_has precomputed X = true ->
  (forall n, In n (stage_group X) -> in_graph g n = false)
  /\ graph_output g (output_port X) = Some (Static (cache_get precomputed X)).
Proof.
  destruct X; cbn [cache_has stage_group output_port cache_get];
    fit_cases precomputed fieldmap_id; intros Hhas; try discriminate Hhas;
    (split; [intros n Hn; simpl in Hn; each_member Hn; by_evaluation
            | by_evaluation]).
Qed.

Lemma fit_graph_root :
  in_graph g "inputnode" = true
  /\ hd_error (graph_nodes g) = Some "inputnode"
  /\ in_graph g "summary" = true
  /\ has_edge g ("inputnode", "bold_file",
                 "func_fit_reports_wf", "inputnode.source_file") = true
  /\ has_edge g ("summary", "out_report",
                 "func_fit_reports_wf", "inputnode.summary_report") = true.
Proof.
  fit_cases precomputed fieldmap_id; repeat split; by_evaluation.
Qed.


Lemma fit_graph_select_ref :
  have_coregref precomputed = false ->
  exists hmc_ref,
    graph_output g "hmc_boldref" = Some hmc_ref
    /\ arrives_at g "enhance_boldref_wf" "inputnode.in_file"
       = Some (match sbref_files with
               | s :: _ => Static (PStr s)
               | [] => listify_first hmc_ref
               end).
Proof.
  intros Hc.
  exists (if have_hmcref precomputed
          then Static (subscript "hmc_boldref" precomputed)
          else Output "hmc_boldref_wf" "outputnode.boldref").
  revert Hc. destruct sbref_files as [|s rest];
    fit_cases precomputed fieldmap_id; intros Hc; try discriminate Hc;
    split; by_evaluation.
Qed.
End FitGraphFacts.

(** The reads of lines 223-232, in terms of what the dictionary holds. *)
Lemma membership_stored (k : string) (precomputed : precomputed_t) :
  dict_mem k (entries precomputed)
  = match dict_get k (entries precomputed) with Some _ => true | None => false end.
Proof. reflexivity. Qed.

Lemma transform_read (k : string) (precomputed : precomputed_t) :
  dict_get_none k (transforms precomputed)
  = match stored_transform precomputed k with Some v => v | None => PNone end.
Proof.
  unfold dict_get_none, transforms, stored_transform.
  now destruct (transforms_entry precomputed).
Qed.

Lemma transform_read_stored (k : string) (precomputed : precomputed_t) (v : pyval) :
  stored_transform precomputed k = Some v ->
  dict_get_none k (transforms precomputed) = v.
Proof. intros H. now rewrite transform_read, H. Qed.

Lemma transform_read_falsy (k : string) (precomputed : precomputed_t) :
  (forall v, stored_transform precomputed k = Some v -> truthy v = false) ->
  truthy (dict_get_none k (transforms precomputed)) = false.
Proof.
  intros H. rewrite transform_read.
  destruct (stored_transform precomputed k) as [v|]; [now apply H | reflexivity].
Qed.

(** A slot whose entry holds an artifact passes the test the code makes
    for it, and the code reads that artifact: for the two references any
    entry will do, for the two transforms one that is not empty. *)
Lemma cache_has_stored (precomputed : precomputed_t) (X : slot) (v : pyval) :
  slot_lookup precomputed X = Some v ->
  (X = transforms_hmc \/ X = transforms_boldref2anat -> truthy v = true) ->
  cache_has precomputed X = true /\ cache_get precomputed X = v.
Proof.
  destruct X; cbn [slot_lookup cache_has cache_get]; intros Hv Ht.
  - unfold have_hmcref, subscript, dict_mem, dict_get_none. now rewrite Hv.
  - unfold hmc_xforms. rewrite (transform_read_stored _ _ _ Hv). auto.
  - unfold have_coregref, subscript, dict_mem, dict_get_none. now rewrite Hv.
  - unfold boldref2anat_xform. rewrite (transform_read_stored _ _ _ Hv). auto.
Qed.

Section FitFacts.
Variable echo_time : string -> option Q.
Variable layout_get_sbref : list string -> list string.

Local Abbreviation fit := (init_bold_fit_wf echo_time layout_get_sbref).
Local Abbreviation sbrefs_of := (get_sbrefs echo_time layout_get_sbref).

(** What a returned workflow was built from. *)
Lemma fit_returned {bold_series precomputed fieldmap_id w} :
  fit bold_series precomputed fieldmap_id = Returned w ->
  exists bold_files bold_file sbref_files,
    sorted echo_time bold_series = Returned bold_files
    /\ sbrefs_of bold_files = Returned sbref_files
    /\ w = fit_graph bold_series bold_file sbref_files precomputed fieldmap_id.
Proof.
  unfold init_bold_fit_wf.
  destruct (sorted echo_time bold_series) as [bold_files|e] eqn:Hs;
    [|discriminate].
  cbn [bind].
  destruct (get_sbrefs echo_time layout_get_sbref bold_files)
    as [sbref_files|e] eqn:Hsb; [|discriminate].
  cbn [bind]. destruct bold_files as [|bold_file rest]; [discriminate|].
  cbn [first bind]. intros [= <-].
  exists (bold_file :: rest), bold_file, sbref_files. auto.
Qed.

(** A workflow is returned for every series that is not empty and can be
    sorted, when its single-band references can be sorted too. *)
Lemma fit_returns bold_series precomputed fieldmap_id :
  bold_series <> [] ->
  (forall f, In f bold_series -> echo_time f <> None) ->
  (forall f, In f (layout_get_sbref (isort echo_time bold_series)) ->
             echo_time f <> None) ->
  exists w, fit bold_series precomputed fieldmap_id = Returned w.
Proof.
  intros Hne Hkeys Hsb. unfold init_bold_fit_wf, get_sbrefs.
  rewrite (sorted_defined echo_time bold_series)
    by (apply forallb_forall; intros x Hx; unfold has_key;
        specialize (Hkeys x Hx); now destruct (echo_time x)).
  cbn [bind].
  rewrite (sorted_defined echo_time (layout_get_sbref (isort echo_time bold_series)))
    by (apply forallb_forall; intros x Hx; unfold has_key;
        specialize (Hsb x Hx); now destruct (echo_time x)).
  cbn [bind].
  destruct (isort echo_time bold_series) as [|b bs] eqn:E.
  - exfalso. apply Hne. apply length_zero_iff_nil.
    rewrite <- (isort_length echo_time), E. reflexivity.
  - cbn [first bind]. eexists. reflexivity.
Qed.

(** C1. In a returned fit workflow, a slot for which the derivatives
    dictionary holds an artifact [v] (any entry for the two references, an
    entry that is not empty for the two transforms) has none of its
    producing stages in the graph, and the output port of the slot
    resolves to [v] itself. *)
Theorem cached_slot_is_reused bold_series precomputed fieldmap_id w
    (X : slot) (v : pyval) :
  fit bold_series precomputed fieldmap_id = Returned w ->
  slot_lookup precomputed X = Some v ->
  (X = transforms_hmc \/ X = transforms_boldref2anat -> truthy v = true) ->
  (forall n, In n (stage_group X) -> in_graph w n = false)
  /\ graph_output w (output_port X) = Some (Static v).
Proof.
  intros Hret Hv Ht.
  destruct (fit_returned Hret) as (bold_files & bold_file & sbref_files & _ & _ & ->).
  destruct (cache_has_stored precomputed X v Hv Ht) as [Hhas Hget].
  destruct (fit_graph_cached bold_series bold_file sbref_files precomputed
              fieldmap_id X Hhas) as [Habsent Hport].
  split; [exact Habsent|]. rewrite <- Hget. exact Hport.
Qed.


(** C9. Every returned fit workflow has [inputnode] in its graph, as the
    first node added, and the summary node and the edges from both to the
    reports; this holds in particular when all four slots are supplied
    and none of the producing stages is in the graph. *)
Theorem inputnode_is_always_in_graph bold_series precomputed fieldmap_id w :
  fit bold_series precomputed fieldmap_id = Returned w ->
  in_graph w "inputnode" = true
  /\ hd_error (graph_nodes w) = Some "inputnode"
  /\ in_graph w "summary" = true
  /\ has_edge w ("inputnode", "bold_file",
                 "func_fit_reports_wf", "inputnode.source_file") = true
  /\ has_edge w ("summary", "out_report",
                 "func_fit_reports_wf", "inputnode.summary_report") = true
  /\ ((forall X, cache_has precomputed X = true) ->
      forall X n, In n (stage_group X) -> in_graph w n = false).
Proof.
  intros Hret.
  destruct (fit_returned Hret) as (bold_files & bold_file & sbref_files & _ & _ & ->).
  destruct (fit_graph_root bold_series bold_file sbref_files precomputed fieldmap_id)
    as (H1 & H2 & H3 & H4 & H5).
  repeat (split; [assumption|]).
  intros Hall X n Hn.
  now apply (fit_graph_cached bold_series bold_file sbref_files precomputed
               fieldmap_id X (Hall X)).
Qed.

(** C10. When the coregistration reference is built, contrast
    enhancement receives the first single-band reference in the order of
    [get_sbrefs], a file of least echo time, whenever there is one, and
    whatever the HMC reference is; it receives the first HMC reference
    only when there is no single-band reference. *)
Theorem sbref_is_preferred bold_series precomputed fieldmap_id w :
  fit bold_series precomputed fieldmap_id = Returned w ->
  have_coregref precomputed = false ->
  exists bold_files sbref_files hmc_ref,
    sorted echo_time bold_series = Returned bold_files
    /\ sbrefs_of bold_files = Returned sbref_files
    /\ graph_output w "hmc_boldref" = Some hmc_ref
    /\ match sbref_files with
       | s :: _ =>
           arrives_at w "enhance_boldref_wf" "inputnode.in_file"
           = Some (Static (PStr s))
           /\ In s (layout_get_sbref bold_files)
           /\ (2 <= List.length (layout_get_sbref bold_files) ->
               forall f, In f (layout_get_sbref bold_files) ->
                         key_le echo_time s f = true)
       | [] =>
           arrives_at w "enhance_boldref_wf" "inputnode.in_file"
           = Some (listify_first hmc_ref)
           /\ layout_get_sbref bold_files = []
       end.
Proof.
  intros Hret Hc.
  destruct (fit_returned Hret)
    as (bold_files & bold_file & sbref_files & Hs & Hsb & ->).
  destruct (fit_graph_select_ref bold_series bold_file sbref_files precomputed
              fieldmap_id Hc) as (hmc_ref & Hh & Ha).
  exists bold_files, sbref_files, hmc_ref.
  repeat (split; [assumption|]).
  unfold get_sbrefs in Hsb.
  destruct sbref_files as [|s rest].
  - split; [assumption|]. apply length_zero_iff_nil.
    now rewrite <- (sorted_length _ _ _ Hsb).
  - split; [assumption|]. split.
    + apply (sorted_In _ _ _ s Hsb). now left.
    + intros H2 f Hf. now apply (sorted_head_least _ _ _ _ Hsb).
Qed.
End FitFacts.

(** ** The example series *)

Lemma cached_slot_is_reused_witness :
  let w := fit_graph [Fit.Example.echo1] Fit.Example.echo1
             [Fit.Example.sbref1; Fit.Example.sbref2]
             Fit.Example.all_cached None in
  init_bold_fit_wf Fit.Example.echo_time Fit.Example.layout_get_sbref
    [Fit.Example.echo1] Fit.Example.all_cached None = Returned w
  /\ graph_output w "hmc_boldref"
     = Some (Static (PStr "sub-01_desc-hmc_boldref.nii.gz"))
  /\ graph_output w "motion_xfm"
     = Some (Static (PStr "sub-01_from-orig_to-boldref_xfm.txt"))
  /\ graph_output w "coreg_boldref"
     = Some (Static (PStr "sub-01_desc-coreg_boldref.nii.gz"))
  /\ graph_output w "boldref2anat_xfm"
     = Some (Static (PStr "sub-01_from-boldref_to-T1w_xfm.txt"))
  /\ (forall n, In n ["hmc_boldref_wf"; "ds_hmc_boldref_wf"; "bold_hmc_wf";
                      "ds_hmc_wf"; "enhance_boldref_wf"; "ds_coreg_boldref_wf";
                      "bold_reg_wf"; "ds_boldreg_wf"] ->
        in_graph w n = false).
Proof.
  intros w.
  assert (Hret : init_bold_fit_wf Fit.Example.echo_time Fit.Example.layout_get_sbref
                   [Fit.Example.echo1] Fit.Example.all_cached None = Returned w)
    by reflexivity.
  pose proof (fun X v => cached_slot_is_reused
                Fit.Example.echo_time Fit.Example.layout_get_sbref
                [Fit.Example.echo1] Fit.Example.all_cached None w X v Hret)
    as Hslot.
  destruct (Hslot hmc_boldref _ eq_refl (fun _ => eq_refl)) as [A1 P1].
  destruct (Hslot transforms_hmc _ eq_refl (fun _ => eq_refl)) as [A2 P2].
  destruct (Hslot coreg_boldref _ eq_refl (fun _ => eq_refl)) as [A3 P3].
  destruct (Hslot transforms_boldref2anat _ eq_refl (fun _ => eq_refl)) as [A4 P4].
  split; [exact Hret|]. split; [exact P1|]. split; [exact P2|].
  split; [exact P3|]. split; [exact P4|].
  intros n Hn.
  destruct Hn as [<-|[<-|Hn]]; [apply A1; simpl; tauto | apply A1; simpl; tauto |].
  destruct Hn as [<-|[<-|Hn]]; [apply A2; simpl; tauto | apply A2; simpl; tauto |].
  destruct Hn as [<-|[<-|Hn]]; [apply A3; simpl; tauto | apply A3; simpl; tauto |].
  destruct Hn as [<-|[<-|[]]]; apply A4; simpl; tauto.
Defined.


Lemma inputnode_is_always_in_graph_witness :
  let w := fit_graph [Fit.Example.echo1] Fit.Example.echo1
             [Fit.Example.sbref1; Fit.Example.sbref2]
             Fit.Example.all_cached None in
  init_bold_fit_wf Fit.Example.echo_time Fit.Example.layout_get_sbref
    [Fit.Example.echo1] Fit.Example.all_cached None = Returned w
  /\ in_graph w "inputnode" = true
  /\ graph_nodes w
     = ["inputnode"; "hmcref_buffer"; "outputnode"; "regref_buffer";
        "fmapreg_buffer"; "hmc_buffer"; "func_fit_reports_wf"; "summary";
        "validate_bold"].
Proof.
  intros w.
  assert (Hret : init_bold_fit_wf Fit.Example.echo_time Fit.Example.layout_get_sbref
                   [Fit.Example.echo1] Fit.Example.all_cached None = Returned w)
    by reflexivity.
  split; [exact Hret|]. split; [|reflexivity].
  exact (proj1 (inputnode_is_always_in_graph
                  Fit.Example.echo_time Fit.Example.layout_get_sbref
                  [Fit.Example.echo1] Fit.Example.all_cached None w Hret)).
Defined.

Lemma sbref_is_preferred_witness :
  let w := fit_graph [Fit.Example.echo1] Fit.Example.echo1
             [Fit.Example.sbref1; Fit.Example.sbref2]
             Fit.Example.nothing_cached None in
  init_bold_fit_wf Fit.Example.echo_time Fit.Example.layout_get_sbref
    [Fit.Example.echo1] Fit.Example.nothing_cached None = Returned w
  /\ have_coregref Fit.Example.nothing_cached = false
  /\ arrives_at w "enhance_boldref_wf" "inputnode.in_file"
     = Some (Static (PStr Fit.Example.sbref1)).
Proof.
  intros w.
  assert (Hret : init_bold_fit_wf Fit.Example.echo_time Fit.Example.layout_get_sbref
                   [Fit.Example.echo1] Fit.Example.nothing_cached None = Returned w)
    by reflexivity.
  split; [exact Hret|]. split; [reflexivity|].
  destruct (sbref_is_preferred Fit.Example.echo_time Fit.Example.layout_get_sbref
              [Fit.Example.echo1] Fit.Example.nothing_cached None w Hret eq_refl)
    as (bold_files & sbref_files & hmc_ref & Hs & Hsb & _ & Hcase).
  injection Hs as <-. injection Hsb as <-.
  exact (proj1 Hcase).
Defined.

Lemma echo_times_recorded (l : list string) :
  forallb (has_key Fit.Example.echo_time) l = true ->
  forall echo, In echo l -> Fit.Example.echo_time echo <> None.
Proof.
  intros H echo Hin. rewrite forallb_forall in H. specialize (H echo Hin).
  unfold has_key in H. now destruct (Fit.Example.echo_time echo).
Defined.

Lemma echo_errors_witness :
  init_bold_native_wf Fit.Example.echo_time Fit.Example.img_shape
    Fit.Example.slice_timing Fit.Example.ignore
    [Fit.Example.echo2; Fit.Example.echo1] None
  = Raised (RuntimeError insufficient_echoes_message).
Proof.
  apply (proj2 (echo_errors Fit.Example.echo_time Fit.Example.img_shape
                  Fit.Example.slice_timing Fit.Example.ignore
                  [Fit.Example.echo2; Fit.Example.echo1] None
                  (echo_times_recorded
                     [Fit.Example.echo2; Fit.Example.echo1] eq_refl))).
  - reflexivity.
  - intros a b [<-|[<-|[]]] [<-|[<-|[]]]; reflexivity.
Defined.

(** C6, as stated, fails: two echoes whose images differ in shape raise
    the shape error, not the insufficient-echoes error. *)
Lemma two_mismatching_echoes_raise_shape_error :
  ~ echo_errors_as_specified Fit.Example.echo_time Fit.Example.img_shape
      Fit.Example.slice_timing Fit.Example.ignore.
Proof.
  intros H.
  destruct (H [Fit.Example.short1; Fit.Example.short2] None) as [H2 _].
  specialize (H2 eq_refl). vm_compute in H2. discriminate H2.
Qed.

Lemma motion_xfm_forwarding_witness :
  (exists w, init_bold_native_wf Fit.Example.echo_time Fit.Example.img_shape
               Fit.Example.slice_timing Fit.Example.ignore
               [Fit.Example.echo3; Fit.Example.echo1; Fit.Example.echo2] None
             = Returned w)
  /\ (exists w, init_bold_native_wf Fit.Example.echo_time Fit.Example.img_shape
                  Fit.Example.slice_timing Fit.Example.ignore
                  [Fit.Example.echo1] None = Returned w
        /\ has_edge w ("inputnode", "motion_xfm", "outputnode", "motion_xfm") = true
        /\ graph_output w "motion_xfm" = Some (Unset "inputnode" "motion_xfm")).
Proof.
  split.
  - apply (proj1 (motion_xfm_forwarding Fit.Example.echo_time Fit.Example.img_shape
                    Fit.Example.slice_timing Fit.Example.ignore
                    [Fit.Example.echo3; Fit.Example.echo1; Fit.Example.echo2] None)).
    + simpl. lia.
    + exact (echo_times_recorded
               [Fit.Example.echo3; Fit.Example.echo1; Fit.Example.echo2] eq_refl).
    + intros a b [<-|[<-|[<-|[]]]] [<-|[<-|[<-|[]]]]; reflexivity.
  - exact (proj2 (proj2 (motion_xfm_forwarding
                    Fit.Example.echo_time Fit.Example.img_shape
                    Fit.Example.slice_timing Fit.Example.ignore
                    [Fit.Example.echo1] None)) eq_refl).
Defined.


(* ================================================================== *)
(** * Further properties: [_prefix] and [clean_datasinks] *)
(* ================================================================== *)

Import Subject GraphChecks.

Lemma prefix_empty (s : string) : String.prefix EmptyString s = true.
Proof. now destruct s. Qed.

(** X1. [_prefix] returns a label that starts with [sub-], adds the prefix
    to a bare label only, and applied twice gives what it gives once. *)
Theorem prefix_adds_sub_once (subid : string) :
  String.prefix "sub-" (_prefix subid) = true
  /\ (String.prefix "sub-" subid = true -> _prefix subid = subid)
  /\ (String.prefix "sub-" subid = false -> _prefix subid = "sub-" ++ subid)
  /\ _prefix (_prefix subid) = _prefix subid.
Proof.
  assert (Hadd : String.prefix "sub-" ("sub-" ++ subid) = true)
    by (cbn; apply prefix_empty).
  unfold _prefix. destruct (String.prefix "sub-" subid) eqn:E.
  - rewrite E. repeat split; auto; discriminate.
  - rewrite Hadd. repeat split; auto; discriminate.
Qed.

Lemma split_dots_not_nil (name cur : string) : split_dots name cur <> [].
Proof.
  revert cur. induction name as [|c rest IH]; intros cur; simpl; [discriminate|].
  destruct (Ascii.eqb c "."%char); [discriminate | apply IH].
Qed.

Lemma no_dot_head (c : ascii) (rest : string) :
  ~ mentions (String c rest) "." -> c <> "."%char /\ ~ mentions rest ".".
Proof.
  intros H. split.
  - intros ->. apply H. exists EmptyString, rest. reflexivity.
  - intros (pre & post & ->). apply H. exists (String c pre), post. reflexivity.
Qed.

Lemma split_dots_no_dot (name cur : string) :
  ~ mentions name "." -> split_dots name cur = [cur ++ name].
Proof.
  revert cur. induction name as [|c rest IH]; intros cur H; simpl.
  - f_equal. clear. induction cur as [|a cur IH]; simpl; [reflexivity | now rewrite <- IH].
  - apply no_dot_head in H. destruct H as [Hc Hrest].
    destruct (Ascii.eqb_spec c "."%char); [contradiction|].
    rewrite (IH _ Hrest). now rewrite append_assoc.
Qed.

Lemma last_skip {A} (a d : A) (l : list A) : l <> [] -> last (a :: l) d = last l d.
Proof. destruct l; [contradiction | reflexivity]. Qed.

Lemma last_component_leaf (pre leaf cur : string) :
  ~ mentions leaf "." ->
  last (split_dots (pre ++ "." ++ leaf) cur) EmptyString = leaf.
Proof.
  intros Hleaf. revert cur. induction pre as [|c rest IH]; intros cur.
  - cbn. now rewrite (split_dots_no_dot leaf EmptyString Hleaf).
  - cbn [append split_dots]. destruct (Ascii.eqb c "."%char).
    + rewrite last_skip by apply split_dots_not_nil. apply IH.
    + apply IH.
Qed.

(** X2. Whether [clean_datasinks] takes a node for a data sink depends on
    the last dotted component of its name only: a node [pre.leaf] is one
    exactly when [leaf] starts with [ds_], whatever workflows it is nested
    in, and a node without a dot when its own name does. *)
Theorem datasink_name_is_last_component (pre leaf : string) :
  ~ mentions leaf "." ->
  is_datasink_name (pre ++ "." ++ leaf) = String.prefix "ds_" leaf
  /\ is_datasink_name leaf = String.prefix "ds_" leaf.
Proof.
  intros Hleaf. unfold is_datasink_name, last_component. split.
  - now rewrite last_component_leaf.
  - now rewrite (split_dots_no_dot leaf EmptyString Hleaf).
Qed.

Lemma no_dot_ds_t1w_preproc : ~ mentions "ds_t1w_preproc" ".".
Proof.
  assert (H : forall leaf, ~ mentions leaf "." ->
                forall c, c <> "."%char -> ~ mentions (String c leaf) ".").
  { intros leaf Hl c Hc (pre & post & E). destruct pre as [|a pre].
    - cbn in E. congruence.
    - cbn in E. injection E as _ E. apply Hl. now exists pre, post. }
  repeat (apply H; [|discriminate]).
  intros (pre & post & E). destruct pre; discriminate.
Defined.

Lemma datasink_name_is_last_component_witness :
  is_datasink_name ("anat_fit_wf.ds_template_wf" ++ "." ++ "ds_t1w_preproc") = true.
Proof.
  exact (proj1 (datasink_name_is_last_component
                  "anat_fit_wf.ds_template_wf" "ds_t1w_preproc"
                  no_dot_ds_t1w_preproc)).
Defined.

(** X3. [clean_datasinks] keeps the nodes and their names, leaves every
    node that is not a data sink as it is, sets [out_path_base] of every
    data sink to the empty string, and changes nothing when run again. *)
Theorem clean_datasinks_effect (workflow : list named_node) :
  map node_name (clean_datasinks workflow) = map node_name workflow
  /\ (forall i n, nth_error workflow i = Some n ->
        is_datasink_name (node_name n) = false ->
        nth_error (clean_datasinks workflow) i = Some n)
  /\ (forall n, In n (clean_datasinks workflow) ->
        is_datasink_name (node_name n) = true ->
        out_path_base n = Some EmptyString)
  /\ clean_datasinks (clean_datasinks workflow) = clean_datasinks workflow.
Proof.
  unfold clean_datasinks. split; [|split; [|split]].
  - rewrite map_map. apply map_ext. intros n.
    now destruct (is_datasink_name (node_name n)).
  - intros i n Hn Hds. rewrite nth_error_map, Hn. cbn [option_map]. now rewrite Hds.
  - intros n Hin Hds. apply in_map_iff in Hin. destruct Hin as (m & <- & _).
    destruct (is_datasink_name (node_name m)) eqn:E; [reflexivity|].
    congruence.
  - rewrite map_map. apply map_ext. intros n.
    destruct (is_datasink_name (node_name n)) eqn:E; cbn [node_name]; now rewrite E.
Qed.

(* ================================================================== *)
(** * Further properties: estimators and their use by the callers *)
(* ================================================================== *)

Lemma filter_filter_and {A} (p q : A -> bool) (l : list A) :
  filter p (filter q l) = filter (fun x => q x && p x) l.
Proof.
  induction l as [|x l IH]; simpl; [reflexivity|].
  destruct (q x); simpl; [destruct (p x)|]; now rewrite IH.
Qed.

Lemma filter_none {A} (l : list A) : filter (fun _ => false) l = [].
Proof. induction l; simpl; auto. Qed.

(** What the set-up loop does with a list of estimators. *)
Lemma setup_estimators_spec (fmap_estimators : list FieldmapEstimation) :
  setup_estimators fmap_estimators
  = if forallb supported fmap_estimators
    then Returned (map bids_id fmap_estimators)
    else Raised (NotImplementedError "Sophisticated PEPOLAR schemes are unsupported.").
Proof.
  induction fmap_estimators as [|estimator rest IH]; [reflexivity|].
  cbn [setup_estimators forallb map]. unfold supported at 1.
  destruct (method estimator); try (rewrite IH; cbn [andb];
    destruct (forallb supported rest); reflexivity).
  destruct (pepolar_ok estimator); cbn [andb]; [|reflexivity].
  rewrite IH. destruct (forallb supported rest); reflexivity.
Qed.

(** The test of line 310, read on the sources of the estimator. *)
Lemma pepolar_ok_sources (estimator : FieldmapEstimation) :
  pepolar_ok estimator = true
  <-> List.length (sources estimator) = 2%nat
      /\ forall s, In s (sources estimator) ->
            suffix s = "epi" \/ suffix s = "bold" \/ suffix s = "sbref".
Proof.
  unfold pepolar_ok. cbv zeta.
  rewrite andb_true_iff, Nat.eqb_eq, length_map, forallb_forall.
  split; intros [Hlen Hsuf]; (split; [exact Hlen|]).
  - intros s Hs.
    assert (H : str_in (suffix s) ["epi"; "bold"; "sbref"] = true)
      by (apply Hsuf, in_map; exact Hs).
    apply str_in_In in H. simpl in H.
    destruct H as [H|[H|[H|[]]]]; auto.
  - intros suf Hin. apply in_map_iff in Hin. destruct Hin as (s & <- & Hs).
    apply str_in_In. simpl. destruct (Hsuf s Hs) as [H|[H|H]]; auto.
Qed.

Lemma forallb_false_exists {A} (p : A -> bool) (l : list A) :
  forallb p l = false <-> exists x, In x l /\ p x = false.
Proof.
  induction l as [|a l IH]; simpl.
  - split; [discriminate | intros (x & [] & _)].
  - rewrite andb_false_iff, IH. split.
    + intros [Ha|(x & Hx & Hp)]; [exists a; auto | exists x; auto].
    + intros (x & [<-|Hx] & Hp); [left; exact Hp | right; exists x; auto].
Qed.

Lemma supported_sources (estimator : FieldmapEstimation) :
  supported estimator = true
  <-> (method estimator = PEPOLAR ->
       List.length (sources estimator) = 2%nat
       /\ forall s, In s (sources estimator) ->
             suffix s = "epi" \/ suffix s = "bold" \/ suffix s = "sbref").
Proof.
  unfold supported.
  destruct (method estimator);
    try (split; [discriminate | intros; reflexivity]).
  rewrite pepolar_ok_sources. tauto.
Qed.

(** X4. The set-up loop of [init_single_subject_fit_wf] goes through every
    estimator, in order, exactly when every PEPOLAR estimator of the list
    has two sources, each with suffix epi, bold or sbref; it fails exactly
    when some PEPOLAR estimator has not, and then with
    [NotImplementedError]; the sources of MAPPED, PHASEDIFF and ANAT
    estimators do not matter. *)
Theorem setup_estimators_outcome (fmap_estimators : list FieldmapEstimation) :
  let two_allowed_sources (estimator : FieldmapEstimation) :=
    List.length (sources estimator) = 2%nat
    /\ forall s, In s (sources estimator) ->
          suffix s = "epi" \/ suffix s = "bold" \/ suffix s = "sbref" in
  ((forall estimator, In estimator fmap_estimators ->
      method estimator = PEPOLAR -> two_allowed_sources estimator)
   <-> setup_estimators fmap_estimators = Returned (map bids_id fmap_estimators))
  /\ ((exists estimator, In estimator fmap_estimators
         /\ method estimator = PEPOLAR /\ ~ two_allowed_sources estimator)
      <-> setup_estimators fmap_estimators
          = Raised (NotImplementedError
                      "Sophisticated PEPOLAR schemes are unsupported."))
  /\ (forall seen, setup_estimators fmap_estimators = Returned seen ->
        seen = map bids_id fmap_estimators)
  /\ (forall e, setup_estimators fmap_estimators = Raised e ->
        e = NotImplementedError "Sophisticated PEPOLAR schemes are unsupported.").
Proof.
  cbv zeta. rewrite setup_estimators_spec.
  destruct (forallb supported fmap_estimators) eqn:E.
  - rewrite forallb_forall in E.
    split; [|split; [|split]].
    + split; [reflexivity|]. intros _ estimator Hin.
      apply supported_sources, E, Hin.
    + split; [|discriminate]. intros (estimator & Hin & Hm & Hno).
      exfalso. apply Hno. exact (proj1 (supported_sources estimator) (E _ Hin) Hm).
    + intros seen [= <-]. reflexivity.
    + discriminate.
  - apply forallb_false_exists in E. destruct E as (estimator & Hin & Hno).
    assert (Hm : method estimator = PEPOLAR).
    { unfold supported in Hno. now destruct (method estimator). }
    assert (Hbad : ~ (List.length (sources estimator) = 2%nat
                      /\ forall s, In s (sources estimator) ->
                            suffix s = "epi" \/ suffix s = "bold"
                            \/ suffix s = "sbref")).
    { intros H. assert (Hs : supported estimator = true)
        by (apply supported_sources; intros _; exact H).
      congruence. }
    split; [|split; [|split]].
    + split; [|discriminate]. intros Hall. exfalso.
      apply Hbad, (Hall estimator Hin Hm).
    + split; [reflexivity|]. intros _. exists estimator. auto.
    + discriminate.
    + intros e [= <-]. reflexivity.
Qed.

(** A PEPOLAR estimator with two sources, one of them a magnitude image,
    stops the loop, also after a phase-difference estimator with the same
    sources has been accepted. *)
Lemma setup_estimators_outcome_witness :
  let magnitude :=
    {| path := "sub-01/fmap/sub-01_magnitude1.nii.gz"; suffix := "magnitude1";
       metadata := "PhaseEncodingDirection" |} in
  let epi := Base.Example.epi "sub-01/fmap/sub-01_dir-AP_epi.nii.gz" in
  setup_estimators
    [{| bids_id := "phasediff1"; method := PHASEDIFF; sources := [epi; magnitude] |};
     {| bids_id := "pepolar1"; method := PEPOLAR; sources := [epi; magnitude] |}]
  = Raised (NotImplementedError "Sophisticated PEPOLAR schemes are unsupported.").
Proof.
  intros magnitude epi.
  apply (proj1 (proj1 (proj2 (setup_estimators_outcome
    [{| bids_id := "phasediff1"; method := PHASEDIFF; sources := [epi; magnitude] |};
     {| bids_id := "pepolar1"; method := PEPOLAR; sources := [epi; magnitude] |}])))).
  exists {| bids_id := "pepolar1"; method := PEPOLAR; sources := [epi; magnitude] |}.
  split; [right; left; reflexivity|]. split; [reflexivity|].
  intros [_ Hsuf]. specialize (Hsuf magnitude (or_intror (or_introl eq_refl))).
  destruct Hsuf as [H|[H|H]]; discriminate H.
Defined.

Section ResolveMore.
Variable find_estimators : bool -> bool -> list FieldmapEstimation.
Variable get_estimator : string -> list string.
Variable bold_data : list path_or_list.
Variable ignore_fieldmaps : bool.
Variable use_syn : use_syn_t.
Variable force_syn : bool.

Local Abbreviation resolve :=
  (map_fieldmap_estimation find_estimators get_estimator bold_data
     ignore_fieldmaps use_syn force_syn).
Local Abbreviation found :=
  (discovered find_estimators ignore_fieldmaps use_syn force_syn).
Local Abbreviation kept := (restrict_to_anat ignore_fieldmaps found).
Local Abbreviation ids :=
  (known_ids find_estimators ignore_fieldmaps use_syn force_syn).

(** The returned estimators, as a selection from those discovered. *)
Lemma returned_estimators_selected {log fmap_estimators estimator_map} :
  resolve = (log, Returned (fmap_estimators, estimator_map)) ->
  exists p, fmap_estimators = filter p kept.
Proof.
  intros Hres. destruct ids as [|i0 ids0] eqn:Eids.
  - destruct (resolve_short find_estimators get_estimator bold_data
                ignore_fieldmaps use_syn force_syn Eids) as (Hsnd & _ & _).
    rewrite Hres in Hsnd. cbn [snd] in Hsnd.
    destruct (syn_is_error use_syn); [discriminate|].
    injection Hsnd as -> _. exists (fun _ => false). now rewrite filter_none.
  - assert (Hne : ids <> []) by (rewrite Eids; discriminate).
    rewrite (resolve_main find_estimators get_estimator bold_data
               ignore_fieldmaps use_syn force_syn Hne) in Hres.
    destruct (series bold_data); [|discriminate].
    cbv zeta in Hres. injection Hres as _ <- _. eexists. reflexivity.
Qed.

(** X5. The estimators [map_fieldmap_estimation] returns are some of those
    discovered, in the order of discovery; and when fieldmaps are ignored
    while an anatomical (SyN) estimator was discovered, each of them is an
    anatomical one. *)
Theorem returned_estimators_are_discovered log fmap_estimators estimator_map :
  resolve = (log, Returned (fmap_estimators, estimator_map)) ->
  (exists keep, fmap_estimators = filter keep found)
  /\ (ignore_fieldmaps = true -> existsb is_anat found = true ->
      forall f, In f fmap_estimators -> method f = ANAT).
Proof.
  intros Hres. destruct (returned_estimators_selected Hres) as (p & ->).
  unfold restrict_to_anat, anat_only_applies. split.
  - destruct (ignore_fieldmaps && existsb is_anat found).
    + rewrite filter_filter_and. eexists. reflexivity.
    + eexists. reflexivity.
  - intros -> Hex f Hin. rewrite Hex in Hin. cbn [andb] in Hin.
    apply filter_In in Hin. destruct Hin as [Hin _].
    apply filter_In in Hin. destruct Hin as [_ Hanat].
    unfold is_anat in Hanat. now destruct (method f).
Qed.

(** X6. Whatever identifier the caller looks up for a BOLD entry in the
    returned map is the identifier of a returned estimator; so whenever an
    entry is connected to the fieldmap workflow, which is built only for a
    list of estimators that is not empty, that list is not empty. *)
Theorem looked_up_fieldmap_is_returned log fmap_estimators estimator_map :
  resolve = (log, Returned (fmap_estimators, estimator_map)) ->
  (forall bold_file fieldmap_id,
     fieldmap_id_of estimator_map bold_file = Returned (Some fieldmap_id) ->
     exists f, In f fmap_estimators /\ bids_id f = fieldmap_id)
  /\ (forall bold_file,
        connects_fieldmap estimator_map bold_file = true ->
        is_nil fmap_estimators = false).
Proof.
  intros Hres.
  assert (Hlook : forall bold_file fieldmap_id,
             fieldmap_id_of estimator_map bold_file = Returned (Some fieldmap_id) ->
             exists f, In f fmap_estimators /\ bids_id f = fieldmap_id).
  { intros bold_file fieldmap_id. unfold fieldmap_id_of.
    destruct (first (listify bold_file)) as [f|e]; [|discriminate].
    cbn [bind]. intros [= Hget].
    exact (image_in_pruned find_estimators get_estimator bold_data
             ignore_fieldmaps use_syn force_syn Hres f fieldmap_id Hget). }
  split; [exact Hlook|].
  intros bold_file. unfold connects_fieldmap.
  destruct (fieldmap_id_of estimator_map bold_file) as [[fieldmap_id|]|e] eqn:E;
    try discriminate.
  intros _. destruct (Hlook bold_file fieldmap_id E) as (f & Hin & _).
  now destruct fmap_estimators.
Qed.

(** X7. Estimators are pruned before they are set up: when every
    discovered estimator that some series is assigned is supported, the
    set-up loop goes through the returned list without error, whatever
    the estimators no series is assigned look like. *)
Theorem pruned_estimators_are_set_up log fmap_estimators estimator_map :
  resolve = (log, Returned (fmap_estimators, estimator_map)) ->
  (forall f, In f found ->
     (exists S, dict_get S estimator_map = Some (bids_id f)) ->
     supported f = true) ->
  setup_estimators fmap_estimators = Returned (map bids_id fmap_estimators).
Proof.
  intros Hres Hsup. rewrite setup_estimators_spec.
  replace (forallb supported fmap_estimators) with true; [reflexivity|].
  symmetry. apply forallb_forall. intros f Hin. apply Hsup.
  - destruct (returned_estimators_selected Hres) as (p & E).
    rewrite E in Hin. apply filter_In in Hin. destruct Hin as [Hin _].
    unfold restrict_to_anat in Hin.
    destruct (anat_only_applies ignore_fieldmaps found); [|assumption].
    now apply filter_In in Hin.
  - exact (pruned_in_image find_estimators get_estimator bold_data
             ignore_fieldmaps use_syn force_syn Hres f Hin).
Qed.
End ResolveMore.

Lemma returned_estimators_are_discovered_witness :
  exists keep,
    [Base.Example.pepolar]
    = filter keep (discovered Subject.Example.find_three false (SynBool false) false).
Proof.
  exact (proj1 (returned_estimators_are_discovered
                  Subject.Example.find_three Base.Example.get_estimator
                  Base.Example.bold_data false (SynBool false) false
                  [several (Base.Example.run1, ["pepolar0"; "phasediff0"])]
                  [Base.Example.pepolar] [(Base.Example.run1, "pepolar0")]
                  eq_refl)).
Defined.

Lemma looked_up_fieldmap_is_returned_witness :
  fieldmap_id_of [(Base.Example.run1, "pepolar0")] (OnePath Base.Example.run1)
  = Returned (Some "pepolar0")
  /\ exists f, In f [Base.Example.pepolar] /\ bids_id f = "pepolar0".
Proof.
  split; [reflexivity|].
  exact (proj1 (looked_up_fieldmap_is_returned
                  Base.Example.find_estimators Base.Example.get_estimator
                  Base.Example.bold_data false (SynBool false) false
                  [several (Base.Example.run1, ["pepolar0"; "phasediff0"])]
                  [Base.Example.pepolar] [(Base.Example.run1, "pepolar0")]
                  eq_refl)
               (OnePath Base.Example.run1) "pepolar0" eq_refl).
Defined.

(** In the example the third estimator has three sources: setting up all
    that was discovered fails, setting up what is returned does not. *)
Lemma pruned_estimators_are_set_up_witness :
  setup_estimators (Subject.Example.find_three false false)
  = Raised (NotImplementedError "Sophisticated PEPOLAR schemes are unsupported.")
  /\ setup_estimators [Base.Example.pepolar] = Returned ["pepolar0"].
Proof.
  split; [reflexivity|].
  apply (pruned_estimators_are_set_up
           Subject.Example.find_three Base.Example.get_estimator
           Base.Example.bold_data false (SynBool false) false
           [several (Base.Example.run1, ["pepolar0"; "phasediff0"])]
           [Base.Example.pepolar] [(Base.Example.run1, "pepolar0")]
           eq_refl).
  intros f Hin (S & Hget).
  destruct Hin as [<-|[<-|[<-|[]]]]; try reflexivity.
  apply dict_get_In in Hget. destruct Hget as [Hget|[]]. discriminate Hget.
Defined.

(* ================================================================== *)
(** * Further properties: [init_single_subject_wf] *)
(* ================================================================== *)

Lemma no_bold_message_names (subject_id : string) (task_id : option string) :
  mentions (no_bold_message subject_id task_id) subject_id
  /\ (truthy_opt task_id = false ->
      mentions (no_bold_message subject_id task_id) "<all>")
  /\ (forall task, task_id = Some task -> task <> EmptyString ->
      mentions (no_bold_message subject_id task_id) task).
Proof.
  unfold no_bold_message. split; [|split].
  - apply mentions_prefix, mentions_suffix, mentions_self.
  - intros ->. do 3 apply mentions_prefix. apply mentions_suffix, mentions_self.
  - intros task -> Hne. cbn [truthy_opt].
    destruct (String.eqb_spec task EmptyString); [contradiction|]. cbn [negb].
    do 3 apply mentions_prefix. apply mentions_suffix, mentions_self.
Qed.

(** X8. The opening of [init_single_subject_wf] reports missing BOLD
    images first, unless only anatomy is asked for, with a [RuntimeError]
    whose message names the participant and the task, or [<all>] when no
    task is selected; then missing T1w images, unless a preprocessed T1w is
    among the derivatives; otherwise it goes on with the BOLD, T1w and
    lesion images it was given, warns exactly when there is a lesion mask,
    and has emptied the T2w and FLAIR images exactly when they are
    ignored. *)
Theorem subject_data_checks subject_id task_id ignore anat_only deriv_cache
    (subject_data : subject_data_t) :
  let result := check_subject_data subject_id task_id ignore anat_only
                  deriv_cache subject_data in
  let no_bold := negb anat_only && is_nil (bold subject_data) in
  let no_t1w := negb (str_in "t1w_preproc" deriv_cache)
                && is_nil (t1w subject_data) in
  (no_bold = true ->
   exists msg,
     result = inr (Builtin (RuntimeError msg))
     /\ mentions msg subject_id
     /\ (truthy_opt task_id = false -> mentions msg "<all>")
     /\ (forall task, task_id = Some task -> task <> EmptyString ->
         mentions msg task))
  /\ (no_bold = false -> no_t1w = true ->
      result = inr (PlainException (no_t1w_message subject_id)))
  /\ (no_bold = false -> no_t1w = false ->
      exists data,
        result = inl (data, negb (is_nil (roi subject_data)))
        /\ bold data = bold subject_data
        /\ t1w data = t1w subject_data
        /\ roi data = roi subject_data
        /\ t2w data = (if str_in "t2w" ignore then [] else t2w subject_data)
        /\ flair data = (if str_in "flair" ignore then [] else flair subject_data)).
Proof.
  cbv zeta. unfold check_subject_data.
  pose proof (no_bold_message_names subject_id task_id) as Hnames.
  destruct (str_in "flair" ignore), (str_in "t2w" ignore); cbn [bold t1w t2w flair roi];
    destruct (negb anat_only && is_nil (bold subject_data));
    destruct (negb (str_in "t1w_preproc" deriv_cache) && is_nil (t1w subject_data));
    (split; [|split]); try discriminate; try reflexivity;
    try (intros _; eexists; split; [reflexivity | exact Hnames]);
    intros _ _; eexists; repeat split.
Qed.

Section LegacyFacts.
Variable find_estimators : bool -> bool -> list FieldmapEstimation.
Variable get_estimator : string -> list string.
Variable describe : list FieldmapEstimation -> string.
Variable bold_data : list path_or_list.
Variable ignore_fieldmaps : bool.
Variable use_syn : use_syn_t.
Variable force_syn : bool.
Variable registry : list string.

Local Abbreviation legacy :=
  (legacy_fieldmaps find_estimators get_estimator describe bold_data
     ignore_fieldmaps use_syn force_syn registry).
Local Abbreviation resolve :=
  (map_fieldmap_estimation find_estimators get_estimator bold_data
     ignore_fieldmaps use_syn force_syn).
Local Abbreviation found :=
  (discovered find_estimators ignore_fieldmaps use_syn force_syn).
Local Abbreviation kept := (restrict_to_anat ignore_fieldmaps found).
Local Abbreviation ids :=
  (known_ids find_estimators ignore_fieldmaps use_syn force_syn).
Local Abbreviation switched_off :=
  (negb (negb ignore_fieldmaps || syn_truthy use_syn || force_syn)).

(** What a run of the legacy code that returns has done. *)
Lemma legacy_returned {log fmap_estimators registry'} :
  legacy = (log, Returned (fmap_estimators, registry')) ->
  (switched_off = true /\ fmap_estimators = None /\ registry' = registry)
  \/ (switched_off = false /\ found = []
      /\ fmap_estimators = Some [] /\ registry' = registry)
  \/ (switched_off = false /\ found <> []
      /\ exists bold_files,
           series bold_data = Returned bold_files
           /\ let used :=
                filter (fun fmap => str_in (bids_id fmap)
                                      (flat_map get_estimator bold_files)) kept in
              fmap_estimators = Some used
              /\ registry'
                 = filter (fun k => str_in k (map bids_id used)) registry).
Proof.
  unfold legacy_fieldmaps, series, discovered, restrict_to_anat, anat_only_applies.
  destruct switched_off; [intros [= _ <- <-]; auto|].
  set (fs := find_estimators _ _).
  destruct fs as [|f0 fs0] eqn:Efs.
  - cbn [is_nil existsb]. rewrite !andb_false_r, andb_true_r. cbn [is_nil negb].
    destruct (syn_truthy use_syn); cbn [andb];
      [destruct (syn_is_error use_syn); [discriminate|]|];
      intros [= _ <- <-]; right; left; auto.
  - cbn [is_nil]. rewrite andb_false_r. cbn [andb].
    set (anat := ignore_fieldmaps && existsb is_anat (f0 :: fs0)).
    assert (Hne : (if anat then filter is_anat (f0 :: fs0) else f0 :: fs0) <> []).
    { pose proof (restrict_to_anat_nonempty ignore_fieldmaps (f0 :: fs0)) as H.
      unfold restrict_to_anat, anat_only_applies in H. apply H. discriminate. }
    destruct (if anat then filter is_anat (f0 :: fs0) else f0 :: fs0)
      as [|k0 ks] eqn:Ek; [congruence|].
    cbn [is_nil negb].
    destruct (map_outcome _ bold_data) as [bold_files|e]; [|discriminate].
    cbv zeta. intros [= _ <- <-]. right; right.
    split; [reflexivity|]. split; [discriminate|].
    exists bold_files. auto.
Qed.

(** X9. When the legacy code has discovered estimators, the keys left in
    the registry are those of its keys that name a kept estimator, and
    every kept estimator is declared by some BOLD series; otherwise the
    registry is left as it was. *)
Theorem legacy_registry_is_pruned log fmap_estimators registry' :
  legacy = (log, Returned (fmap_estimators, registry')) ->
  (switched_off = false -> found <> [] ->
   exists used bold_files,
     fmap_estimators = Some used
     /\ series bold_data = Returned bold_files
     /\ (forall k, In k registry'
                   <-> In k registry /\ In k (map bids_id used))
     /\ (forall f, In f used ->
           exists S, In S bold_files /\ In (bids_id f) (get_estimator S)))
  /\ (switched_off = true \/ found = [] -> registry' = registry).
Proof.
  intros Hret.
  destruct (legacy_returned Hret)
    as [(Hoff & _ & Hreg)|[(Hoff & Hnil & _ & Hreg)|(Hoff & Hne & bold_files & Hs & Hrest)]].
  - split; [congruence | auto].
  - split; [congruence | auto].
  - cbv zeta in Hrest. destruct Hrest as [Hfm Hreg]. split.
    + intros _ _. eexists _, bold_files. split; [exact Hfm|]. split; [exact Hs|]. split.
      * intros k. rewrite Hreg, filter_In, str_in_In. reflexivity.
      * intros f Hin. apply filter_In in Hin. destruct Hin as [_ Hin].
        apply str_in_In, in_flat_map in Hin. exact Hin.
    + intros [H|H]; congruence.
Qed.

(** X10. For one subject, every estimator [map_fieldmap_estimation]
    returns is among those the legacy code of [init_single_subject_wf]
    keeps: the first keeps the first candidate of each series, the second
    everything some series declares. *)
Theorem fit_estimators_within_legacy
    log fmap_estimators estimator_map log' legacy_estimators registry' :
  map_fieldmap_estimation find_estimators get_estimator bold_data
    ignore_fieldmaps use_syn force_syn
  = (log, Returned (fmap_estimators, estimator_map)) ->
  legacy_fieldmaps find_estimators get_estimator describe bold_data
    ignore_fieldmaps use_syn force_syn registry
  = (log', Returned (legacy_estimators, registry')) ->
  forall f, In f fmap_estimators ->
    exists used, legacy_estimators = Some used /\ In f used.
Proof.
  intros Hres Hleg f Hin.
  destruct (pruned_in_image find_estimators get_estimator bold_data
              ignore_fieldmaps use_syn force_syn Hres f Hin) as (S & Hget).
  destruct (returned_estimators_selected find_estimators get_estimator bold_data
              ignore_fieldmaps use_syn force_syn Hres) as (p & E).
  assert (Hkept : In f kept).
  { rewrite E in Hin. now apply filter_In in Hin. }
  assert (Hfound : found <> []).
  { intros Hnil. rewrite Hnil in Hkept.
    unfold restrict_to_anat, anat_only_applies in Hkept.
    destruct ignore_fieldmaps; destruct Hkept. }
  destruct (legacy_returned Hleg)
    as [(Hoff & _ & _)|[(_ & Hnil & _)|(Hoff & _ & bold_files & Hs & Hrest)]].
  - exfalso. apply Hfound. unfold discovered, known_ids in *.
    pose proof (resolve_short find_estimators get_estimator bold_data
                  ignore_fieldmaps use_syn force_syn) as Hshort.
    unfold known_ids in Hshort. rewrite Hoff in Hshort.
    destruct (Hshort eq_refl) as (Hsnd & _). rewrite Hres in Hsnd.
    cbn [snd] in Hsnd. destruct (syn_is_error use_syn); [discriminate|].
    injection Hsnd as -> _. destruct Hin.
  - contradiction.
  - cbv zeta in Hrest. destruct Hrest as [Hfm _].
    eexists. split; [exact Hfm|]. apply filter_In. split; [assumption|].
    apply str_in_In, in_flat_map.
    rewrite (assignment_lookup find_estimators get_estimator bold_data
               ignore_fieldmaps use_syn force_syn Hres Hs S) in Hget.
    destruct (str_in S bold_files) eqn:HS; [|discriminate].
    exists S. split; [now apply str_in_In|].
    unfold candidates in Hget.
    destruct (filter _ (get_estimator S)) as [|c cs] eqn:Ec; [discriminate|].
    injection Hget as ->.
    assert (Hc : In (bids_id f) (bids_id f :: cs)) by now left.
    rewrite <- Ec in Hc. now apply filter_In in Hc.
Qed.
End LegacyFacts.

Lemma subject_data_checks_witness :
  exists msg,
    check_subject_data "01" None ["t2w"] false ["t1w_preproc"]
      {| bold := []; t1w := []; t2w := []; flair := []; roi := [] |}
    = inr (Builtin (RuntimeError msg))
    /\ mentions msg "01" /\ mentions msg "<all>".
Proof.
  destruct (proj1 (subject_data_checks "01" None ["t2w"] false ["t1w_preproc"]
                     {| bold := []; t1w := []; t2w := []; flair := []; roi := [] |})
                  eq_refl) as (msg & Hraise & Hsubject & Hall & _).
  exists msg. split; [exact Hraise|]. split; [exact Hsubject|].
  apply Hall. reflexivity.
Defined.

Lemma legacy_registry_is_pruned_witness :
  legacy_fieldmaps Subject.Example.find_three Base.Example.get_estimator
    Subject.Example.describe Base.Example.bold_data false (SynBool false) false
    ["pepolar1"; "phasediff0"; "pepolar0"]
  = ([(INFO, "B0 field inhomogeneity map will be estimated.")],
     Returned (Some [Base.Example.pepolar; Base.Example.phasediff],
               ["phasediff0"; "pepolar0"]))
  /\ (forall k, In k ["phasediff0"; "pepolar0"]
                -> In k ["pepolar1"; "phasediff0"; "pepolar0"]).
Proof.
  split; [reflexivity|].
  destruct (proj1 (legacy_registry_is_pruned
                     Subject.Example.find_three Base.Example.get_estimator
                     Subject.Example.describe Base.Example.bold_data
                     false (SynBool false) false
                     ["pepolar1"; "phasediff0"; "pepolar0"]
                     [(INFO, "B0 field inhomogeneity map will be estimated.")]
                     (Some [Base.Example.pepolar; Base.Example.phasediff])
                     ["phasediff0"; "pepolar0"] eq_refl)
                  eq_refl ltac:(discriminate))
    as (used & bold_files & _ & _ & Hreg & _).
  intros k Hk. now apply Hreg in Hk.
Defined.

Lemma fit_estimators_within_legacy_witness :
  exists used,
    Some [Base.Example.pepolar; Base.Example.phasediff] = Some used
    /\ In Base.Example.pepolar used.
Proof.
  exact (fit_estimators_within_legacy
           Subject.Example.find_three Base.Example.get_estimator
           Subject.Example.describe Base.Example.bold_data
           false (SynBool false) false
           ["pepolar1"; "phasediff0"; "pepolar0"]
           [several (Base.Example.run1, ["pepolar0"; "phasediff0"])]
           [Base.Example.pepolar] [(Base.Example.run1, "pepolar0")]
           [(INFO, "B0 field inhomogeneity map will be estimated.")]
           (Some [Base.Example.pepolar; Base.Example.phasediff])
           ["phasediff0"; "pepolar0"] eq_refl eq_refl
           Base.Example.pepolar (or_introl eq_refl)).
Defined.

(* ================================================================== *)
(** * Further properties: [get_sbrefs] *)
(* ================================================================== *)

Section SortedMore.
Context {A : Type}.
Variable key : A -> option Q.

Local Abbreviation le := (fun a b : A => key_le key a b = true).

Lemma insert_perm (x : A) (l : list A) : Permutation (x :: l) (insert key x l).
Proof.
  induction l as [|y l IH]; simpl; [apply Permutation_refl|].
  destruct (key_le key x y); [apply Permutation_refl|].
  eapply Permutation_trans; [apply perm_swap|]. now apply perm_skip.
Qed.

Lemma isort_perm (l : list A) : Permutation l (isort key l).
Proof.
  induction l as [|x l IH]; simpl; [apply Permutation_refl|].
  eapply Permutation_trans; [apply perm_skip, IH | apply insert_perm].
Qed.

Lemma insert_sorted (x : A) (l : list A) :
  has_key key x = true -> forallb (has_key key) l = true ->
  Sorted le l -> Sorted le (insert key x l).
Proof.
  intros Hx. induction l as [|y l IH]; intros Hl Hs; simpl.
  - repeat constructor.
  - cbn [forallb] in Hl. apply andb_true_iff in Hl. destruct Hl as [Hy Hl].
    destruct (key_le key x y) eqn:E.
    + constructor; [assumption|]. now constructor.
    + inversion Hs as [|? ? Hs' Hhd]; subst.
      constructor; [now apply IH|].
      assert (Hyx : key_le key y x = true) by now apply le_total.
      destruct l as [|z l]; simpl.
      * now constructor.
      * destruct (key_le key x z); constructor; [assumption|].
        now inversion Hhd.
Qed.

Lemma isort_sorted (l : list A) :
  forallb (has_key key) l = true -> Sorted le (isort key l).
Proof.
  induction l as [|x l IH]; simpl; intros H; [constructor|].
  apply andb_true_iff in H. destruct H as [Hx Hl].
  apply insert_sorted; auto.
  apply forallb_forall. intros y Hy. apply isort_In in Hy.
  rewrite forallb_forall in Hl. now apply Hl.
Qed.

Lemma filter_insert_same_key (q : Q) (x : A) (l : list A) :
  let same := fun a => match key a with
                       | Some k => Qeq_bool k q
                       | None => false
                       end in
  filter same (insert key x l)
  = if same x then x :: filter same l else filter same l.
Proof.
  cbv zeta. induction l as [|y l IH]; simpl; [reflexivity|].
  destruct (key_le key x y) eqn:E; simpl; [reflexivity|].
  rewrite IH. clear IH.
  destruct (key x) as [kx|] eqn:Kx; [|reflexivity].
  destruct (Qeq_bool kx q) eqn:Ex; [|reflexivity].
  destruct (key y) as [ky|] eqn:Ky; [|reflexivity].
  destruct (Qeq_bool ky q) eqn:Ey; [|reflexivity].
  exfalso. unfold key_le in E. rewrite Kx, Ky in E.
  apply Qeq_bool_iff in Ex, Ey.
  assert (H : Qle_bool kx ky = true)
    by (apply Qle_bool_iff; rewrite Ex, Ey; apply Qle_refl).
  congruence.
Qed.

Lemma isort_stable (q : Q) (l : list A) :
  let same := fun a => match key a with
                       | Some k => Qeq_bool k q
                       | None => false
                       end in
  filter same (isort key l) = filter same l.
Proof.
  cbv zeta. induction l as [|x l IH]; simpl; [reflexivity|].
  rewrite (filter_insert_same_key q x (isort key l)). cbv zeta. rewrite IH.
  reflexivity.
Qed.

Lemma sorted_returned_spec (l l' : list A) :
  sorted key l = Returned l' ->
  Permutation l l'
  /\ Sorted le l'
  /\ forall q, filter (fun a => match key a with
                                | Some k => Qeq_bool k q
                                | None => false
                                end) l'
               = filter (fun a => match key a with
                                  | Some k => Qeq_bool k q
                                  | None => false
                                  end) l.
Proof.
  unfold sorted. destruct l as [|x [|y l]].
  - intros [= <-]. repeat split; constructor.
  - intros [= <-]. repeat split; [apply Permutation_refl | repeat constructor].
  - destruct (forallb (has_key key) (x :: y :: l)) eqn:E; [|discriminate].
    intros [= <-]. split; [exact (isort_perm (x :: y :: l))|].
    split; [exact (isort_sorted (x :: y :: l) E)|].
    intros q. exact (isort_stable q (x :: y :: l)).
Qed.

Lemma sorted_raised_spec (l : list A) (e : exception) :
  sorted key l = Raised e
  <-> e = TypeError /\ 2 <= List.length l /\ exists x, In x l /\ key x = None.
Proof.
  unfold sorted. destruct l as [|x [|y l]].
  - split; [discriminate | simpl; intros (_ & H & _); lia].
  - split; [discriminate | simpl; intros (_ & H & _); lia].
  - destruct (forallb (has_key key) (x :: y :: l)) eqn:E.
    + split; [discriminate|]. intros (_ & _ & z & Hz & Hk).
      rewrite forallb_forall in E. specialize (E z Hz).
      unfold has_key in E. rewrite Hk in E. discriminate.
    + split.
      * intros [= <-]. split; [reflexivity|]. split; [simpl; lia|].
        assert (H : ~ forall z, In z (x :: y :: l) -> has_key key z = true).
        { intros H. apply forallb_forall in H. congruence. }
        clear E. induction (x :: y :: l) as [|a r IH].
        -- exfalso. apply H. intros z [].
        -- destruct (key a) as [k|] eqn:Ka.
           ++ destruct IH as (z & Hz & Hk).
              { intros Hr. apply H. intros z [<-|Hz]; [|now apply Hr].
                unfold has_key. now rewrite Ka. }
              exists z. split; [now right | assumption].
           ++ exists a. split; [now left | assumption].
      * now intros (-> & _).
Qed.
End SortedMore.

(** X11. When [get_sbrefs] returns, its list holds the files the layout
    query found, each as often as the query found it, in ascending order
    of echo time, files of equal echo time in the order of the query. *)
Theorem get_sbrefs_sorted echo_time layout_get_sbref bold_files sbref_files :
  get_sbrefs echo_time layout_get_sbref bold_files = Returned sbref_files ->
  Permutation (layout_get_sbref bold_files) sbref_files
  /\ Sorted (fun a b => key_le echo_time a b = true) sbref_files
  /\ forall q,
       filter (fun a => match echo_time a with
                        | Some k => Qeq_bool k q
                        | None => false
                        end) sbref_files
       = filter (fun a => match echo_time a with
                          | Some k => Qeq_bool k q
                          | None => false
                          end) (layout_get_sbref bold_files).
Proof. unfold get_sbrefs. apply sorted_returned_spec. Qed.


Lemma get_sbrefs_sorted_witness :
  get_sbrefs Fit.Example.echo_time Fit.Example.layout_get_sbref [Fit.Example.echo1]
  = Returned [Fit.Example.sbref1; Fit.Example.sbref2]
  /\ Permutation [Fit.Example.sbref2; Fit.Example.sbref1]
                 [Fit.Example.sbref1; Fit.Example.sbref2].
Proof.
  split; [reflexivity|].
  exact (proj1 (get_sbrefs_sorted Fit.Example.echo_time
                  Fit.Example.layout_get_sbref [Fit.Example.echo1]
                  [Fit.Example.sbref1; Fit.Example.sbref2] eq_refl)).
Defined.

(* ================================================================== *)
(** * Further properties: the graphs of the fit and native workflows *)
(* ================================================================== *)

Lemma forward_rank (order : list string) (e : edge) :
  forward order e = true -> rank order (source_of e) < rank order (target_of e).
Proof.
  unfold forward, rank.
  destruct (index_of (source_of e) order), (index_of (target_of e) order);
    try discriminate.
  apply Nat.ltb_lt.
Qed.

Lemma topological_reaches (w : workflow) (order : list string) :
  is_topological w order = true ->
  forall a b, reaches w a b -> rank order a < rank order b.
Proof.
  intros Htop a b Hr. induction Hr as [e Hin|a b c _ IH1 _ IH2].
  - apply forward_rank. unfold is_topological in Htop.
    rewrite forallb_forall in Htop. now apply Htop.
  - lia.
Qed.

Lemma topological_acyclic (w : workflow) (order : list string) :
  is_topological w order = true -> forall n, ~ reaches w n n.
Proof.
  intros Htop n Hr. pose proof (topological_reaches w order Htop n n Hr). lia.
Qed.

Lemma distinct_ports_NoDup (ps : list (string * string)) :
  distinct_ports ps = true -> NoDup ps.
Proof.
  induction ps as [|p ps IH]; simpl; intros H; [constructor|].
  apply andb_true_iff in H. destruct H as [Hp Hps].
  constructor; [|now apply IH].
  intros Hin. apply negb_true_iff in Hp.
  assert (existsb (same_port p) ps = true); [|congruence].
  apply existsb_exists. exists p. split; [assumption|].
  unfold same_port. now rewrite !String.eqb_refl.
Qed.

Section FitGraphMore.
Variable bold_series : list string.
Variable bold_file : string.
Variable sbref_files : list string.
Variable precomputed : precomputed_t.
Variable fieldmap_id : option string.

Local Abbreviation g :=
  (fit_graph bold_series bold_file sbref_files precomputed fieldmap_id).

Lemma fit_graph_consumers :
  (truthy (hmc_xforms precomputed) = false ->
   arrives_at g "bold_hmc_wf" "inputnode.raw_ref_image"
   = graph_output g "hmc_boldref")
  /\ (have_coregref precomputed = false ->
      arrives_at g "fmapref_buffer" "boldref_files" = graph_output g "hmc_boldref")
  /\ (truthy (boldref2anat_xform precomputed) = false ->
      arrives_at g "bold_reg_wf" "inputnode.ref_bold_brain"
      = graph_output g "coreg_boldref")
  /\ arrives_at g "func_fit_reports_wf" "inputnode.coreg_boldref"
     = graph_output g "coreg_boldref"
  /\ arrives_at g "func_fit_reports_wf" "inputnode.boldref2anat_xfm"
     = graph_output g "boldref2anat_xfm".
Proof.
  fit_cases precomputed fieldmap_id; repeat split; intros;
    try discriminate; by_evaluation.
Qed.

Lemma fit_graph_coregref_cached :
  have_coregref precomputed = true ->
  g = fit_graph bold_series bold_file [] precomputed None
  /\ graph_output g "bold_mask" = Some (Unset "regref_buffer" "boldmask")
  /\ graph_output g "boldref2fmap_xfm"
     = Some (Unset "fmapreg_buffer" "boldref2fmap_xfm").
Proof.
  intros Hc. split.
  - unfold fit_graph, stage3. rewrite Hc. cbn [negb]. reflexivity.
  - revert Hc. fit_cases precomputed fieldmap_id; intros Hc;
      try discriminate Hc; split; by_evaluation.
Qed.

Lemma fit_graph_no_fieldmap :
  truthy_opt fieldmap_id = false ->
  have_coregref precomputed = false ->
  arrives_at g "ds_coreg_boldref_wf" "inputnode.boldref"
  = Some (Output "enhance_boldref_wf" "outputnode.bias_corrected_file")
  /\ graph_output g "bold_mask"
     = Some (Output "enhance_boldref_wf" "outputnode.mask_file")
  /\ graph_output g "boldref2fmap_xfm"
     = Some (Unset "fmapreg_buffer" "boldref2fmap_xfm")
  /\ (forall n, In n ("fmap_select" :: "unwarp_wf" :: fmapreg_branch) ->
        in_graph g n = false).
Proof.
  intros Hf Hc; revert Hc; revert Hf.
  fit_cases precomputed fieldmap_id; intros Hf Hc;
    try discriminate Hf; try discriminate Hc;
    (split; [|split; [|split]];
     [by_evaluation | by_evaluation | by_evaluation
     | intros n Hn; unfold fmapreg_branch in Hn; simpl in Hn;
       each_member Hn; by_evaluation]).
Qed.

Lemma fit_graph_reports :
  arrives_at g "summary" "distortion_correction"
  = Some (if truthy_opt fieldmap_id && negb (have_coregref precomputed)
          then Output "fmap_select" "sdc_method"
          else Static (PStr "None"))
  /\ arrives_at g "func_fit_reports_wf" "inputnode.validation_report"
     = Some (if have_hmcref precomputed
             then Output "validate_bold" "out_report"
             else Output "hmc_boldref_wf" "outputnode.validation_report")
  /\ in_graph g "validate_bold" = have_hmcref precomputed
  /\ (truthy (hmc_xforms precomputed) = false ->
      arrives_at g "bold_hmc_wf" "inputnode.bold_file"
      = Some (if have_hmcref precomputed
              then Output "validate_bold" "out_file"
              else Output "hmc_boldref_wf" "outputnode.bold_file"))
  /\ in_graph g "hmc_boldref_wf" = negb (have_hmcref precomputed).
Proof.
  fit_cases precomputed fieldmap_id; repeat split; intros;
    try discriminate; by_evaluation.
Qed.

Lemma fit_graph_well_formed :
  single_source g = true
  /\ edges_closed g = true
  /\ is_topological g (execution_order g) = true.
Proof.
  fit_cases precomputed fieldmap_id; repeat split; by_evaluation.
Qed.
End FitGraphMore.

Section FitMore.
Variable echo_time : string -> option Q.
Variable layout_get_sbref : list string -> list string.

Local Abbreviation fit := (init_bold_fit_wf echo_time layout_get_sbref).

(** X13. In a returned fit workflow every stage that uses a reference
    reads what the workflow exports: motion estimation and the selection
    of the coregistration reference read the [hmc_boldref] output,
    registration to the anatomy and the reports read the [coreg_boldref]
    output, and the reports read the [boldref2anat_xfm] output, whether
    these come from the derivatives or from a stage. *)
Theorem stages_read_exported_references bold_series precomputed fieldmap_id w :
  fit bold_series precomputed fieldmap_id = Returned w ->
  (truthy (hmc_xforms precomputed) = false ->
   arrives_at w "bold_hmc_wf" "inputnode.raw_ref_image"
   = graph_output w "hmc_boldref")
  /\ (have_coregref precomputed = false ->
      arrives_at w "fmapref_buffer" "boldref_files" = graph_output w "hmc_boldref")
  /\ (truthy (boldref2anat_xform precomputed) = false ->
      arrives_at w "bold_reg_wf" "inputnode.ref_bold_brain"
      = graph_output w "coreg_boldref")
  /\ arrives_at w "func_fit_reports_wf" "inputnode.coreg_boldref"
     = graph_output w "coreg_boldref"
  /\ arrives_at w "func_fit_reports_wf" "inputnode.boldref2anat_xfm"
     = graph_output w "boldref2anat_xfm".
Proof.
  intros Hret.
  destruct (fit_returned echo_time layout_get_sbref Hret)
    as (bold_files & bold_file & sbref_files & _ & _ & ->).
  apply fit_graph_consumers.
Qed.

(** X14. With a coregistration reference among the derivatives the fit
    workflow is the same whatever fieldmap is assigned and whatever
    single-band references exist, and its [bold_mask] and
    [boldref2fmap_xfm] outputs are fed by nothing, also when a
    boldref-to-fieldmap transform is stored. *)
Theorem cached_coregref_skips_fieldmap bold_series precomputed fieldmap_id w :
  fit bold_series precomputed fieldmap_id = Returned w ->
  have_coregref precomputed = true ->
  (forall fieldmap_id' w',
     fit bold_series precomputed fieldmap_id' = Returned w' -> w' = w)
  /\ (exists bold_file, w = fit_graph bold_series bold_file [] precomputed None)
  /\ graph_output w "bold_mask" = Some (Unset "regref_buffer" "boldmask")
  /\ graph_output w "boldref2fmap_xfm"
     = Some (Unset "fmapreg_buffer" "boldref2fmap_xfm").
Proof.
  intros Hret Hc. unfold init_bold_fit_wf in Hret.
  destruct (sorted echo_time bold_series) as [bold_files|e] eqn:Hs; [|discriminate].
  cbn [bind] in Hret.
  destruct (get_sbrefs echo_time layout_get_sbref bold_files)
    as [sbref_files|e] eqn:Hsb; [|discriminate].
  cbn [bind] in Hret.
  destruct bold_files as [|bold_file rest]; [discriminate|].
  cbn [first bind] in Hret. injection Hret as <-.
  destruct (fit_graph_coregref_cached bold_series bold_file sbref_files
              precomputed fieldmap_id Hc) as (Heq & Hmask & Hxfm).
  split; [|split; [exists bold_file; exact Heq | split; assumption]].
  intros fieldmap_id' w' Hret'. unfold init_bold_fit_wf in Hret'.
  rewrite Hs in Hret'. cbn [bind] in Hret'. rewrite Hsb in Hret'.
  cbn [first bind] in Hret'. injection Hret' as <-.
  transitivity (fit_graph bold_series bold_file [] precomputed None).
  - exact (proj1 (fit_graph_coregref_cached bold_series bold_file sbref_files
                    precomputed fieldmap_id' Hc)).
  - symmetry. exact Heq.
Qed.

(** X15. Without a fieldmap, and with no coregistration reference among
    the derivatives, the contrast-enhanced reference itself becomes the
    coregistration reference and its mask the [bold_mask] output; none of
    the fieldmap stages is in the graph, and the [boldref2fmap_xfm] output
    is fed by nothing, also when such a transform is stored. *)
Theorem no_fieldmap_coregistration bold_series precomputed fieldmap_id w :
  fit bold_series precomputed fieldmap_id = Returned w ->
  truthy_opt fieldmap_id = false ->
  have_coregref precomputed = false ->
  arrives_at w "ds_coreg_boldref_wf" "inputnode.boldref"
  = Some (Output "enhance_boldref_wf" "outputnode.bias_corrected_file")
  /\ graph_output w "bold_mask"
     = Some (Output "enhance_boldref_wf" "outputnode.mask_file")
  /\ graph_output w "boldref2fmap_xfm"
     = Some (Unset "fmapreg_buffer" "boldref2fmap_xfm")
  /\ (forall n, In n ("fmap_select" :: "unwarp_wf" :: fmapreg_branch) ->
        in_graph w n = false).
Proof.
  intros Hret Hf Hc.
  destruct (fit_returned echo_time layout_get_sbref Hret)
    as (bold_files & bold_file & sbref_files & _ & _ & ->).
  now apply fit_graph_no_fieldmap.
Qed.

(** X16. In a returned fit workflow the summary is told the distortion
    correction method by the fieldmap selection exactly when a fieldmap
    is assigned and the dictionary holds no coregistration reference, and
    the text [None] otherwise.  When the dictionary holds an HMC
    reference, the validation node is in the graph, the reference
    workflow is not, and the validation report and the BOLD file for
    motion estimation come from the validation node; when it holds none,
    the validation node is not in the graph, the reference workflow is,
    and both come from the reference workflow. *)
Theorem reports_follow_the_stages bold_series precomputed fieldmap_id w :
  fit bold_series precomputed fieldmap_id = Returned w ->
  arrives_at w "summary" "distortion_correction"
  = Some (match slot_lookup precomputed coreg_boldref with
          | None => if truthy_opt fieldmap_id
                    then Output "fmap_select" "sdc_method"
                    else Static (PStr "None")
          | Some _ => Static (PStr "None")
          end)
  /\ (forall v, slot_lookup precomputed hmc_boldref = Some v ->
        in_graph w "validate_bold" = true
        /\ in_graph w "hmc_boldref_wf" = false
        /\ arrives_at w "func_fit_reports_wf" "inputnode.validation_report"
           = Some (Output "validate_bold" "out_report")
        /\ ((forall x, slot_lookup precomputed transforms_hmc = Some x ->
                       truthy x = false) ->
            arrives_at w "bold_hmc_wf" "inputnode.bold_file"
            = Some (Output "validate_bold" "out_file")))
  /\ (slot_lookup precomputed hmc_boldref = None ->
        in_graph w "validate_bold" = false
        /\ in_graph w "hmc_boldref_wf" = true
        /\ arrives_at w "func_fit_reports_wf" "inputnode.validation_report"
           = Some (Output "hmc_boldref_wf" "outputnode.validation_report")
        /\ ((forall x, slot_lookup precomputed transforms_hmc = Some x ->
                       truthy x = false) ->
            arrives_at w "bold_hmc_wf" "inputnode.bold_file"
            = Some (Output "hmc_boldref_wf" "outputnode.bold_file"))).
Proof.
  intros Hret.
  destruct (fit_returned echo_time layout_get_sbref Hret)
    as (bold_files & bold_file & sbref_files & _ & _ & ->).
  destruct (fit_graph_reports bold_series bold_file sbref_files precomputed
              fieldmap_id) as (Hsum & Hrep & Hval & Hbold & Href).
  unfold have_hmcref in Hrep, Hval, Hbold, Href.
  unfold have_coregref in Hsum.
  rewrite membership_stored in Hsum, Hrep, Hval, Hbold, Href.
  cbn [slot_lookup].
  split; [|split].
  - destruct (dict_get "coreg_boldref" (entries precomputed));
      destruct (truthy_opt fieldmap_id); exact Hsum.
  - intros v Hv. rewrite Hv in Hrep, Hval, Hbold, Href.
    repeat (split; [assumption|]).
    intros Hfalsy. apply Hbold. exact (transform_read_falsy _ _ Hfalsy).
  - intros Hv. rewrite Hv in Hrep, Hval, Hbold, Href.
    repeat (split; [assumption|]).
    intros Hfalsy. apply Hbold. exact (transform_read_falsy _ _ Hfalsy).
Qed.

(** X17. Every returned fit workflow is a well-formed graph: no input
    port is fed by two edges, every edge joins two nodes of the graph, and
    the nodes can be put in an order in which every edge goes forward, so
    that no node can be reached from itself. *)
Theorem fit_workflow_is_well_formed bold_series precomputed fieldmap_id w :
  fit bold_series precomputed fieldmap_id = Returned w ->
  NoDup (map target_port (graph_edges w))
  /\ (forall e, In e (graph_edges w) ->
        in_graph w (source_of e) = true /\ in_graph w (target_of e) = true)
  /\ (forall e, In e (graph_edges w) ->
        rank (execution_order w) (source_of e)
        < rank (execution_order w) (target_of e))
  /\ (forall n, ~ reaches w n n).
Proof.
  intros Hret.
  destruct (fit_returned echo_time layout_get_sbref Hret)
    as (bold_files & bold_file & sbref_files & _ & _ & ->).
  destruct (fit_graph_well_formed bold_series bold_file sbref_files
              precomputed fieldmap_id) as (Hsingle & Hclosed & Htop).
  split; [now apply distinct_ports_NoDup|]. split; [|split].
  - intros e He. unfold edges_closed in Hclosed.
    rewrite forallb_forall in Hclosed. now apply andb_true_iff, Hclosed.
  - intros e He. apply forward_rank. unfold is_topological in Htop.
    rewrite forallb_forall in Htop. now apply Htop.
  - exact (topological_acyclic _ _ Htop).
Qed.
End FitMore.

(** Case analysis on the three tests that shape the native graph. *)
Ltac native_cases slice_timing ignore bold_files bold_file fieldmap_id :=
  unfold native_graph;
  generalize ((1 <? List.length bold_files)%nat),
             (slice_timing bold_file && negb (str_in "slicetiming" ignore)),
             (truthy_opt fieldmap_id);
  intros [|] [|] [|].

Section NativeGraphMore.
Variable slice_timing : string -> bool.
Variable ignore : list string.
Variable bold_files : list string.
Variable bold_file : string.
Variable fieldmap_id : option string.

Local Abbreviation g := (native_graph slice_timing ignore bold_files bold_file fieldmap_id).
Local Abbreviation multiecho := ((1 <? List.length bold_files)%nat).
Local Abbreviation run_stc :=
  (slice_timing bold_file && negb (str_in "slicetiming" ignore)).

Lemma native_graph_fieldmap :
  (forall n, In n ["fmap_select"; "distortion_params"; "boldref_fmap"] ->
     in_graph g n = truthy_opt fieldmap_id)
  /\ arrives_at g "boldref_bold" "fieldmap"
     = Some (if truthy_opt fieldmap_id
             then Output "boldref_fmap" "out_file"
             else Unset "boldref_bold" "fieldmap")
  /\ arrives_at g "boldref_bold" "ro_time"
     = Some (if truthy_opt fieldmap_id
             then Output "distortion_params" "readout_time"
             else Unset "boldbuffer" "ro_time")
  /\ arrives_at g "boldref_bold" "pe_dir"
     = Some (if truthy_opt fieldmap_id
             then Output "distortion_params" "pe_direction"
             else Unset "boldbuffer" "pe_dir")
  /\ arrives_at g "boldref_bold" "transforms"
     = Some (Unset "inputnode" "motion_xfm")
  /\ arrives_at g "boldref_bold" "ref_file" = Some (Unset "inputnode" "boldref").
Proof.
  native_cases slice_timing ignore bold_files bold_file fieldmap_id;
    (split; [intros n Hn; simpl in Hn; each_member Hn; by_evaluation
            | repeat split; by_evaluation]).
Qed.

Lemma native_graph_outputs :
  graph_output g "bold_native"
  = Some (if multiecho
          then Output "bold_t2s_wf" "outputnode.bold"
          else Output "boldref_bold" "out_file")
  /\ graph_output g "bold_minimal"
     = Some (if multiecho then Output "bold_t2s_wf" "outputnode.bold"
             else if run_stc then Output "bold_stc_wf" "outputnode.stc_file"
             else Output "validate_bold" "out_file")
  /\ graph_output g "bold_echos"
     = Some (if multiecho then Output "join_echos" "bold_files"
             else Unset "outputnode" "bold_echos")
  /\ graph_output g "t2star_map"
     = Some (if multiecho then Output "bold_t2s_wf" "outputnode.t2star_map"
             else Unset "outputnode" "t2star_map")
  /\ graph_output g "metadata" = Some (Static (POpaque "metadata"))
  /\ arrives_at g "boldref_bold" "in_file"
     = Some (if run_stc then Output "bold_stc_wf" "outputnode.stc_file"
             else Output "validate_bold" "out_file")
  /\ arrives_at g "join_echos" "bold_files"
     = (if multiecho then Some (Output "boldref_bold" "out_file")
        else Some (Unset "join_echos" "bold_files"))
  /\ in_graph g "bold_stc_wf" = run_stc.
Proof.
  native_cases slice_timing ignore bold_files bold_file fieldmap_id;
    repeat split; by_evaluation.
Qed.

Lemma native_graph_well_formed :
  single_source g = true
  /\ edges_closed g = true
  /\ is_topological g (execution_order g) = true.
Proof.
  native_cases slice_timing ignore bold_files bold_file fieldmap_id;
    repeat split; by_evaluation.
Qed.
End NativeGraphMore.

Section NativeMore.
Variable echo_time : string -> option Q.
Variable img_shape : string -> list nat.
Variable slice_timing : string -> bool.
Variable ignore : list string.

Local Abbreviation native :=
  (init_bold_native_wf echo_time img_shape slice_timing ignore).
Local Abbreviation graph_of := (native_graph slice_timing ignore).

(** What a returned native workflow was built from. *)
Lemma native_returned {bold_series fieldmap_id w} :
  native bold_series fieldmap_id = Returned w ->
  exists bold_files,
    sorted echo_time bold_series = Returned bold_files
    /\ List.length bold_files = List.length bold_series
    /\ w = graph_of bold_files (hd EmptyString bold_files) fieldmap_id.
Proof.
  unfold init_bold_native_wf.
  destruct (sorted echo_time bold_series) as [bold_files|e] eqn:Hs; [|discriminate].
  cbn [bind]. destruct bold_files as [|b bs]; [discriminate|]. cbn [bind].
  destruct (check_echoes img_shape (b :: bs)); [|discriminate].
  cbn [bind]. intros [= <-]. exists (b :: bs).
  split; [reflexivity|]. split; [|reflexivity].
  exact (sorted_length echo_time _ _ Hs).
Qed.

(** X18. In a returned native workflow the fieldmap selection, the
    distortion parameters and the fieldmap reconstruction are in the graph
    exactly when a fieldmap is assigned; only then does resampling get a
    fieldmap, a readout time and a phase-encoding direction.  In every
    case it gets the motion transforms and the reference of the inputs. *)
Theorem native_fieldmap_branch bold_series fieldmap_id w :
  native bold_series fieldmap_id = Returned w ->
  (forall n, In n ["fmap_select"; "distortion_params"; "boldref_fmap"] ->
     in_graph w n = truthy_opt fieldmap_id)
  /\ arrives_at w "boldref_bold" "fieldmap"
     = Some (if truthy_opt fieldmap_id
             then Output "boldref_fmap" "out_file"
             else Unset "boldref_bold" "fieldmap")
  /\ arrives_at w "boldref_bold" "ro_time"
     = Some (if truthy_opt fieldmap_id
             then Output "distortion_params" "readout_time"
             else Unset "boldbuffer" "ro_time")
  /\ arrives_at w "boldref_bold" "pe_dir"
     = Some (if truthy_opt fieldmap_id
             then Output "distortion_params" "pe_direction"
             else Unset "boldbuffer" "pe_dir")
  /\ arrives_at w "boldref_bold" "transforms"
     = Some (Unset "inputnode" "motion_xfm")
  /\ arrives_at w "boldref_bold" "ref_file" = Some (Unset "inputnode" "boldref").
Proof.
  intros Hret. destruct (native_returned Hret) as (bold_files & _ & _ & ->).
  apply native_graph_fieldmap.
Qed.

(** X19. The outputs of a returned native workflow: for more than one
    echo [bold_minimal] and [bold_native] are both the optimal combination
    and [bold_echos] the joined resampled echoes; for one echo
    [bold_native] is the resampled series, [bold_minimal] the
    slice-timing-corrected file, or the validated file when slice timing
    is absent or ignored, and [bold_echos] and [t2star_map] are fed by
    nothing.  Slice-timing correction is decided on the first echo. *)
Theorem native_outputs bold_series fieldmap_id w :
  native bold_series fieldmap_id = Returned w ->
  exists first_echo,
    (forall bold_files, sorted echo_time bold_series = Returned bold_files ->
                        hd_error bold_files = Some first_echo)
    /\ let multiecho := (1 <? List.length bold_series)%nat in
       let run_stc := slice_timing first_echo
                      && negb (str_in "slicetiming" ignore) in
       graph_output w "bold_native"
       = Some (if multiecho
               then Output "bold_t2s_wf" "outputnode.bold"
               else Output "boldref_bold" "out_file")
       /\ graph_output w "bold_minimal"
          = Some (if multiecho then Output "bold_t2s_wf" "outputnode.bold"
                  else if run_stc then Output "bold_stc_wf" "outputnode.stc_file"
                  else Output "validate_bold" "out_file")
       /\ graph_output w "bold_echos"
          = Some (if multiecho then Output "join_echos" "bold_files"
                  else Unset "outputnode" "bold_echos")
       /\ graph_output w "t2star_map"
          = Some (if multiecho then Output "bold_t2s_wf" "outputnode.t2star_map"
                  else Unset "outputnode" "t2star_map")
       /\ in_graph w "bold_stc_wf" = run_stc.
Proof.
  intros Hret. destruct (native_returned Hret) as (bold_files & Hs & Hlen & ->).
  destruct bold_files as [|b bs].
  { exfalso. unfold init_bold_native_wf in Hret. rewrite Hs in Hret. discriminate. }
  exists b. split.
  - intros bold_files' Hs'. rewrite Hs in Hs'. now injection Hs' as <-.
  - cbv zeta. rewrite <- Hlen. cbn [hd].
    destruct (native_graph_outputs slice_timing ignore (b :: bs) b fieldmap_id)
      as (H1 & H2 & H3 & H4 & _ & _ & _ & H8).
    auto.
Qed.

(** X20. [init_bold_native_wf] on the edges of its input: an empty series
    raises [ValueError]; a series of one file always gets a workflow,
    whatever its shape and whether or not it has an echo time; a series of
    two or more files of which one has no echo time raises [TypeError],
    before any image is looked at. *)
Theorem native_edge_cases (bold_series : list string) fieldmap_id :
  (bold_series = [] ->
   native bold_series fieldmap_id
   = Raised (ValueError "not enough values to unpack (expected 3, got 0)"))
  /\ (forall f, bold_series = [f] ->
        native bold_series fieldmap_id = Returned (graph_of [f] f fieldmap_id))
  /\ (2 <= List.length bold_series ->
      (exists f, In f bold_series /\ echo_time f = None) ->
      native bold_series fieldmap_id = Raised TypeError).
Proof.
  split; [|split].
  - now intros ->.
  - now intros f ->.
  - intros Hlen Hnone. unfold init_bold_native_wf.
    assert (Hs : sorted echo_time bold_series = Raised TypeError).
    { apply sorted_raised_spec. auto. }
    now rewrite Hs.
Qed.

(** X21. Every returned native workflow is a well-formed graph: no input
    port is fed by two edges, every edge joins two nodes of the graph, and
    the nodes can be put in an order in which every edge goes forward, so
    that no node can be reached from itself. *)
Theorem native_workflow_is_well_formed bold_series fieldmap_id w :
  native bold_series fieldmap_id = Returned w ->
  NoDup (map target_port (graph_edges w))
  /\ (forall e, In e (graph_edges w) ->
        in_graph w (source_of e) = true /\ in_graph w (target_of e) = true)
  /\ (forall e, In e (graph_edges w) ->
        rank (execution_order w) (source_of e)
        < rank (execution_order w) (target_of e))
  /\ (forall n, ~ reaches w n n).
Proof.
  intros Hret. destruct (native_returned Hret) as (bold_files & _ & _ & ->).
  destruct (native_graph_well_formed slice_timing ignore bold_files
              (hd EmptyString bold_files) fieldmap_id)
    as (Hsingle & Hclosed & Htop).
  split; [now apply distinct_ports_NoDup|]. split; [|split].
  - intros e He. unfold edges_closed in Hclosed.
    rewrite forallb_forall in Hclosed. now apply andb_true_iff, Hclosed.
  - intros e He. apply forward_rank. unfold is_topological in Htop.
    rewrite forallb_forall in Htop. now apply Htop.
  - exact (topological_acyclic _ _ Htop).
Qed.
End NativeMore.

(** ** The example series, again *)


Lemma stages_read_exported_references_witness :
  let w := fit_graph [Fit.Example.echo1] Fit.Example.echo1
             [Fit.Example.sbref1; Fit.Example.sbref2]
             Fit.Example.nothing_cached None in
  init_bold_fit_wf Fit.Example.echo_time Fit.Example.layout_get_sbref
    [Fit.Example.echo1] Fit.Example.nothing_cached None = Returned w
  /\ arrives_at w "bold_hmc_wf" "inputnode.raw_ref_image"
     = graph_output w "hmc_boldref".
Proof.
  intros w.
  assert (Hret : init_bold_fit_wf Fit.Example.echo_time Fit.Example.layout_get_sbref
                   [Fit.Example.echo1] Fit.Example.nothing_cached None = Returned w)
    by reflexivity.
  split; [exact Hret|].
  exact (proj1 (stages_read_exported_references
                  Fit.Example.echo_time Fit.Example.layout_get_sbref
                  [Fit.Example.echo1] Fit.Example.nothing_cached None w Hret)
               eq_refl).
Defined.

Lemma cached_coregref_skips_fieldmap_witness :
  let w := fit_graph [Fit.Example.echo1] Fit.Example.echo1
             [Fit.Example.sbref1; Fit.Example.sbref2]
             Fit.Example.all_cached (Some "pepolar0") in
  init_bold_fit_wf Fit.Example.echo_time Fit.Example.layout_get_sbref
    [Fit.Example.echo1] Fit.Example.all_cached (Some "pepolar0") = Returned w
  /\ have_coregref Fit.Example.all_cached = true
  /\ graph_output w "boldref2fmap_xfm"
     = Some (Unset "fmapreg_buffer" "boldref2fmap_xfm").
Proof.
  intros w.
  assert (Hret : init_bold_fit_wf Fit.Example.echo_time Fit.Example.layout_get_sbref
                   [Fit.Example.echo1] Fit.Example.all_cached (Some "pepolar0")
                 = Returned w) by reflexivity.
  split; [exact Hret|]. split; [reflexivity|].
  exact (proj2 (proj2 (proj2 (cached_coregref_skips_fieldmap
                  Fit.Example.echo_time Fit.Example.layout_get_sbref
                  [Fit.Example.echo1] Fit.Example.all_cached (Some "pepolar0") w
                  Hret eq_refl)))).
Defined.

Lemma no_fieldmap_coregistration_witness :
  let w := fit_graph [Fit.Example.echo1] Fit.Example.echo1
             [Fit.Example.sbref1; Fit.Example.sbref2]
             Fit.Example.nothing_cached None in
  init_bold_fit_wf Fit.Example.echo_time Fit.Example.layout_get_sbref
    [Fit.Example.echo1] Fit.Example.nothing_cached None = Returned w
  /\ graph_output w "bold_mask"
     = Some (Output "enhance_boldref_wf" "outputnode.mask_file").
Proof.
  intros w.
  assert (Hret : init_bold_fit_wf Fit.Example.echo_time Fit.Example.layout_get_sbref
                   [Fit.Example.echo1] Fit.Example.nothing_cached None = Returned w)
    by reflexivity.
  split; [exact Hret|].
  exact (proj1 (proj2 (no_fieldmap_coregistration
                  Fit.Example.echo_time Fit.Example.layout_get_sbref
                  [Fit.Example.echo1] Fit.Example.nothing_cached None w
                  Hret eq_refl eq_refl))).
Defined.

Lemma reports_follow_the_stages_witness :
  let built := fit_graph [Fit.Example.echo1] Fit.Example.echo1
             [Fit.Example.sbref1; Fit.Example.sbref2]
             Fit.Example.nothing_cached (Some "pepolar0") in
  let reused := fit_graph [Fit.Example.echo1] Fit.Example.echo1
             [Fit.Example.sbref1; Fit.Example.sbref2]
             Fit.Example.hmcref_cached None in
  (init_bold_fit_wf Fit.Example.echo_time Fit.Example.layout_get_sbref
     [Fit.Example.echo1] Fit.Example.nothing_cached (Some "pepolar0")
   = Returned built
   /\ arrives_at built "summary" "distortion_correction"
      = Some (Output "fmap_select" "sdc_method")
   /\ in_graph built "validate_bold" = false
   /\ in_graph built "hmc_boldref_wf" = true
   /\ arrives_at built "func_fit_reports_wf" "inputnode.validation_report"
      = Some (Output "hmc_boldref_wf" "outputnode.validation_report")
   /\ arrives_at built "bold_hmc_wf" "inputnode.bold_file"
      = Some (Output "hmc_boldref_wf" "outputnode.bold_file"))
  /\ (init_bold_fit_wf Fit.Example.echo_time Fit.Example.layout_get_sbref
        [Fit.Example.echo1] Fit.Example.hmcref_cached None
      = Returned reused
      /\ arrives_at reused "summary" "distortion_correction"
         = Some (Static (PStr "None"))
      /\ in_graph reused "validate_bold" = true
      /\ in_graph reused "hmc_boldref_wf" = false
      /\ arrives_at reused "func_fit_reports_wf" "inputnode.validation_report"
         = Some (Output "validate_bold" "out_report")
      /\ arrives_at reused "bold_hmc_wf" "inputnode.bold_file"
         = Some (Output "validate_bold" "out_file")).
Proof.
  intros built reused.
  assert (Hret : init_bold_fit_wf Fit.Example.echo_time Fit.Example.layout_get_sbref
                   [Fit.Example.echo1] Fit.Example.nothing_cached (Some "pepolar0")
                 = Returned built) by reflexivity.
  assert (Hret' : init_bold_fit_wf Fit.Example.echo_time Fit.Example.layout_get_sbref
                    [Fit.Example.echo1] Fit.Example.hmcref_cached None
                  = Returned reused) by reflexivity.
  destruct (reports_follow_the_stages
              Fit.Example.echo_time Fit.Example.layout_get_sbref
              [Fit.Example.echo1] Fit.Example.nothing_cached
              (Some "pepolar0") built Hret) as (Hsum & _ & Hnone).
  destruct (reports_follow_the_stages
              Fit.Example.echo_time Fit.Example.layout_get_sbref
              [Fit.Example.echo1] Fit.Example.hmcref_cached
              None reused Hret') as (Hsum' & Hsome & _).
  destruct (Hnone eq_refl) as (H1 & H2 & H3 & H4).
  destruct (Hsome _ eq_refl) as (H1' & H2' & H3' & H4').
  split.
  - split; [exact Hret|]. split; [exact Hsum|]. split; [exact H1|].
    split; [exact H2|]. split; [exact H3|].
    apply H4. intros x Hx. discriminate Hx.
  - split; [exact Hret'|]. split; [exact Hsum'|]. split; [exact H1'|].
    split; [exact H2'|]. split; [exact H3'|].
    apply H4'. intros x Hx. discriminate Hx.
Defined.

Lemma fit_workflow_is_well_formed_witness :
  let w := fit_graph [Fit.Example.echo1] Fit.Example.echo1
             [Fit.Example.sbref1; Fit.Example.sbref2]
             Fit.Example.nothing_cached (Some "pepolar0") in
  init_bold_fit_wf Fit.Example.echo_time Fit.Example.layout_get_sbref
    [Fit.Example.echo1] Fit.Example.nothing_cached (Some "pepolar0") = Returned w
  /\ NoDup (map target_port (graph_edges w))
  /\ (forall n, ~ reaches w n n).
Proof.
  intros w.
  assert (Hret : init_bold_fit_wf Fit.Example.echo_time Fit.Example.layout_get_sbref
                   [Fit.Example.echo1] Fit.Example.nothing_cached (Some "pepolar0")
                 = Returned w) by reflexivity.
  destruct (fit_workflow_is_well_formed
              Fit.Example.echo_time Fit.Example.layout_get_sbref
              [Fit.Example.echo1] Fit.Example.nothing_cached (Some "pepolar0") w
              Hret) as (Hports & _ & _ & Hacyclic).
  split; [exact Hret|]. split; [exact Hports | exact Hacyclic].
Defined.

Lemma native_fieldmap_branch_witness :
  let w := native_graph Fit.Example.slice_timing Fit.Example.ignore
             [Fit.Example.echo1] Fit.Example.echo1 (Some "pepolar0") in
  init_bold_native_wf Fit.Example.echo_time Fit.Example.img_shape
    Fit.Example.slice_timing Fit.Example.ignore [Fit.Example.echo1]
    (Some "pepolar0") = Returned w
  /\ arrives_at w "boldref_bold" "fieldmap"
     = Some (Output "boldref_fmap" "out_file").
Proof.
  intros w.
  assert (Hret : init_bold_native_wf Fit.Example.echo_time Fit.Example.img_shape
                   Fit.Example.slice_timing Fit.Example.ignore [Fit.Example.echo1]
                   (Some "pepolar0") = Returned w) by reflexivity.
  split; [exact Hret|].
  exact (proj1 (proj2 (native_fieldmap_branch
                  Fit.Example.echo_time Fit.Example.img_shape
                  Fit.Example.slice_timing Fit.Example.ignore
                  [Fit.Example.echo1] (Some "pepolar0") w Hret))).
Defined.

Lemma native_outputs_witness :
  let w := native_graph Fit.Example.slice_timing Fit.Example.ignore
             [Fit.Example.echo1; Fit.Example.echo2; Fit.Example.echo3]
             Fit.Example.echo1 None in
  init_bold_native_wf Fit.Example.echo_time Fit.Example.img_shape
    Fit.Example.slice_timing Fit.Example.ignore
    [Fit.Example.echo3; Fit.Example.echo1; Fit.Example.echo2] None = Returned w
  /\ graph_output w "bold_minimal" = graph_output w "bold_native"
  /\ graph_output w "bold_native" = Some (Output "bold_t2s_wf" "outputnode.bold").
Proof.
  intros w.
  assert (Hret : init_bold_native_wf Fit.Example.echo_time Fit.Example.img_shape
                   Fit.Example.slice_timing Fit.Example.ignore
                   [Fit.Example.echo3; Fit.Example.echo1; Fit.Example.echo2] None
                 = Returned w) by reflexivity.
  destruct (native_outputs Fit.Example.echo_time Fit.Example.img_shape
              Fit.Example.slice_timing Fit.Example.ignore
              [Fit.Example.echo3; Fit.Example.echo1; Fit.Example.echo2] None w Hret)
    as (first_echo & _ & Hnative & Hminimal & _).
  split; [exact Hret|]. split.
  - exact (eq_trans Hminimal (eq_sym Hnative)).
  - exact Hnative.
Defined.

Lemma native_edge_cases_witness :
  init_bold_native_wf Fit.Example.echo_time Fit.Example.img_shape
    Fit.Example.slice_timing Fit.Example.ignore
    [Fit.Example.echo1; "sub-01/func/sub-01_task-rest_bold.nii.gz"] None
  = Raised TypeError.
Proof.
  apply (proj2 (proj2 (native_edge_cases
                  Fit.Example.echo_time Fit.Example.img_shape
                  Fit.Example.slice_timing Fit.Example.ignore
                  [Fit.Example.echo1; "sub-01/func/sub-01_task-rest_bold.nii.gz"]
                  None))).
  - simpl. lia.
  - exists "sub-01/func/sub-01_task-rest_bold.nii.gz".
    split; [right; now left | reflexivity].
Defined.

Lemma native_workflow_is_well_formed_witness :
  let w := native_graph Fit.Example.slice_timing Fit.Example.ignore
             [Fit.Example.echo1; Fit.Example.echo2; Fit.Example.echo3]
             Fit.Example.echo1 None in
  init_bold_native_wf Fit.Example.echo_time Fit.Example.img_shape
    Fit.Example.slice_timing Fit.Example.ignore
    [Fit.Example.echo3; Fit.Example.echo1; Fit.Example.echo2] None = Returned w
  /\ (forall n, ~ reaches w n n).
Proof.
  intros w.
  assert (Hret : init_bold_native_wf Fit.Example.echo_time Fit.Example.img_shape
                   Fit.Example.slice_timing Fit.Example.ignore
                   [Fit.Example.echo3; Fit.Example.echo1; Fit.Example.echo2] None
                 = Returned w) by reflexivity.
  split; [exact Hret|].
  exact (proj2 (proj2 (proj2 (native_workflow_is_well_formed
                  Fit.Example.echo_time Fit.Example.img_shape
                  Fit.Example.slice_timing Fit.Example.ignore
                  [Fit.Example.echo3; Fit.Example.echo1; Fit.Example.echo2]
                  None w Hret)))).
Defined.
